(* ===== verification/_CoqProject ===== *)
-Q . S2P
Prelude.v
PyDict.v
Json.v
TitleCase.v
Document.v
DocInit.v
DocJson.v
Bigrams.v
Corpus.v
Export.v
CorpusInit.v
TextUtil.v
RoundTrip.v
