(* ===== verification/Prelude.v ===== *)
(** * TechKnAcq corpus: a verification development of [src/lib/techknacq/corpus.py]

    ** The program
    One Python module with two classes.  [Document] is one ingested record
    (id, authors, title, book, year, url, a set of cited ids, a list of
    sections, and a back-reference [corpus]); it builds itself from a JSON
    file, a plain-text file or a TSV line ([__init__]), and derives an
    abstract ([get_abstract]), a plain-text rendering ([text]), word-pair
    features ([bigrams]) and a JSON string ([json]).  [Corpus] maps ids to
    documents ([self.docs]), stamps [doc.corpus = self] on [add], reads a
    TSV file, a BioC file or a directory in its constructor, and writes one
    file per document in [export].  [text] and [bigrams] consult the owning
    corpus to resolve cited ids, so the two classes refer to each other
    through mutable objects.  [title_case] normalises titles.

    ** Files, in dependency order
    - [Prelude]: the result type [Res] of a computation that may raise a
      Python exception ([exn]), its bind with the notation [x <- m ;; k]
      in [py_scope], ASCII versions of the [str] methods the code calls
      ([lower], [split], [strip], [join], [isdigit], [in]), string ordering
      and [sorted_set] for [sorted(list(s))] of a set, the naturality of
      stdpp's [merge_sort], the hint databases [pydb] and [pyrw], and the
      generic string and list lemmas.
    - [PyDict]: a Python [dict] as its items in insertion order, with the
      refinement of its [get] and assignment by stdpp's [gmap].
    - [Json]: the [json] module the code calls (not repository code, so
      not mapped): the values, [json.dumps] with [indent=2],
      [sort_keys=True], [ensure_ascii=False], and [json.loads] as CPython's
      scanner (a fuelled recursive descent returning [option (Res _)]).
    - [TitleCase]: [title_case] (lines 323-327) as thirteen [re.sub]
      passes, each a fuelled left-to-right scan [sub_word_go].
    - [Document]: the records [section] and [Document], the interface
      [DocStore] (what a document asks of its corpus: the document under a
      key), [get_abstract] (194-207) and [text] (231-260).
    - [DocInit]: [Document.__init__] (120-167): form inference, the id
      taken from the file name, the text and TSV forms.
    - [DocJson]: [Document.json] (210-229) as [doc_dict] and [doc_json],
      the JSON branch of [__init__] (130-150) as [json_load] and
      [jdoc_of_json], and the whole constructor with that reading as
      [document_open].
    - [Bigrams]: [bigrams] (264-317): the [re.split] tokenizer, the token
      filter, [good_word], the pair loop, and a list-valued reference.
    - [Corpus]: the object store [World] (corpora and the document heap),
      [add], [clear], [__ior__], [__getitem__], [__setitem__],
      [__contains__], [__iter__] (56-80), the TSV reading of [__init__]
      (25-36), the back-reference invariant [corpus_inv] with a boolean
      checker, and the step relation [step] of the operations that keep it.
    - [Export]: [export] (88-116) as the list of file-system events it
      causes ([FOpen] then [FWrite]), the JSON form through [doc_json];
      the file system those events leave ([fs_read]: open truncates,
      write appends).
    - [CorpusInit]: the whole of [Corpus.__init__] (22-54): the TSV, BioC
      and directory branches over an environment record [env] (file
      system, record loader, [cpu_count], tokenizer), with [pool.imap] as
      [pool_ingest] and the outcome [Returned] or [Blocked]; the step
      relation [sys_step] of the library with every constructor.
    - [RoundTrip]: the composition of [export(dest, form='json')], the
      file system it leaves, and [Corpus(dest, pool, path_list)] over the
      files written.
    - [TextUtil]: [filter_non_printable] (320-321), [strtr] (329-332, by
      well-founded recursion with Equations), [Document.dehyphenate] and
      its inner [dehyphenate_sent] (169-192), [Corpus.fix_text] (82-83).
    [Corpus] implements [DocStore] on the store ([world_store]); the
    theorems on [text] and [bigrams] are proved against the interface.
    [DocInit] takes the JSON reader as a parameter; [DocJson]'s
    [document_open_init] shows that any reader agreeing with the code's
    ([loader_for]) gives [document_open]'s result, and [CorpusInit]'s
    [loader_agrees] asks this of the environment.

    ** What is proved
    - Corpus and CorpusInit: every store reached from the empty one by
      [Corpus()], building a document, [add] of a document no other
      corpus holds, [clear], TSV reading and [Corpus(...)] in any branch
      satisfies the invariant (rule induction over [sys_step]); in every
      store that satisfies it, [add] of a document another corpus holds,
      [__ior__] and [__setitem__] under a key other than the id break it;
      [add] refines map insertion, and a second [add] with the same id
      replaces the first; TSV reading raises [ValueError] exactly when
      some line is malformed.  The directory branch adds every document
      in the order of the files when each file builds one and the ids are
      distinct, blocks for ever on a file named like [*json*.txt] that is
      not JSON, aborts on the first exception, and raises [ValueError] on
      one CPU; a BioC file with a record always raises [AttributeError].
    - RoundTrip: a corpus exported as JSON and read back over the files
      written keeps its ids and their order, and each document comes back
      as [Document.__init__] rebuilds it ([title_case] once more).  It
      rests on [pool_ingest_ok] (the directory branch adds every document
      in order) and on the file-system lemma [fs_events_lookup].
    - Json and DocJson: [loads (dumps v)] is [v] with object keys sorted,
      for values without floats or duplicate keys; hence [json.loads] of
      [Document.json] gives back its dictionary, [Document.json] raises
      exactly for a missing id or an abstract without sections, and
      reading an exported file with [Document(f)] gives the document with
      [title_case] applied once more, which changes some titles.
    - Document: the errors [text] can raise (and [bigrams], by the same
      lemma [render_errors]), the [TypeError] of a document without a
      corpus, unresolved ids being skipped; the order of the
      [get_abstract] rules, its ten-sentence bound and its [IndexError].
    - Bigrams: [re_split] is [re.split] with a greedy class: the unique
      decomposition of the string into pieces of the class and maximal
      runs outside it.  [bigrams_from_sent] is characterised on the
      words of the sentence: the filter keeps exactly the tokens the
      condition of lines 275-276 describes (written out on characters),
      and the lines are exactly the lower-cased pairs of adjacent feature
      words and the [#...#] feature words.
    - DocInit: the TSV round trip of id, year and body; [ValueError] on a
      malformed line; form inference from the whole path.
    - TitleCase: only lower-casing of a character after a letter and a
      space ever happens; length and text up to case are kept; a leading
      word is untouched; the specification's example; non-overlap.
    - Export: an unknown form exits before any file; a text export of a
      well-formed corpus writes one file per document; when no id holds
      a ['/'] these are distinct entries of the destination, while an
      id that is an absolute path is written outside it; a JSON export
      writes files that read back as the documents' dictionaries; the
      [bioc] form raises [AttributeError] (a [Document] has no [bioc]
      method).
    - TextUtil: [strtr] raises [KeyError] exactly for an empty dict and
      decodes texts made of prefix-free keys; [dehyphenate_sent] on every
      input ([IndexError], the [NameError] of the unbound [d], or the
      words joined); [filter_non_printable] keeps exactly the printable
      characters.

    ** Bounds and fuel
    [sub_word_go] runs with fuel [String.length s]; each step consumes at
    least one character, and [sub_word_go_fuel] shows that any larger fuel
    gives the same result.  [loads] runs the parser with fuel
    [2 * String.length s + 1]: every call of [parse_value] consumes a
    character or returns, each element costs at most two calls, and
    [parse_total] proves that this fuel never runs out ([parse_mono]: more
    fuel, same answer).  [strtr_at] recurses on the measure
    [2 * length + (if adv then 0 else 1)], which Equations checks.  The
    rest is structural recursion.  Python's machine integers do not occur
    ([cpu_count] is a [nat]; JSON integers are [Z]).

    ** Not modelled, and why
    - Characters are ASCII for the [str] predicates ([lower], [isdigit],
      [isalpha], [isspace]), which agree with Python on ASCII only; the
      JSON component works on the UTF-8 bytes, which it copies.
    - JSON floats are kept as their literal (Python re-prints
      [repr(float)]); lone surrogate escapes and the recursion limit of
      the decoder are outside the model.  A record field of a type the
      model's [Document] cannot hold (a number as the year, a null
      heading) is reported by [jdoc_of_json] as [Ok None].
    - External collaborators are section variables or fields of [env]:
      the sentence tokenizer, the stop-word lexicon, the file system.  The
      BioC reader and writer are never reached ([read_bioc_json] and
      [bioc] do not exist).  [multiprocessing] is modelled by what
      [imap] shows the parent: results in order, a worker's exception
      re-raised, a worker's [SystemExit] never answered.
    - [__ior__] iterates a snapshot of the other corpus; Python iterates
      the live dict, which differs only when a corpus is merged into
      itself after [__setitem__] (Python then raises [RuntimeError]).
    - Printing to the console ([print]) is not modelled.
    - The file system of [Export] is a map from path strings to contents,
      and [io.open(path, 'w')] is assumed to succeed.  On POSIX two
      strings can name one file (["d/x"] and ["d/./x"]) and an open fails
      when a directory of the path is missing; the theorems that read
      the files back ([export_files_distinct], [export_reimport]) assume
      ids without ['/'], for which the paths [<dest>/<id>.<ext>] are
      distinct entries of the one directory [dest] and neither case
      arises.
    Every function and method of corpus.py has a definition; the lines no
    definition translates are the imports (1-19) and the [class]
    statements, which hold no behaviour of their own. *)

From Stdlib Require Export Ascii.
From Stdlib Require Strings.String.
From stdpp Require Export base list gmap sorting strings.

(** ** Python exceptions and the result monad

    The modelled code signals failure by raising.  A computation that can
    raise returns [Res A]: [Ok a], or [Raise e] with the exception the
    Python interpreter would raise at that point. *)

Inductive exn : Type :=
  | ValueError
  | IndexError
  | KeyError
  | TypeError
  | AttributeError
  | AssertionError
  | NameError
  | OSError
  | SystemExit (code : nat).

Inductive Res (A : Type) : Type :=
  | Ok (a : A)
  | Raise (e : exn).
Arguments Ok {A} a.
Arguments Raise {A} e.

Definition rbind {A B} (m : Res A) (k : A -> Res B) : Res B :=
  match m with
  | Ok a => k a
  | Raise e => Raise e
  end.

Definition rmap {A B} (f : A -> B) (m : Res A) : Res B :=
  rbind m (fun a => Ok (f a)).

Declare Scope py_scope.
Delimit Scope py_scope with py.
Notation "x <- m ;; k" := (rbind m (fun x => k))
  (at level 100, m at next level, right associativity) : py_scope.
Open Scope py_scope.

(** The value of a computation that returned, [dflt] if it raised. *)
Definition res_get {A} (dflt : A) (r : Res A) : A :=
  match r with Ok a => a | Raise _ => dflt end.

(** [for x in l: ...] threading an accumulator, stopping at the first raise. *)
Fixpoint rfold {A B} (f : B -> A -> Res B) (acc : B) (l : list A) : Res B :=
  match l with
  | [] => Ok acc
  | x :: r => acc' <- f acc x ;; rfold f acc' r
  end.

(** ** ASCII characters as Python's [str] methods see them *)

Definition code (c : ascii) : nat := nat_of_ascii c.

Definition is_upper (c : ascii) : bool := (65 <=? code c) && (code c <=? 90).
Definition is_lower (c : ascii) : bool := (97 <=? code c) && (code c <=? 122).
Definition is_alpha (c : ascii) : bool := is_upper c || is_lower c.
Definition is_digit (c : ascii) : bool := (48 <=? code c) && (code c <=? 57).
Definition is_alnum (c : ascii) : bool := is_alpha c || is_digit c.

(** [str.isspace] on ASCII: tab to carriage return, the four separators
    0x1c to 0x1f, and the space. *)
Definition is_space (c : ascii) : bool :=
  ((9 <=? code c) && (code c <=? 13)) || ((28 <=? code c) && (code c <=? 32)).

(** [str.lower] on one character. *)
Definition lower_char (c : ascii) : ascii :=
  if is_upper c then ascii_of_nat (code c + 32) else c.

Fixpoint str_lower (s : string) : string :=
  match s with
  | EmptyString => EmptyString
  | String c r => String (lower_char c) (str_lower r)
  end.

Fixpoint str_existsb (p : ascii -> bool) (s : string) : bool :=
  match s with
  | EmptyString => false
  | String c r => p c || str_existsb p r
  end.

(** [c in s] for a one-character [c]. *)
Definition str_has (c : ascii) (s : string) : bool := str_existsb (Ascii.eqb c) s.

(** [s[0]] and [s[-1]]: [None] where Python raises [IndexError]. *)
Definition str_head (s : string) : option ascii :=
  match s with
  | EmptyString => None
  | String c _ => Some c
  end.

(** [s[0].isdigit()] for a non-empty [s]. *)
Definition starts_digit (s : string) : bool :=
  match str_head s with Some c => is_digit c | None => false end.

Fixpoint str_last (s : string) : option ascii :=
  match s with
  | EmptyString => None
  | String c EmptyString => Some c
  | String _ r => str_last r
  end.

(** The newline character; Rocq string literals have no escapes, so
    Python's ['\n'] is written [NL]. *)
Definition NL : string := String "010"%char EmptyString.

(** The tab character. *)
Definition TAB : ascii := "009"%char.

(** [s.split(sep)] for a one-character separator: every occurrence splits,
    empty pieces are kept, and there is always at least one piece. *)
Fixpoint str_split (sep : ascii) (s : string) : list string :=
  match s with
  | EmptyString => [EmptyString]
  | String c r =>
      let pieces := str_split sep r in
      if Ascii.eqb c sep then EmptyString :: pieces
      else match pieces with
           | p :: ps => String c p :: ps
           | [] => [String c EmptyString]
           end
  end.

(** [needle in hay] for strings. *)
Fixpoint str_contains (needle hay : string) : bool :=
  String.prefix needle hay ||
  match hay with
  | EmptyString => false
  | String _ r => str_contains needle r
  end.

(** [s.strip()]: whitespace removed at both ends. *)
Fixpoint str_lstrip (s : string) : string :=
  match s with
  | EmptyString => EmptyString
  | String c r => if is_space c then str_lstrip r else s
  end.

Fixpoint str_rev (s : string) : string :=
  match s with
  | EmptyString => EmptyString
  | String c r => str_rev r +:+ String c EmptyString
  end.

(** [s.endswith(suf)] *)
Definition str_ends_with (suf s : string) : bool :=
  String.prefix (str_rev suf) (str_rev s).

Definition py_strip (s : string) : string := str_rev (str_lstrip (str_rev (str_lstrip s))).

(** [s.split()]: the maximal runs of non-whitespace characters.  [cur]
    is the current word, reversed. *)
Definition flush (cur : string) (ws : list string) : list string :=
  match cur with
  | EmptyString => ws
  | _ => str_rev cur :: ws
  end.

Fixpoint str_words_aux (cur : string) (s : string) : list string :=
  match s with
  | EmptyString => flush cur []
  | String c r =>
      if is_space c then flush cur (str_words_aux EmptyString r)
      else str_words_aux (String c cur) r
  end.

Definition str_words (s : string) : list string := str_words_aux EmptyString s.

(** Truth value of a string: non-empty. *)
Definition truthy (s : string) : bool := negb (String.eqb s "").

(** [sep.join(l)]. *)
Fixpoint py_join (sep : string) (l : list string) : string :=
  match l with
  | [] => ""
  | [x] => x
  | x :: r => x +:+ sep +:+ py_join sep r
  end.

(** ** Ordering of strings and [sorted(list(s))] for a set [s]

    Python compares strings by code point, which on ASCII is [String.leb]. *)

Definition str_le (a b : string) : Prop := String.leb a b = true.

#[export] Instance str_le_dec : RelDecision str_le.
Proof. intros a b. unfold str_le. apply _. Defined.

(** [sorted(list(refs))] for the Python set [refs]. *)
Definition sorted_set (r : gset string) : list string :=
  merge_sort str_le (elements r).

(** ** Generic lemmas *)

Create HintDb pydb discriminated.
Create Rewrite HintDb pyrw.

Lemma rbind_ok {A B} (m : Res A) (k : A -> Res B) b :
  rbind m k = Ok b -> exists a, m = Ok a /\ k a = Ok b.
Proof. destruct m; simpl; [eauto | discriminate]. Qed.

Lemma N_of_ascii_inj (a b : ascii) : N_of_ascii a = N_of_ascii b -> a = b.
Proof.
  intros H. rewrite <- (ascii_N_embedding a), <- (ascii_N_embedding b).
  by rewrite H.
Qed.

Lemma str_compare_trans (a b c : string) :
  String.compare a b <> Gt -> String.compare b c <> Gt -> String.compare a c <> Gt.
Proof.
  revert b c. induction a as [|x a IH]; intros [|y b] [|z c]; simpl; auto.
  unfold Ascii.compare.
  destruct (N.compare_spec (N_of_ascii x) (N_of_ascii y)) as [Hxy|Hxy|Hxy];
  destruct (N.compare_spec (N_of_ascii y) (N_of_ascii z)) as [Hyz|Hyz|Hyz];
  try congruence;
  destruct (N.compare_spec (N_of_ascii x) (N_of_ascii z)); try congruence; try lia.
  apply IH.
Qed.

#[export] Instance str_le_total : Total str_le.
Proof. intros a b. unfold str_le. apply String.leb_total. Qed.

#[export] Instance str_le_transitive : Transitive str_le.
Proof.
  intros a b c. unfold str_le, String.leb.
  pose proof (str_compare_trans a b c).
  destruct (String.compare a b), (String.compare b c), (String.compare a c);
    naive_solver.
Qed.

#[export] Instance str_le_antisymm : AntiSymm (=) str_le.
Proof. intros a b. unfold str_le. apply String.leb_antisym. Qed.

Lemma sorted_set_Sorted r : Sorted str_le (sorted_set r).
Proof. apply Sorted_merge_sort, _. Qed.

Lemma sorted_set_perm r : sorted_set r ≡ₚ elements r.
Proof. apply merge_sort_Permutation. Qed.

Lemma elem_of_sorted_set x r : x ∈ sorted_set r <-> x ∈ r.
Proof. by rewrite sorted_set_perm, elem_of_elements. Qed.

Lemma sorted_set_NoDup r : NoDup (sorted_set r).
Proof. rewrite sorted_set_perm. apply NoDup_elements. Qed.

Lemma StronglySorted_filter {A} (R : relation A) (P : A -> Prop) `{!∀ x, Decision (P x)} l :
  StronglySorted R l -> StronglySorted R (filter P l).
Proof.
  induction 1 as [|x l _ IH Hx]; [constructor|]. rewrite filter_cons.
  case_decide; [|done]. constructor; [done|].
  rewrite Forall_forall in Hx |- *. intros y Hy.
  apply list_elem_of_filter in Hy as [_ Hy]. by apply Hx.
Qed.

(** Sorting commutes with filtering the set. *)
Lemma sorted_set_filter (P : string -> Prop) `{!∀ x, Decision (P x)} r :
  sorted_set (filter P r) = filter P (sorted_set r).
Proof.
  apply (Sorted_unique str_le); [apply sorted_set_Sorted| |].
  - apply StronglySorted_Sorted, StronglySorted_filter, Sorted_StronglySorted;
      [apply _ | apply sorted_set_Sorted].
  - apply NoDup_Permutation; [apply sorted_set_NoDup | apply NoDup_filter, sorted_set_NoDup |].
    intros x. rewrite list_elem_of_filter, !elem_of_sorted_set, elem_of_filter. done.
Qed.

Lemma sorted_set_nil r : sorted_set r = [] <-> r = ∅.
Proof.
  split; [|intros ->; reflexivity].
  intros Hr. apply set_eq. intros x. rewrite <- elem_of_sorted_set, Hr. set_solver.
Qed.

(** [merge_sort] commutes with a map that reflects the order: sorting the
    images is mapping the sorted list. *)
Section MergeSortMap.
Context {A B : Type} (R : relation B) `{!RelDecision R} (R' : relation A) `{!RelDecision R'}.
Variable f : A -> B.
Hypothesis Hf : forall x y, R (f x) (f y) <-> R' x y.

Lemma list_merge_map l1 l2 :
  list_merge R (map f l1) (map f l2) = map f (list_merge R' l1 l2).
Proof.
  revert l2. induction l1 as [|x1 l1 IH1]; intros l2; [by destruct l2|].
  induction l2 as [|x2 l2 IH2]; [done|]. simpl.
  destruct (decide (R' x1 x2)) as [H|H].
  - rewrite (decide_True (P:=R (f x1) (f x2))) by (by apply Hf). simpl. f_equal. exact (IH1 (x2 :: l2)).
  - rewrite (decide_False (P:=R (f x1) (f x2))) by (by rewrite Hf). simpl. f_equal. exact IH2.
Qed.

Lemma merge_list_to_stack_map st l :
  merge_list_to_stack R (map (fmap (map f)) st) (map f l)
  = map (fmap (map f)) (merge_list_to_stack R' st l).
Proof.
  revert l. induction st as [|[l'|] st IH]; intros l; simpl; [done| |done].
  by rewrite list_merge_map, IH.
Qed.

Lemma merge_stack_map st : merge_stack R (map (fmap (map f)) st) = map f (merge_stack R' st).
Proof.
  induction st as [|[l|] st IH]; simpl; [done| |done]. by rewrite IH, list_merge_map.
Qed.

Lemma merge_sort_aux_map st l :
  merge_sort_aux R (map (fmap (map f)) st) (map f l) = map f (merge_sort_aux R' st l).
Proof.
  revert st. induction l as [|x l IH]; intros st; simpl; [apply merge_stack_map|].
  rewrite <- IH. f_equal. apply (merge_list_to_stack_map st [x]).
Qed.

Lemma merge_sort_map l : merge_sort R (map f l) = map f (merge_sort R' l).
Proof. apply (merge_sort_aux_map []). Qed.
End MergeSortMap.

(** [set(sorted(list(r)))] is [r]. *)
Lemma list_to_set_sorted_set r : list_to_set (sorted_set r) = r.
Proof. apply set_eq. intros x. by rewrite elem_of_list_to_set, elem_of_sorted_set. Qed.

#[export] Hint Resolve sorted_set_Sorted sorted_set_NoDup : pydb.
#[export] Hint Rewrite elem_of_sorted_set : pyrw.

(** stdpp makes [String.append] opaque to [simpl]; these are its equations. *)
Lemma str_app_cons c s t : String c s +:+ t = String c (s +:+ t).
Proof. reflexivity. Qed.

Lemma str_app_nil t : "" +:+ t = t.
Proof. reflexivity. Qed.

Lemma str_app_assoc a b c : (a +:+ b) +:+ c = a +:+ (b +:+ c).
Proof. induction a as [|x a IH]; [done|]. by rewrite !str_app_cons, IH. Qed.

Lemma str_app_nil_r a : a +:+ "" = a.
Proof. induction a as [|x a IH]; [done|]. by rewrite str_app_cons, IH. Qed.

Lemma str_app_length a b : String.length (a +:+ b) = String.length a + String.length b.
Proof. induction a as [|x a IH]; [done|]. rewrite str_app_cons. simpl. by rewrite IH. Qed.

#[export] Hint Rewrite str_app_cons str_app_nil str_app_assoc str_app_nil_r : pyrw.

Lemma prefix_nil x : String.prefix "" x = true.
Proof. by destruct x. Qed.

Lemma prefix_app_r n s t : String.prefix n s = true -> String.prefix n (s +:+ t) = true.
Proof.
  revert s. induction n as [|c n IH]; intros s H; [apply prefix_nil|].
  destruct s as [|d s]; [done|]. rewrite str_app_cons. simpl in *.
  destruct (ascii_dec c d); [by apply IH | done].
Qed.

Lemma str_contains_cons n c s :
  str_contains n (String c s) = String.prefix n (String c s) || str_contains n s.
Proof. reflexivity. Qed.

(** [n in s] stays true when text is added on either side. *)
Lemma str_contains_app_l n s t : str_contains n s = true -> str_contains n (s +:+ t) = true.
Proof.
  induction s as [|c s IH].
  - simpl. destruct n; [intros _; by destruct t | done].
  - rewrite str_app_cons, !str_contains_cons. intros [Hp|Hc]%orb_true_iff.
    + apply prefix_app_r with (t := t) in Hp. rewrite str_app_cons in Hp. by rewrite Hp.
    + by rewrite IH, orb_true_r.
Qed.

Lemma str_contains_app_r n s t : str_contains n t = true -> str_contains n (s +:+ t) = true.
Proof.
  intros Ht. induction s as [|c s IH]; [done|]. rewrite str_app_cons. simpl.
  by rewrite IH, orb_true_r.
Qed.

Lemma str_lower_length s : String.length (str_lower s) = String.length s.
Proof. induction s; simpl; auto. Qed.

Lemma lower_char_idem c : lower_char (lower_char c) = lower_char c.
Proof. destruct c as [[] [] [] [] [] [] [] []]; reflexivity. Qed.

Lemma str_lower_idem s : str_lower (str_lower s) = str_lower s.
Proof. induction s; simpl; f_equal; auto using lower_char_idem. Qed.

Lemma str_lower_append s t : str_lower (s +:+ t) = str_lower s +:+ str_lower t.
Proof. induction s as [|c s IH]; simpl; [done | by rewrite IH]. Qed.

#[export] Hint Rewrite str_lower_length str_lower_idem str_lower_append : pyrw.

Lemma fold_left_app_concat {A} (f : A -> string) (l : list A) (out : string) :
  fold_left (fun acc a => acc +:+ f a) l out = out +:+ foldr (fun a acc => f a +:+ acc) "" l.
Proof.
  revert out; induction l as [|a l IH]; intros out; simpl; [by rewrite str_app_nil_r|].
  by rewrite IH, str_app_assoc.
Qed.

Lemma str_split_nonempty sep a : str_split sep a <> [].
Proof.
  destruct a as [|c a]; simpl; [done|].
  destruct (Ascii.eqb c sep); [done|]. by destruct (str_split sep a).
Qed.

Lemma str_split_nosep sep a : str_has sep a = false -> str_split sep a = [a].
Proof.
  unfold str_has. induction a as [|c a IH]; simpl; [done|].
  intros [Hc Ha]%orb_false_iff. rewrite Ascii.eqb_sym, Hc, IH by done. done.
Qed.

Lemma str_split_app sep a b :
  str_split sep (a +:+ String sep b) = str_split sep a ++ str_split sep b.
Proof.
  induction a as [|c a IH]; simpl.
  - by rewrite Ascii.eqb_refl.
  - rewrite IH. destruct (Ascii.eqb c sep); [done|].
    destruct (str_split sep a) eqn:Ha; [|done].
    exfalso. by apply (str_split_nonempty sep a).
Qed.

Lemma str_app_inv_l x a b : x +:+ a = x +:+ b -> a = b.
Proof. induction x as [|c x IH]; [done|]. rewrite !str_app_cons. intros [= H]. by apply IH. Qed.

Lemma str_app_inv_r a b x : a +:+ x = b +:+ x -> a = b.
Proof.
  revert b; induction a as [|c a IH]; intros [|c' b] H; try done.
  - apply (f_equal String.length) in H. rewrite str_app_cons, str_app_nil in H.
    simpl in H. rewrite str_app_length in H. lia.
  - apply (f_equal String.length) in H. rewrite str_app_cons, str_app_nil in H.
    simpl in H. rewrite str_app_length in H. lia.
  - rewrite !str_app_cons in H. injection H as -> H. f_equal. by apply IH.
Qed.

(** Tactic: take apart a successful [rbind] chain in a hypothesis. *)
Ltac res_inv :=
  repeat match goal with
  | H : rbind ?m _ = Ok _ |- _ =>
      let a := fresh "a" in let Ha := fresh "Hm" in let Hk := fresh "Hk" in
      apply rbind_ok in H as (a & Ha & Hk)
  | H : Ok _ = Ok _ |- _ => injection H as H
  | H : Raise _ = Ok _ |- _ => discriminate H
  end.
