(* ===== verification/PyDict.v ===== *)
(** * Python dictionaries

    A Python [dict] keeps its keys in insertion order, and assigning to a
    key it already has keeps the key's position.  The model is the list of
    its items; [dict_to_map] forgets the order, and the refinement lemmas
    say that lookups and assignments are those of the finite map [gmap]. *)

From S2P Require Import Prelude.

Section Dict.
Context {K V : Type} `{EqDecision K} `{Countable K}.

  (** [d.get(k)] *)
Fixpoint dict_get (d : list (K * V)) (k : K) : option V :=
    match d with
    | [] => None
    | (k', v) :: r => if decide (k = k') then Some v else dict_get r k
    end.

  (** [d[k] = v] *)
Fixpoint dict_set (d : list (K * V)) (k : K) (v : V) : list (K * V) :=
    match d with
    | [] => [(k, v)]
    | (k', v') :: r => if decide (k = k') then (k, v) :: r else (k', v') :: dict_set r k v
    end.

Definition dict_keys (d : list (K * V)) : list K := map fst d.

  (** The values in iteration order ([for k in d: yield d[k]]). *)
Definition dict_values (d : list (K * V)) : list V := map snd d.

Definition dict_wf (d : list (K * V)) : Prop := NoDup (dict_keys d).

Definition dict_to_map (d : list (K * V)) : gmap K V := list_to_map d.

Lemma dict_get_set d k v k' :
    dict_get (dict_set d k v) k' = if decide (k' = k) then Some v else dict_get d k'.
  Proof.
    induction d as [|[k1 v1] d IH]; simpl; [done|].
    destruct (decide (k = k1)) as [->|Hne]; simpl.
    - by destruct (decide (k' = k1)).
    - rewrite IH. destruct (decide (k' = k1)), (decide (k' = k)); congruence.
  Qed.

Lemma dict_to_map_lookup d k : dict_to_map d !! k = dict_get d k.
  Proof.
    unfold dict_to_map. induction d as [|[k1 v1] d IH]; simpl; [apply lookup_empty|].
    rewrite lookup_insert. destruct (decide (k1 = k)), (decide (k = k1)); congruence.
  Qed.

  (** Refinement: assigning a key of the dict is inserting into the map. *)
Lemma dict_to_map_set d k v : dict_to_map (dict_set d k v) = <[k:=v]> (dict_to_map d).
  Proof.
    apply map_eq. intros k'. rewrite dict_to_map_lookup, dict_get_set, lookup_insert,
      dict_to_map_lookup. destruct (decide (k' = k)), (decide (k = k')); congruence.
  Qed.

Lemma elem_of_dict_keys d k : k ∈ dict_keys d <-> is_Some (dict_get d k).
  Proof.
    induction d as [|[k1 v1] d IH]; simpl; [split; [set_solver | by intros []]|].
    rewrite elem_of_cons, IH. destruct (decide (k = k1)); naive_solver.
  Qed.

  (** Insertion order: a new key goes last, an old key keeps its place. *)
Lemma dict_keys_set d k v :
    dict_keys (dict_set d k v) = if decide (k ∈ dict_keys d) then dict_keys d else dict_keys d ++ [k].
  Proof.
    induction d as [|[k1 v1] d IH]; simpl; [done|].
    destruct (decide (k = k1)) as [->|Hne]; simpl.
    - rewrite decide_True by set_solver. done.
    - rewrite IH. destruct (decide (k ∈ dict_keys d)).
      + rewrite decide_True by set_solver. done.
      + rewrite decide_False by set_solver. done.
  Qed.

(** Assigning a key the dict does not have appends it. *)
Lemma dict_set_fresh d k v : k ∉ dict_keys d -> dict_set d k v = d ++ [(k, v)].
Proof.
  induction d as [|[k1 v1] d IH]; simpl; [done|]. intros Hk.
  rewrite decide_False by set_solver. rewrite IH by set_solver. done.
Qed.

Lemma dict_set_wf d k v : dict_wf d -> dict_wf (dict_set d k v).
  Proof.
    unfold dict_wf. rewrite dict_keys_set. case_decide; [done|].
    intros Hd. apply NoDup_app. split_and!; [done| |apply NoDup_singleton]. set_solver.
  Qed.

Lemma elem_of_dict_values d v : v ∈ dict_values d -> exists k, k ∈ dict_keys d /\ (k, v) ∈ d.
  Proof.
    unfold dict_values, dict_keys. intros ([k v'] & -> & Hin)%list_elem_of_fmap.
    exists k. split; [apply list_elem_of_fmap; by exists (k, v') | done].
  Qed.

Lemma dict_get_elem_of d k v : dict_get d k = Some v -> (k, v) ∈ d.
  Proof.
    induction d as [|[k1 v1] d IH]; simpl; [done|].
    destruct (decide (k = k1)) as [->|]; [intros [= ->]; set_solver|]. set_solver.
  Qed.

Lemma elem_of_dict_get d k v : dict_wf d -> (k, v) ∈ d -> dict_get d k = Some v.
  Proof.
    unfold dict_wf, dict_keys. induction d as [|[k1 v1] d IH]; simpl; [set_solver|].
    intros [Hk Hd]%NoDup_cons [[= -> ->] | Hin]%elem_of_cons.
    - by rewrite decide_True.
    - rewrite decide_False; [by apply IH|]. intros ->. apply Hk.
      apply list_elem_of_fmap. by exists (k1, v).
  Qed.
Lemma dict_values_set d k v x :
    dict_wf d -> x ∈ dict_values (dict_set d k v) ->
    x = v \/ exists k', k' <> k /\ dict_get d k' = Some x.
  Proof.
    intros Hwf Hx. apply elem_of_dict_values in Hx as (k' & _ & Hin).
    apply elem_of_dict_get in Hin; [|by apply dict_set_wf].
    rewrite dict_get_set in Hin. case_decide; [left; congruence | right; eauto].
  Qed.
End Dict.

#[export] Hint Resolve dict_set_wf : pydb.
