(* ===== verification/Json.v ===== *)
(** * The [json] module, as [corpus.py] calls it

    [Document.json] (line 229) prints with
    [json.dumps(doc, indent=2, sort_keys=True, ensure_ascii=False)];
    [Document.__init__] (line 132) and the BioC branch of [Corpus.__init__]
    (line 39) read with [json.load].  This file models both from CPython's
    [Lib/json] (the encoder's [_make_iterencode] and [py_encode_basestring],
    the C scanner [_json.c]); it is a model of a library the code calls, so
    its definitions are not mapped to lines of [src/].

    Text is a string of bytes: the UTF-8 encoding of the text Python sees.
    Bytes of code 128 and above only ever occur inside JSON strings, where
    both the encoder ([ensure_ascii=False]) and the decoder copy them, so
    working on bytes agrees with Python on UTF-8 text.  A float is kept as
    its literal ([JFloat]); the printer writes the literal back, where
    Python writes [repr(float(lit))]. *)

From Stdlib Require Import DecimalN DecimalFacts.
From S2P Require Import Prelude PyDict.

(** ** Values *)

#[local] Set Warnings "-register-all -abstract-large-number".

Inductive json : Type :=
  | JNull
  | JBool (b : bool)
  | JInt (z : Z)
  | JFloat (lit : string)
  | JStr (s : string)
  | JArr (l : list json)
  | JObj (l : list (string * json)).

(** Induction through the lists of an array or an object. *)
Section JsonInd.
Variable P : json -> Prop.
Hypothesis HNull : P JNull.
Hypothesis HBool : forall b, P (JBool b).
Hypothesis HInt : forall z, P (JInt z).
Hypothesis HFloat : forall lit, P (JFloat lit).
Hypothesis HStr : forall s, P (JStr s).
Hypothesis HArr : forall l, Forall P l -> P (JArr l).
Hypothesis HObj : forall l, Forall (fun kv => P kv.2) l -> P (JObj l).

Fixpoint json_ind' (v : json) : P v :=
  match v with
  | JNull => HNull
  | JBool b => HBool b
  | JInt z => HInt z
  | JFloat lit => HFloat lit
  | JStr s => HStr s
  | JArr l =>
      HArr l ((fix go (l : list json) : Forall P l :=
                 match l with
                 | [] => Forall_nil_2 _
                 | x :: r => Forall_cons_2 _ _ _ (json_ind' x) (go r)
                 end) l)
  | JObj l =>
      HObj l ((fix go (l : list (string * json)) : Forall (fun kv => P kv.2) l :=
                 match l with
                 | [] => Forall_nil_2 _
                 | (k, x) :: r => Forall_cons_2 _ (k, x) _ (json_ind' x) (go r)
                 end) l)
  end.
End JsonInd.

(** A value a Python [dict] can stand for: the keys of every object are
    distinct; floats are left out of the round trip (see the header). *)
Fixpoint json_wf (v : json) : bool :=
  match v with
  | JFloat _ => false
  | JArr l => forallb json_wf l
  | JObj l => bool_decide (NoDup (map fst l)) && forallb (fun kv => json_wf kv.2) l
  | _ => true
  end.

(** ** Sorting the members of an object by key *)

(** [sorted(dct.items())] compares the pairs; the keys of a dict are
    distinct, so only the keys are ever compared. *)
Definition key_le {B} (a b : string * B) : Prop := str_le a.1 b.1.

#[export] Instance key_le_dec {B} : RelDecision (@key_le B).
Proof. intros a b. unfold key_le. apply _. Defined.

(** The value the decoder gives back for [json.dumps(v, sort_keys=True)]. *)
Fixpoint json_sort (v : json) : json :=
  match v with
  | JArr l => JArr (map json_sort l)
  | JObj l => JObj (merge_sort key_le (map (fun '(k, x) => (k, json_sort x)) l))
  | v => v
  end.

(** ** The encoder *)

Definition DQ : ascii := "034"%char.
Definition BSL : ascii := "092"%char.
Definition str1 (c : ascii) : string := String c EmptyString.

Definition hexdig (n : nat) : ascii :=
  ascii_of_nat (if n <? 10 then 48 + n else 87 + n).

(** [ESCAPE_DCT] of [json.encoder]: the quote, the backslash, the five
    named controls, and [\u00XX] (lower-case hex) for the other controls. *)
Definition esc_char (c : ascii) : string :=
  let n := code c in
  if n =? 34 then String BSL (str1 DQ)
  else if n =? 92 then String BSL (str1 BSL)
  else if n =? 8 then String BSL "b"
  else if n =? 12 then String BSL "f"
  else if n =? 10 then String BSL "n"
  else if n =? 13 then String BSL "r"
  else if n =? 9 then String BSL "t"
  else if n <? 32 then String BSL ("u00" +:+ String (hexdig (n / 16)) (str1 (hexdig (n mod 16))))
  else str1 c.

Fixpoint esc (s : string) : string :=
  match s with
  | EmptyString => EmptyString
  | String c r => esc_char c +:+ esc r
  end.

(** [py_encode_basestring]: the string between double quotes. *)
Definition py_quote (s : string) : string := String DQ (esc s +:+ str1 DQ).

(** [int.__repr__]: the sign, then the decimal digits without leading
    zeros ([N.to_uint]). *)
Fixpoint uint_str (d : Decimal.uint) : string :=
  match d with
  | Decimal.Nil => ""
  | Decimal.D0 r => String "0" (uint_str r)
  | Decimal.D1 r => String "1" (uint_str r)
  | Decimal.D2 r => String "2" (uint_str r)
  | Decimal.D3 r => String "3" (uint_str r)
  | Decimal.D4 r => String "4" (uint_str r)
  | Decimal.D5 r => String "5" (uint_str r)
  | Decimal.D6 r => String "6" (uint_str r)
  | Decimal.D7 r => String "7" (uint_str r)
  | Decimal.D8 r => String "8" (uint_str r)
  | Decimal.D9 r => String "9" (uint_str r)
  end.

Definition int_repr (z : Z) : string :=
  match z with
  | Z0 => "0"
  | Zpos p => uint_str (N.to_uint (Npos p))
  | Zneg p => String "-" (uint_str (N.to_uint (Npos p)))
  end.

(** [' ' * (2 * lvl)] *)
Fixpoint indent (lvl : nat) : string :=
  match lvl with
  | O => ""
  | S l => String " " (String " " (indent l))
  end.

(** The items of a non-empty array or object at depth [lvl]: each on a
    line of its own, separated by [','] ([item_separator] is [','] when
    [indent] is given). *)
Definition items (lvl : nat) (ss : list string) : string :=
  py_join "," (map (fun s => NL +:+ indent lvl +:+ s) ss).

(** [_iterencode] with [indent=2] and [sort_keys=True]: the members of an
    object are printed, then ordered by key. *)
Fixpoint dumps_at (lvl : nat) (v : json) : string :=
  match v with
  | JNull => "null"
  | JBool true => "true"
  | JBool false => "false"
  | JInt z => int_repr z
  | JFloat lit => lit
  | JStr s => py_quote s
  | JArr [] => "[]"
  | JArr l => "[" +:+ items (S lvl) (map (dumps_at (S lvl)) l) +:+ NL +:+ indent lvl +:+ "]"
  | JObj [] => "{}"
  | JObj l =>
      "{" +:+ items (S lvl)
        (map snd (merge_sort key_le
           (map (fun '(k, x) => (k, py_quote k +:+ ": " +:+ dumps_at (S lvl) x)) l)))
      +:+ NL +:+ indent lvl +:+ "}"
  end.

Definition dumps (v : json) : string := dumps_at 0 v.

(** ** The decoder *)

(** [WHITESPACE] of [json.decoder]: space, tab, newline, carriage return. *)
Definition is_json_ws (c : ascii) : bool :=
  (code c =? 32) || (code c =? 9) || (code c =? 10) || (code c =? 13).

Fixpoint skip_ws (s : string) : string :=
  match s with
  | String c r => if is_json_ws c then skip_ws r else s
  | EmptyString => EmptyString
  end.

Definition hex_val (c : ascii) : option N :=
  let n := N_of_ascii c in
  if (48 <=? n)%N && (n <=? 57)%N then Some (n - 48)%N
  else if (97 <=? n)%N && (n <=? 102)%N then Some (n - 87)%N
  else if (65 <=? n)%N && (n <=? 70)%N then Some (n - 55)%N
  else None.

Definition hex4 (a b c d : ascii) : option N :=
  match hex_val a, hex_val b, hex_val c, hex_val d with
  | Some w, Some x, Some y, Some z => Some (((w * 16 + x) * 16 + y) * 16 + z)%N
  | _, _, _, _ => None
  end.

(** The UTF-8 bytes of a code point.  A lone surrogate, which a Python
    [str] can hold but UTF-8 cannot encode, gets the three bytes of its
    code. *)
Definition utf8 (cp : N) : string :=
  let b k := ascii_of_N k in
  if (cp <? 128)%N then str1 (b cp)
  else if (cp <? 2048)%N then
    String (b (192 + cp / 64)%N) (str1 (b (128 + cp mod 64)%N))
  else if (cp <? 65536)%N then
    String (b (224 + cp / 4096)%N)
      (String (b (128 + (cp / 64) mod 64)%N) (str1 (b (128 + cp mod 64)%N)))
  else
    String (b (240 + cp / 262144)%N)
      (String (b (128 + (cp / 4096) mod 64)%N)
        (String (b (128 + (cp / 64) mod 64)%N) (str1 (b (128 + cp mod 64)%N)))).

Definition is_high_surrogate (n : N) : bool := (55296 <=? n)%N && (n <=? 56319)%N.
Definition is_low_surrogate (n : N) : bool := (56320 <=? n)%N && (n <=? 57343)%N.

(** The character a one-letter escape stands for. *)
Definition simple_escape (c : ascii) : option ascii :=
  match code c with
  | 34 => Some DQ
  | 92 => Some BSL
  | 47 => Some "/"%char
  | 98 => Some "008"%char
  | 102 => Some "012"%char
  | 110 => Some "010"%char
  | 114 => Some "013"%char
  | 116 => Some "009"%char
  | _ => None
  end.

(** [scanstring_unicode] with [strict=True], after the opening quote: the
    decoded string and what follows the closing quote.  A control
    character, an unknown escape, a bad [\uXXXX] or a missing closing quote
    raise [JSONDecodeError], a [ValueError].  A high surrogate followed by
    the escape of a low one is joined with it. *)
Fixpoint scan_str (s : string) : Res (string * string) :=
  match s with
  | EmptyString => Raise ValueError
  | String c r =>
      if code c =? 34 then Ok (EmptyString, r)
      else if code c =? 92 then
        match r with
        | String "u" (String h1 (String h2 (String h3 (String h4 r')))) =>
            match hex4 h1 h2 h3 h4 with
            | None => Raise ValueError
            | Some cp =>
                let single := (p <- scan_str r' ;; Ok (utf8 cp +:+ p.1, p.2)) in
                if is_high_surrogate cp then
                  match r' with
                  | String b (String "u" (String g1 (String g2 (String g3 (String g4 r''))))) =>
                      if code b =? 92 then
                        match hex4 g1 g2 g3 g4 with
                        | None => Raise ValueError
                        | Some lo =>
                            if is_low_surrogate lo then
                              (p <- scan_str r'' ;;
                               Ok (utf8 (65536 + (cp - 55296) * 1024 + (lo - 56320))%N +:+ p.1, p.2))
                            else single
                        end
                      else single
                  | _ => single
                  end
                else single
            end
        | String e r' =>
            match simple_escape e with
            | Some c' => p <- scan_str r' ;; Ok (String c' p.1, p.2)
            | None => Raise ValueError
            end
        | EmptyString => Raise ValueError
        end
      else if code c <? 32 then Raise ValueError
      else p <- scan_str r ;; Ok (String c p.1, p.2)
  end.

(** The longest prefix of decimal digits, and the rest. *)
Fixpoint span_digits (s : string) : string * string :=
  match s with
  | String c r =>
      if is_digit c then let '(d, r') := span_digits r in (String c d, r') else (EmptyString, s)
  | EmptyString => (EmptyString, EmptyString)
  end.

Fixpoint str_uint (s : string) : Decimal.uint :=
  match s with
  | EmptyString => Decimal.Nil
  | String c r =>
      match code c with
      | 48 => Decimal.D0 (str_uint r) | 49 => Decimal.D1 (str_uint r)
      | 50 => Decimal.D2 (str_uint r) | 51 => Decimal.D3 (str_uint r)
      | 52 => Decimal.D4 (str_uint r) | 53 => Decimal.D5 (str_uint r)
      | 54 => Decimal.D6 (str_uint r) | 55 => Decimal.D7 (str_uint r)
      | 56 => Decimal.D8 (str_uint r) | _ => Decimal.D9 (str_uint r)
      end
  end.

(** [int(digits)] *)
Definition digits_val (d : string) : N := N.of_uint (str_uint d).

(** The integer part of [NUMBER_RE]: a single [0], or a digit from 1 to 9
    followed by any digits; its digits and the rest. *)
Definition int_part (s : string) : option (string * string) :=
  match s with
  | String c r =>
      if code c =? 48 then Some (str1 c, r)
      else if is_digit c then let '(d, r') := span_digits r in Some (String c d, r')
      else None
  | EmptyString => None
  end.

(** The optional fraction [(\.\d+)?] and exponent [([eE][-+]?\d+)?]. *)
Definition frac_part (s : string) : string * string :=
  match s with
  | String c r =>
      if code c =? 46 then
        match span_digits r with
        | (String d ds, r') => (String c (String d ds), r')
        | (EmptyString, _) => (EmptyString, s)
        end
      else (EmptyString, s)
  | EmptyString => (EmptyString, s)
  end.

Definition exp_digits (pre : string) (r : string) (s : string) : string * string :=
  match span_digits r with
  | (String d ds, r') => (pre +:+ String d ds, r')
  | (EmptyString, _) => (EmptyString, s)
  end.

Definition exp_part (s : string) : string * string :=
  match s with
  | String e r =>
      if (code e =? 101) || (code e =? 69) then
        match r with
        | String sg r' =>
            if (code sg =? 43) || (code sg =? 45) then exp_digits (String e (str1 sg)) r' s
            else exp_digits (str1 e) r s
        | EmptyString => (EmptyString, s)
        end
      else (EmptyString, s)
  | EmptyString => (EmptyString, s)
  end.

(** [_match_number_unicode]: an [int] when there is neither fraction nor
    exponent, a [float] otherwise. *)
Definition sign_part (s : string) : bool * string :=
  match s with
  | String c r => if code c =? 45 then (true, r) else (false, s)
  | EmptyString => (false, s)
  end.

Definition scan_number (s : string) : option (json * string) :=
  let '(neg, s1) := sign_part s in
  match int_part s1 with
  | None => None
  | Some (ip, r1) =>
      let '(fr, r2) := frac_part r1 in
      let '(ex, r3) := exp_part r2 in
      match fr, ex with
      | EmptyString, EmptyString =>
          let n := Z.of_N (digits_val ip) in
          Some (JInt (if neg then Z.opp n else n), r3)
      | _, _ => Some (JFloat ((if neg then "-" else "") +:+ ip +:+ fr +:+ ex), r3)
      end
  end.

(** [s] without the prefix [p], if [s] starts with [p]. *)
Fixpoint strip_prefix (p s : string) : option string :=
  match p with
  | EmptyString => Some s
  | String a p' =>
      match s with
      | String b s' => if Ascii.eqb a b then strip_prefix p' s' else None
      | EmptyString => None
      end
  end.

(** The constants and numbers of [scan_once_unicode], tried in its order:
    [null], [true], [false], then [NaN], [Infinity] and [-Infinity], then a
    number; anything else is [Expecting value]. *)
Definition scan_atom (s : string) : Res (json * string) :=
  match strip_prefix "null" s, strip_prefix "true" s, strip_prefix "false" s,
        strip_prefix "NaN" s, strip_prefix "Infinity" s, strip_prefix "-Infinity" s with
  | Some r, _, _, _, _, _ => Ok (JNull, r)
  | None, Some r, _, _, _, _ => Ok (JBool true, r)
  | None, None, Some r, _, _, _ => Ok (JBool false, r)
  | None, None, None, Some r, _, _ => Ok (JFloat "NaN", r)
  | None, None, None, None, Some r, _ => Ok (JFloat "Infinity", r)
  | None, None, None, None, None, Some r => Ok (JFloat "-Infinity", r)
  | None, None, None, None, None, None =>
      match scan_number s with
      | Some p => Ok p
      | None => Raise ValueError
      end
  end.

Definition str_tail (s : string) : string :=
  match s with
  | String _ r => r
  | EmptyString => EmptyString
  end.

(** The recursive descent of [scan_once_unicode], [_parse_array_unicode]
    and [_parse_object_unicode] runs on fuel: [None] means that the fuel
    ran out, which [parse_value_total] shows never happens with the fuel
    [loads] gives. *)
Definition PR (A : Type) : Type := option (Res A).

Definition pbind {A B} (m : PR A) (k : A -> PR B) : PR B :=
  match m with
  | None => None
  | Some (Raise e) => Some (Raise e)
  | Some (Ok a) => k a
  end.

Notation "x <-? m ;; k" := (pbind m (fun x => k))
  (at level 100, m at next level, right associativity) : py_scope.

Definition pfail {A} : PR A := Some (Raise ValueError).

(** [c] is the character of code [n]. *)
Definition is_code (n : nat) (s : string) : bool :=
  match s with
  | String c _ => code c =? n
  | EmptyString => false
  end.

Fixpoint parse_value (fuel : nat) (s : string) : PR (json * string) :=
  match fuel with
  | O => None
  | S n =>
      match s with
      | EmptyString => pfail
      | String c r =>
          if code c =? 34 then Some (p <- scan_str r ;; Ok (JStr p.1, p.2))
          else if code c =? 123 then
            let r' := skip_ws r in
            if is_code 125 r' then Some (Ok (JObj [], str_tail r'))
            else parse_members n r' []
          else if code c =? 91 then
            let r' := skip_ws r in
            if is_code 93 r' then Some (Ok (JArr [], str_tail r'))
            else if String.eqb r' "" then pfail
            else parse_elems n r' []
          else Some (scan_atom s)
      end
  end

(** The items of an array after its [[], [acc] those read so far. *)
with parse_elems (fuel : nat) (s : string) (acc : list json) : PR (json * string) :=
  match fuel with
  | O => None
  | S n =>
      p <-? parse_value n s ;;
      match skip_ws p.2 with
      | String c r =>
          if code c =? 93 then Some (Ok (JArr (acc ++ [p.1]), r))
          else if code c =? 44 then parse_elems n (skip_ws r) (acc ++ [p.1])
          else pfail
      | EmptyString => pfail
      end
  end

(** The members of an object after its [{]; each is stored as
    [PyDict_SetItem] does, so a repeated key keeps its first place and
    takes the last value. *)
with parse_members (fuel : nat) (s : string) (acc : list (string * json)) : PR (json * string) :=
  match fuel with
  | O => None
  | S n =>
      match s with
      | String c r =>
          if code c =? 34 then
            kp <-? Some (scan_str r) ;;
            match skip_ws kp.2 with
            | String c2 r2 =>
                if code c2 =? 58 then
                  p <-? parse_value n (skip_ws r2) ;;
                  let acc' := dict_set acc kp.1 p.1 in
                  match skip_ws p.2 with
                  | String c4 r4 =>
                      if code c4 =? 125 then Some (Ok (JObj acc', r4))
                      else if code c4 =? 44 then parse_members n (skip_ws r4) acc'
                      else pfail
                  | EmptyString => pfail
                  end
                else pfail
            | EmptyString => pfail
            end
          else pfail
      | EmptyString => pfail
      end
  end.

(** A UTF-8 byte order mark at the start: [json.loads] refuses it. *)
Definition has_bom (s : string) : bool :=
  String.prefix (String "239"%char (String "187"%char (str1 "191"%char))) s.

(** [json.loads(s)] ([json.load(fp)] is [json.loads(fp.read())]):
    whitespace around one value and nothing else, otherwise
    [JSONDecodeError], a [ValueError]. *)
Definition loads (s : string) : Res json :=
  if has_bom s then Raise ValueError
  else
    let s0 := skip_ws s in
    match parse_value (2 * String.length s0 + 1) s0 with
    | Some (Ok (v, r)) => if String.eqb (skip_ws r) "" then Ok v else Raise ValueError
    | Some (Raise e) => Raise e
    | None => Raise ValueError
    end.

(** ** The decoder: fuel and termination *)

Lemma pbind_mono {A B} (m1 m2 : PR A) (k1 k2 : A -> PR B) r :
  (forall x, m1 = Some x -> m2 = Some x) -> (forall a y, k1 a = Some y -> k2 a = Some y) ->
  pbind m1 k1 = Some r -> pbind m2 k2 = Some r.
Proof.
  intros Hm Hk. destruct m1 as [[a|e]|]; simpl; try discriminate;
    rewrite (Hm _ eq_refl); simpl; auto.
Qed.

Lemma pbind_total {A B} (m : PR A) (k : A -> PR B) :
  m <> None -> (forall a, m = Some (Ok a) -> k a <> None) -> pbind m k <> None.
Proof. destruct m as [[a|e]|]; simpl; auto; discriminate. Qed.

Lemma pbind_ok {A B} (m : PR A) (k : A -> PR B) b :
  pbind m k = Some (Ok b) -> exists a, m = Some (Ok a) /\ k a = Some (Ok b).
Proof. destruct m as [[a|e]|]; simpl; eauto; discriminate. Qed.

(** More fuel gives the same answer. *)
Lemma parse_mono n : forall m, n <= m ->
  (forall s x, parse_value n s = Some x -> parse_value m s = Some x) /\
  (forall s acc x, parse_elems n s acc = Some x -> parse_elems m s acc = Some x) /\
  (forall s acc x, parse_members n s acc = Some x -> parse_members m s acc = Some x).
Proof.
  induction n as [|n IH]; intros [|m] Hm; try (split_and!; discriminate); [lia|].
  destruct (IH m ltac:(lia)) as (IHv & IHe & IHm). split_and!.
  - intros [|c r] x; simpl; [done|].
    destruct (code c =? 34); [done|]. destruct (code c =? 123).
    { destruct (is_code 125 (skip_ws r)); [done | apply IHm]. }
    destruct (code c =? 91); [|done].
    destruct (is_code 93 (skip_ws r)); [done|]. destruct (String.eqb _ _); [done | apply IHe].
  - intros s acc x. simpl. apply pbind_mono; [apply IHv|].
    intros [v r] y; simpl. destruct (skip_ws r) as [|c r']; [done|].
    destruct (code c =? 93); [done|]. destruct (code c =? 44); [apply IHe | done].
  - intros [|c r] acc x; simpl; [done|]. destruct (code c =? 34); [|done].
    destruct (scan_str r) as [[k r1]|e]; simpl; [|done].
    destruct (skip_ws r1) as [|c2 r2]; [done|]. destruct (code c2 =? 58); [|done].
    apply pbind_mono; [apply IHv|]. intros [v r3] z; simpl.
    destruct (skip_ws r3) as [|c4 r4]; [done|].
    destruct (code c4 =? 125); [done|]. destruct (code c4 =? 44); [apply IHm | done].
Qed.

Lemma skip_ws_length s : String.length (skip_ws s) <= String.length s.
Proof. induction s as [|c s IH]; simpl; [done|]. destruct (is_json_ws c); simpl; lia. Qed.

Lemma strip_prefix_length p s r :
  strip_prefix p s = Some r -> String.length r + String.length p = String.length s.
Proof.
  revert s; induction p as [|a p IH]; intros [|b s]; simpl; intros H; simplify_eq/=; try lia.
  destruct (Ascii.eqb a b); [|done]. apply IH in H. lia.
Qed.

Lemma span_digits_length s : String.length (span_digits s).2 <= String.length s.
Proof.
  induction s as [|c s IH]; simpl; [done|].
  destruct (is_digit c); [|simpl; lia]. destruct (span_digits s) as [d r]; simpl in *; lia.
Qed.

Lemma sign_part_length s : String.length (sign_part s).2 <= String.length s.
Proof. destruct s as [|c s]; simpl; [done|]. destruct (code c =? 45); simpl; lia. Qed.

Lemma int_part_length s ip r : int_part s = Some (ip, r) -> String.length r < String.length s.
Proof.
  destruct s as [|c s]; simpl; [done|]. destruct (code c =? 48); [intros [= _ <-]; lia|].
  destruct (is_digit c); [|done]. pose proof (span_digits_length s).
  destruct (span_digits s); intros [= _ <-]; simpl in *; lia.
Qed.

Lemma frac_part_length s : String.length (frac_part s).2 <= String.length s.
Proof.
  unfold frac_part. repeat case_match; simplify_eq/=; try lia.
  match goal with H : span_digits ?x = _ |- _ =>
    pose proof (span_digits_length x) as L; rewrite H in L; simpl in L; lia end.
Qed.

Lemma exp_part_length s : String.length (exp_part s).2 <= String.length s.
Proof.
  assert (Hd : forall pre r t, String.length r < String.length t ->
            String.length (exp_digits pre r t).2 <= String.length t).
  { intros pre r t Hr. unfold exp_digits. pose proof (span_digits_length r).
    destruct (span_digits r) as [[|d ds] r']; simpl in *; lia. }
  destruct s as [|e r]; simpl; [lia|]. destruct (_ || _); simpl; [|lia].
  destruct r as [|sg r']; simpl; [lia|]. destruct (_ || _); apply Hd; simpl; lia.
Qed.

Lemma scan_number_length s v r :
  scan_number s = Some (v, r) -> String.length r < String.length s.
Proof.
  unfold scan_number. pose proof (sign_part_length s).
  destruct (sign_part s) as [neg s1]. destruct (int_part s1) as [[ip r1]|] eqn:Ei; [|done].
  apply int_part_length in Ei. pose proof (frac_part_length r1).
  destruct (frac_part r1) as [fr r2]. pose proof (exp_part_length r2).
  destruct (exp_part r2) as [ex r3]. simpl in *.
  destruct fr, ex; intros [= _ <-]; lia.
Qed.

Lemma scan_str_length s x r : scan_str s = Ok (x, r) -> String.length r < String.length s.
Proof.
  revert x r.
  induction s as [s IH] using (Wf_nat.induction_ltof1 _ String.length).
  unfold Wf_nat.ltof in IH. intros x r. destruct s as [|c t]; [discriminate|].
  cbn [scan_str]. repeat case_match; intros Hr; simplify_eq;
    try (cbn [String.length]; lia);
    apply rbind_ok in Hr as ([x' r'] & Hs & Hk); simplify_eq;
    apply IH in Hs; cbn [String.length] in *; lia.
Qed.

Lemma scan_atom_length s v r : scan_atom s = Ok (v, r) -> String.length r < String.length s.
Proof.
  unfold scan_atom. repeat case_match; intros Hr; simplify_eq;
    try (match goal with Hp : strip_prefix ?p _ = Some _ |- _ =>
           apply strip_prefix_length in Hp; cbn [String.length] in Hp; lia end).
  eapply scan_number_length; eauto.
Qed.

Lemma str_tail_length s : is_code 125 s || is_code 93 s = true ->
  String.length (str_tail s) < String.length s.
Proof. destruct s; simpl; [done | lia]. Qed.

(** What a value, the rest of an array or the rest of an object is read
    from is strictly longer than what follows it. *)
Lemma parse_rest n :
  (forall s v r, parse_value n s = Some (Ok (v, r)) -> String.length r < String.length s) /\
  (forall s acc v r, parse_elems n s acc = Some (Ok (v, r)) -> String.length r < String.length s) /\
  (forall s acc v r, parse_members n s acc = Some (Ok (v, r)) -> String.length r < String.length s).
Proof.
  induction n as [|n (IHv & IHe & IHm)]; [split_and!; discriminate|]. split_and!.
  - intros [|c t] v r; simpl; [done|]. pose proof (skip_ws_length t) as Hws.
    destruct (code c =? 34).
    { intros [= H]. apply rbind_ok in H as ([x r'] & Hs & [= _ <-]). apply scan_str_length in Hs. lia. }
    destruct (code c =? 123).
    { destruct (is_code 125 (skip_ws t)) eqn:Hc.
      - intros [= _ <-]. assert (Hl := str_tail_length (skip_ws t)). rewrite Hc in Hl.
        specialize (Hl eq_refl). lia.
      - intros H. apply IHm in H. lia. }
    destruct (code c =? 91).
    { destruct (is_code 93 (skip_ws t)) eqn:Hc.
      - intros [= _ <-]. assert (Hl := str_tail_length (skip_ws t)). rewrite Hc, orb_true_r in Hl.
        specialize (Hl eq_refl). lia.
      - destruct (String.eqb _ _); [done|]. intros H. apply IHe in H. lia. }
    intros [= H]. apply scan_atom_length in H. simpl in H. lia.
  - intros s acc v r H. simpl in H. apply pbind_ok in H as ([x r1] & Hv & H).
    apply IHv in Hv. simpl in H. pose proof (skip_ws_length r1).
    destruct (skip_ws r1) as [|c r2]; [done|]. simpl in *.
    destruct (code c =? 93); [injection H as _ <-; lia|].
    destruct (code c =? 44); [|done]. apply IHe in H. pose proof (skip_ws_length r2). lia.
  - intros [|c t] acc v r H; simpl in H; [done|]. destruct (code c =? 34); [|done].
    destruct (scan_str t) as [[k r1]|e] eqn:Hs; simpl in H; [|done].
    apply scan_str_length in Hs. pose proof (skip_ws_length r1).
    destruct (skip_ws r1) as [|c2 r2]; [done|]. destruct (code c2 =? 58); [|done].
    apply pbind_ok in H as ([x r3] & Hv & H). apply IHv in Hv. simpl in *.
    pose proof (skip_ws_length r2). pose proof (skip_ws_length r3).
    destruct (skip_ws r3) as [|c4 r4]; [done|]. simpl in *.
    destruct (code c4 =? 125); [injection H as _ <-; lia|].
    destruct (code c4 =? 44); [|done]. apply IHm in H. pose proof (skip_ws_length r4). lia.
Qed.

(** With fuel over twice the length of the input the descent always ends. *)
Lemma parse_total n :
  (forall s, 2 * String.length s < n -> parse_value n s <> None) /\
  (forall s acc, 2 * String.length s + 1 < n -> parse_elems n s acc <> None) /\
  (forall s acc, 2 * String.length s + 1 < n -> parse_members n s acc <> None).
Proof.
  induction n as [|n (IHv & IHe & IHm)]; [split_and!; intros; lia|].
  destruct (parse_rest n) as (Rv & _ & _). split_and!.
  - intros [|c t] Hn; simpl; [done|]. pose proof (skip_ws_length t). simpl in Hn.
    destruct (code c =? 34); [done|]. destruct (code c =? 123).
    { destruct (is_code 125 _); [done|]. apply IHm. lia. }
    destruct (code c =? 91); [|done].
    destruct (is_code 93 _); [done|]. destruct (String.eqb _ _); [done|]. apply IHe. lia.
  - intros s acc Hn. simpl. apply pbind_total; [apply IHv; lia|].
    intros [v r] Hv. apply Rv in Hv. simpl. pose proof (skip_ws_length r).
    destruct (skip_ws r) as [|c r2]; [done|]. simpl in *.
    destruct (code c =? 93); [done|]. destruct (code c =? 44); [|done].
    apply IHe. pose proof (skip_ws_length r2). lia.
  - intros [|c t] acc Hn; simpl; [done|]. simpl in Hn. destruct (code c =? 34); [|done].
    destruct (scan_str t) as [[k r1]|e] eqn:Hs; simpl; [|done].
    apply scan_str_length in Hs. pose proof (skip_ws_length r1).
    destruct (skip_ws r1) as [|c2 r2]; [done|]. destruct (code c2 =? 58); [|done].
    simpl in *. pose proof (skip_ws_length r2).
    apply pbind_total; [apply IHv; lia|]. intros [v r3] Hv. apply Rv in Hv. simpl.
    pose proof (skip_ws_length r3).
    destruct (skip_ws r3) as [|c4 r4]; [done|]. simpl in *.
    destruct (code c4 =? 125); [done|]. destruct (code c4 =? 44); [|done].
    apply IHm. pose proof (skip_ws_length r4). lia.
Qed.

(** ** The round trip: [json.loads(json.dumps(v))] *)

Lemma strip_prefix_app p t : strip_prefix p (p +:+ t) = Some t.
Proof. induction p as [|a p IH]; simpl; [done|]. by rewrite Ascii.eqb_refl. Qed.

Lemma skip_ws_indent k t : skip_ws (indent k +:+ t) = skip_ws t.
Proof. induction k as [|k IH]; [done|]. simpl indent. by rewrite !str_app_cons. Qed.

Lemma skip_ws_nl_indent k t : skip_ws (NL +:+ indent k +:+ t) = skip_ws t.
Proof. unfold NL. rewrite str_app_cons, str_app_nil. simpl. apply skip_ws_indent. Qed.

(** What may follow a printed value: nothing, a comma or white space. *)
Definition follow_ok (rest : string) : bool :=
  match rest with
  | EmptyString => true
  | String c _ => (code c =? 44) || is_json_ws c
  end.

Ltac code_tac :=
  repeat match goal with
  | H : _ || _ = true |- _ => apply orb_true_iff in H as [H|H]
  | H : _ && _ = true |- _ => apply andb_true_iff in H as [H ?]
  | H : (_ =? _) = true |- _ => apply Nat.eqb_eq in H
  | H : (_ <=? _) = true |- _ => apply Nat.leb_le in H
  end.

Lemma follow_ok_head c r : follow_ok (String c r) = true ->
  code c <> 46 /\ code c <> 101 /\ code c <> 69 /\ is_digit c = false.
Proof.
  simpl. unfold is_json_ws, is_digit. intros H. code_tac; split_and!; try lia;
    apply not_true_iff_false; intros Hd; code_tac; lia.
Qed.

Lemma span_digits_follow rest : follow_ok rest = true -> span_digits rest = (EmptyString, rest).
Proof.
  destruct rest as [|c r]; [done|]. intros (_ & _ & _ & Hd)%follow_ok_head. simpl. by rewrite Hd.
Qed.

Lemma frac_exp_follow rest : follow_ok rest = true ->
  frac_part rest = (EmptyString, rest) /\ exp_part rest = (EmptyString, rest).
Proof.
  destruct rest as [|c r]; [done|]. intros (H1 & H2 & H3 & _)%follow_ok_head. simpl.
  apply Nat.eqb_neq in H1, H2, H3. by rewrite H1, H2, H3.
Qed.

Lemma span_uint u rest : follow_ok rest = true ->
  span_digits (uint_str u +:+ rest) = (uint_str u, rest).
Proof.
  intros Hr. induction u; simpl uint_str; rewrite ?str_app_cons, ?str_app_nil;
    [by apply span_digits_follow|..]; simpl; rewrite IHu; done.
Qed.

Lemma str_uint_str u : str_uint (uint_str u) = u.
Proof. induction u; simpl; f_equal; done. Qed.

(** [N.to_uint] of a positive number does not start with a zero. *)
Lemma pos_uint_nz p u : N.to_uint (Npos p) <> Decimal.D0 u.
Proof.
  intros Hu. pose proof (DecimalN.Unsigned.to_of (N.to_uint (Npos p))) as Hn.
  rewrite DecimalN.Unsigned.of_to, Hu, unorm_D0 in Hn.
  destruct (Decimal.nzhead u) eqn:E.
  1: { apply unorm_0 in E. rewrite E in Hn. injection Hn as ->.
        apply (f_equal N.of_uint) in Hu. rewrite DecimalN.Unsigned.of_to in Hu. discriminate. }
  1: { by apply nzhead_nonzero in E. }
  all: rewrite unorm_nzhead in Hn by (rewrite E; discriminate); rewrite E in Hn; discriminate.
Qed.

Lemma pos_uint_nonnil p : N.to_uint (Npos p) <> Decimal.Nil.
Proof.
  pose proof (DecimalN.Unsigned.to_of (N.to_uint (Npos p))) as Hn.
  rewrite DecimalN.Unsigned.of_to in Hn. rewrite Hn. apply unorm_nonnil.
Qed.

Lemma scan_str_esc_char c t :
  scan_str (esc_char c +:+ t) = (p <- scan_str t ;; Ok (String c p.1, p.2)).
Proof.
  destruct c as [[] [] [] [] [] [] [] []]; simpl esc_char; rewrite ?str_app_cons, ?str_app_nil;
    simpl; reflexivity.
Qed.

(** The escaping of [py_encode_basestring] is undone by [scanstring]. *)
Lemma scan_str_esc s t : scan_str (esc s +:+ String DQ t) = Ok (s, t).
Proof.
  induction s as [|c s IH]; [reflexivity|]. simpl esc.
  by rewrite str_app_assoc, scan_str_esc_char, IH.
Qed.

Lemma parse_value_atom n c t : code c <> 34 -> code c <> 123 -> code c <> 91 ->
  parse_value (S n) (String c t) = Some (scan_atom (String c t)).
Proof.
  intros H1 H2 H3. apply Nat.eqb_neq in H1, H2, H3. simpl. by rewrite H1, H2, H3.
Qed.

Lemma scan_atom_int z rest : follow_ok rest = true -> scan_atom (int_repr z +:+ rest) = Ok (JInt z, rest).
Proof.
  intros Hr. destruct (frac_exp_follow rest Hr) as [Hf He].
  destruct z as [|p|p]; [unfold int_repr; rewrite str_app_cons, str_app_nil;
    unfold scan_atom, scan_number; simpl; by rewrite Hf, He|..];
  pose proof (pos_uint_nz p) as Hnz; pose proof (pos_uint_nonnil p) as Hnn;
  pose proof (DecimalN.Unsigned.of_to (Npos p)) as Hof; unfold int_repr;
  change (N.to_uint (Npos p)) with (Pos.to_uint p) in *; revert Hnz Hnn Hof;
  destruct (Pos.to_uint p) as [|u|u|u|u|u|u|u|u|u|u]; intros Hnz Hnn Hof;
    try done; try (by destruct (Hnz u));
    simpl uint_str; rewrite !str_app_cons; unfold scan_atom, scan_number; simpl;
    rewrite span_uint by done; simpl; rewrite Hf, He; unfold digits_val; simpl;
    rewrite str_uint_str; simpl in Hof; injection Hof as Hof; by rewrite Hof.
Qed.

(** The first character of a printed value: what [scan_once_unicode]
    dispatches on. *)
Definition value_head (c : ascii) : bool :=
  (code c =? 34) || (code c =? 91) || (code c =? 123) || (code c =? 110) || (code c =? 116)
  || (code c =? 102) || (code c =? 45) || is_digit c.

Lemma value_head_facts c : value_head c = true ->
  is_json_ws c = false /\ code c <> 93 /\ code c <> 125 /\ code c <> 239.
Proof.
  unfold value_head, is_digit, is_json_ws. intros H. code_tac; split_and!; try lia;
    apply not_true_iff_false; intros Hw; code_tac; lia.
Qed.

Lemma int_repr_head z : exists c t, int_repr z = String c t /\ (is_digit c || (code c =? 45)) = true
  /\ code c <> 34 /\ code c <> 123 /\ code c <> 91.
Proof.
  destruct z as [|p|p]; unfold int_repr.
  2: { pose proof (pos_uint_nonnil p) as Hnn.
       change (N.to_uint (Npos p)) with (Pos.to_uint p) in *.
       destruct (Pos.to_uint p); [done|..];
         (eexists _, _; split_and!; [reflexivity | reflexivity | cbv; lia ..]). }
  all: (eexists _, _; split_and!; [reflexivity | reflexivity | cbv; lia ..]).
Qed.

Lemma dumps_head lvl v : json_wf v = true -> exists c t, dumps_at lvl v = String c t /\ value_head c = true.
Proof.
  intros Hwf. destruct v as [|[]|z|lit|s|[|x l]|[|kv l]]; try discriminate;
    try (by eexists _, _); simpl dumps_at.
  - destruct (int_repr_head z) as (c & t & -> & Hc & _). exists c, t. split; [done|].
    unfold value_head. rewrite orb_comm in Hc. destruct (is_digit c), (code c =? 45); simpl in *;
      rewrite ?orb_true_r; done.
Qed.

Definition items_tail (lvl : nat) (ss : list string) : string :=
  foldr (fun s acc => "," +:+ NL +:+ indent lvl +:+ s +:+ acc) "" ss.

Lemma items_cons lvl s ss : items lvl (s :: ss) = NL +:+ indent lvl +:+ s +:+ items_tail lvl ss.
Proof.
  unfold items. revert s. induction ss as [|s' ss IH]; intros s; simpl.
  - by rewrite str_app_nil_r.
  - specialize (IH s'). simpl in IH. rewrite IH. by rewrite !str_app_assoc.
Qed.

Lemma skip_ws_value lvl v t : json_wf v = true -> skip_ws (dumps_at lvl v +:+ t) = dumps_at lvl v +:+ t.
Proof.
  intros Hwf. destruct (dumps_head lvl v Hwf) as (c & u & -> & Hc).
  apply value_head_facts in Hc as (Hws & _). rewrite str_app_cons. simpl. by rewrite Hws.
Qed.

Lemma value_not_close lvl v t n : json_wf v = true -> n = 93 \/ n = 125 ->
  is_code n (dumps_at lvl v +:+ t) = false /\ String.eqb (dumps_at lvl v +:+ t) "" = false.
Proof.
  intros Hwf Hn. destruct (dumps_head lvl v Hwf) as (c & u & -> & Hc).
  apply value_head_facts in Hc as (_ & H93 & H125 & _). rewrite str_app_cons. simpl.
  split; [apply Nat.eqb_neq; lia | done].
Qed.

Lemma pv_up n m s x : n <= m -> parse_value n s = Some x -> parse_value m s = Some x.
Proof. intros Hnm. apply (parse_mono n m Hnm). Qed.
Lemma pe_up n m s acc x : n <= m -> parse_elems n s acc = Some x -> parse_elems m s acc = Some x.
Proof. intros Hnm. apply (parse_mono n m Hnm). Qed.
Lemma pm_up n m s acc x : n <= m -> parse_members n s acc = Some x -> parse_members m s acc = Some x.
Proof. intros Hnm. apply (parse_mono n m Hnm). Qed.

(** A printed value followed by what may follow it reads back as the
    value with its objects sorted. *)
Definition rt_prop (v : json) : Prop := forall lvl rest, follow_ok rest = true ->
  exists n, parse_value n (dumps_at lvl v +:+ rest) = Some (Ok (json_sort v, rest)).

Lemma elems_roundtrip lvl k rest x l acc :
  Forall (fun v => json_wf v = true /\ rt_prop v) (x :: l) ->
  exists n, parse_elems n (dumps_at lvl x +:+ items_tail lvl (map (dumps_at lvl) l)
                           +:+ NL +:+ indent k +:+ "]" +:+ rest) acc
            = Some (Ok (JArr (acc ++ map json_sort (x :: l)), rest)).
Proof.
  revert x acc. induction l as [|y l IH]; intros x acc Hall;
    apply Forall_cons in Hall as [[Hwx Hx] Hall]; simpl items_tail.
  - destruct (Hx lvl (NL +:+ indent k +:+ "]" +:+ rest) eq_refl) as [n Hn].
    exists (S n). simpl. rewrite str_app_nil, Hn. simpl.
    rewrite ?str_app_nil, ?skip_ws_nl_indent, ?skip_ws_indent, str_app_cons, str_app_nil. done.
  - destruct (IH y (acc ++ [json_sort x]) Hall) as [n1 Hn1].
    rewrite !str_app_assoc.
    destruct (Hx lvl ("," +:+ NL +:+ indent lvl +:+ dumps_at lvl y +:+
      items_tail lvl (map (dumps_at lvl) l) +:+ NL +:+ indent k +:+ "]" +:+ rest) eq_refl) as [n Hn].
    exists (S (n `max` n1)). simpl. rewrite (pv_up n (n `max` n1) _ _ ltac:(lia) Hn). simpl.
    rewrite str_app_cons, str_app_nil. simpl.
    rewrite ?str_app_nil, ?skip_ws_nl_indent, ?skip_ws_indent.
    apply Forall_cons in Hall as [[Hwy _] _]. rewrite skip_ws_value by done.
    rewrite <- app_assoc in Hn1.
    apply (pe_up n1); [lia|]. exact Hn1.
Qed.

(** One member of an object as the encoder prints it. *)
Definition member_str (lvl : nat) (kx : string * json) : string :=
  py_quote kx.1 +:+ ": " +:+ dumps_at lvl kx.2.

Lemma member_sort_commute lvl l :
  map snd (merge_sort key_le (map (fun '(k, x) => (k, py_quote k +:+ ": " +:+ dumps_at lvl x)) l))
  = map (member_str lvl) (merge_sort key_le l).
Proof.
  rewrite (merge_sort_map key_le key_le (fun '(k, x) => (k, py_quote k +:+ ": " +:+ dumps_at lvl x))).
  - rewrite map_map. apply map_ext. by intros [k x].
  - by intros [k1 x1] [k2 x2].
Qed.

Lemma json_sort_obj l :
  json_sort (JObj l) = JObj (map (fun kv => (kv.1, json_sort kv.2)) (merge_sort key_le l)).
Proof.
  simpl. rewrite (merge_sort_map key_le key_le (fun '(k, x) => (k, json_sort x))).
  - f_equal. apply map_ext. by intros [k x].
  - by intros [k1 x1] [k2 x2].
Qed.

Lemma members_roundtrip lvl k rest kx L acc :
  Forall (fun kv => json_wf kv.2 = true /\ rt_prop kv.2) (kx :: L) ->
  NoDup (map fst (acc ++ kx :: L)) ->
  exists n, parse_members n (member_str lvl kx +:+ items_tail lvl (map (member_str lvl) L)
                             +:+ NL +:+ indent k +:+ "}" +:+ rest) acc
    = Some (Ok (JObj (acc ++ map (fun kv => (kv.1, json_sort kv.2)) (kx :: L)), rest)).
Proof.
  revert kx acc. induction L as [|ky L IH]; intros [key x] acc Hall Hnd;
    apply Forall_cons in Hall as [[Hwx Hx] Hall]; simpl items_tail; simpl in Hwx, Hx.
  all: assert (Hfresh : key ∉ dict_keys acc)
         by (unfold dict_keys; rewrite map_app in Hnd; apply NoDup_app in Hnd as (_ & Hd & _);
             intros Hk; apply (Hd key Hk); simpl; left).
  - destruct (Hx lvl (NL +:+ indent k +:+ "}" +:+ rest) eq_refl) as [n Hn].
    exists (S n). unfold member_str, py_quote, str1. simpl fst; simpl snd.
    autorewrite with pyrw in *. simpl. rewrite scan_str_esc. simpl.
    autorewrite with pyrw in *. rewrite skip_ws_value, Hn by done. simpl.
    autorewrite with pyrw. rewrite ?skip_ws_nl_indent, ?skip_ws_indent. simpl.
    by rewrite dict_set_fresh.
  - assert (Hnd' : NoDup (map fst ((acc ++ [(key, json_sort x)]) ++ ky :: L))).
    { rewrite <- app_assoc. simpl. rewrite !map_app in Hnd |- *. done. }
    destruct (IH ky (acc ++ [(key, json_sort x)]) Hall Hnd') as [n1 Hn1].
    destruct (Hx lvl ("," +:+ NL +:+ indent lvl +:+ member_str lvl ky +:+
      items_tail lvl (map (member_str lvl) L) +:+ NL +:+ indent k +:+ "}" +:+ rest) eq_refl) as [n Hn].
    exists (S (n `max` n1)). unfold member_str at 1, py_quote at 1, str1. simpl fst; simpl snd.
    autorewrite with pyrw in *. simpl. rewrite scan_str_esc. simpl.
    autorewrite with pyrw in *. rewrite skip_ws_value by done.
    rewrite (pv_up n (n `max` n1) _ _ ltac:(lia) Hn). simpl.
    autorewrite with pyrw. rewrite ?skip_ws_nl_indent, ?skip_ws_indent.
    destruct ky as [key' y]. apply Forall_cons in Hall as [[Hwy _] _].
    unfold member_str, py_quote. simpl fst; simpl snd. autorewrite with pyrw. simpl.
    rewrite dict_set_fresh by done. rewrite <- app_assoc in Hn1.
    unfold member_str, py_quote in Hn1. simpl fst in Hn1; simpl snd in Hn1.
    autorewrite with pyrw in Hn1. apply (pm_up n1); [lia|]. exact Hn1.
Qed.

Lemma forallb_wf_rt {A} (g : A -> json) (l : list A) :
  Forall (fun a => json_wf (g a) = true -> rt_prop (g a)) l ->
  forallb (fun a => json_wf (g a)) l = true ->
  Forall (fun a => json_wf (g a) = true /\ rt_prop (g a)) l.
Proof.
  induction 1 as [|a l Ha _ IH]; simpl; [constructor|].
  intros [Hw Hr]%andb_true_iff. constructor; auto.
Qed.

Lemma dumps_roundtrip v : json_wf v = true -> rt_prop v.
Proof.
  induction v as [| b | z | lit | s | l IH | l IH] using json_ind'; intros Hwf lvl rest Hr;
    simpl in Hwf; try discriminate.
  - exists 1. reflexivity.
  - exists 1. destruct b; reflexivity.
  - exists 1. destruct (int_repr_head z) as (c & t & E & _ & H34 & H123 & H91).
    simpl dumps_at. rewrite E, str_app_cons, parse_value_atom by done.
    rewrite <- str_app_cons, <- E, scan_atom_int by done. reflexivity.
  - exists 1. simpl dumps_at. unfold py_quote, str1. autorewrite with pyrw. simpl.
    by rewrite scan_str_esc.
  - destruct l as [|x l]; [exists 1; reflexivity|].
    pose proof (forallb_wf_rt (fun v => v) _ IH Hwf) as Hall.
    destruct (elems_roundtrip (S lvl) lvl rest x l [] Hall) as [n Hn].
    apply Forall_cons in Hall as [[Hwx _] _].
    exists (S n). simpl dumps_at. rewrite items_cons. autorewrite with pyrw. simpl.
    autorewrite with pyrw. rewrite ?skip_ws_nl_indent, ?skip_ws_indent, skip_ws_value by done.
    pose proof (fun t => value_not_close (S lvl) x t 93 Hwx (or_introl eq_refl)) as Hnc.
    rewrite (proj1 (Hnc _)), (proj2 (Hnc _)).
    autorewrite with pyrw in Hn. exact Hn.
  - destruct l as [|kx l]; [exists 1; reflexivity|].
    apply andb_true_iff in Hwf as [Hnd Hwf]. apply bool_decide_eq_true in Hnd.
    pose proof (forallb_wf_rt snd _ IH Hwf) as Hall.
    pose proof (merge_sort_Permutation key_le (kx :: l)) as Hperm.
    rewrite <- Hperm in Hall. rewrite <- (Permutation_map fst Hperm) in Hnd.
    rewrite json_sort_obj.
    destruct (merge_sort key_le (kx :: l)) as [|ky L] eqn:EL.
    { apply Permutation_length in Hperm. done. }
    destruct (members_roundtrip (S lvl) lvl rest ky L [] Hall Hnd) as [n Hn].
    apply Forall_cons in Hall as [[Hwy _] _].
    exists (S n). cbn [dumps_at]. rewrite member_sort_commute, EL. cbn [map]. rewrite items_cons.
    destruct ky as [key y]. unfold member_str, py_quote, str1 in *. simpl fst in *; simpl snd in *.
    autorewrite with pyrw in *. simpl. autorewrite with pyrw in *.
    rewrite ?skip_ws_nl_indent, ?skip_ws_indent. simpl. exact Hn.
Qed.

Lemma prefix_head_neq a b p t : a <> b -> String.prefix (String a p) (String b t) = false.
Proof. intros Hab. simpl. by destruct (ascii_dec a b). Qed.

(** ** What the printer and the reader agree on *)

Lemma skip_ws_nil_follow ws : skip_ws ws = "" -> follow_ok ws = true.
Proof. destruct ws as [|c w]; simpl; [done|]. destruct (is_json_ws c); [by rewrite orb_true_r | done]. Qed.

(** [json.loads(json.dumps(v, indent=2, sort_keys=True) + ws)], for [ws]
    white space, gives [v] back with the members of each object in the
    order of their keys, for every value whose objects have distinct keys
    and which holds no float. *)
Theorem loads_dumps v ws : json_wf v = true -> skip_ws ws = "" ->
  loads (dumps v +:+ ws) = Ok (json_sort v).
Proof.
  intros Hwf Hws0. destruct (dumps_roundtrip v Hwf 0 ws (skip_ws_nil_follow ws Hws0)) as [n Hn].
  unfold loads, dumps.
  destruct (dumps_head 0 v Hwf) as (c & t & E & Hc).
  apply value_head_facts in Hc as (Hws & _ & _ & H239).
  assert (Hbom : has_bom (dumps_at 0 v +:+ ws) = false).
  { rewrite E, str_app_cons. unfold has_bom. apply prefix_head_neq. intros <-. by apply H239. }
  rewrite Hbom, skip_ws_value by done.
  remember (2 * String.length (dumps_at 0 v +:+ ws) + 1) as N eqn:EN.
  assert (HN : parse_value N (dumps_at 0 v +:+ ws) <> None) by (apply (proj1 (parse_total N)); lia).
  destruct (parse_value N (dumps_at 0 v +:+ ws)) as [x|] eqn:Ex; [|done].
  assert (x = Ok (json_sort v, ws)) as ->; [|simpl; by rewrite Hws0].
  pose proof (pv_up N (N `max` n) _ _ ltac:(lia) Ex).
  pose proof (pv_up n (N `max` n) _ _ ltac:(lia) Hn). congruence.
Qed.
