(* ===== verification/TitleCase.v ===== *)
(** * [title_case]: lower-casing function words in titles

    Models [title_case] (corpus.py, lines 323-327): thirteen successive
    [re.sub('([A-Za-z]) ' + word + ' ', r'\1 ' + word.lower() + ' ', s)]
    passes.  One pass is [sub_word], a left-to-right scan that replaces the
    leftmost match and resumes after it, as [re.sub] does for a pattern that
    never matches the empty string.  The scan recurses on the text left after
    a match, which is not a structural subterm, so it runs on fuel; the fuel
    [String.length s] is enough ([sub_word_go_fuel]). *)

From S2P Require Import Prelude.

(** ** Definitions *)

(** The word list of the loop, in its order (lines 324-325). *)
Definition title_words : list string :=
  ["And"; "The"; "Of"; "From"; "To"; "In"; "For"; "A"; "An"; "On"; "Is"; "As"; "At"].

Fixpoint str_drop (n : nat) (s : string) : string :=
  match n, s with
  | 0, _ => s
  | S n', String _ r => str_drop n' r
  | S _, EmptyString => EmptyString
  end.
Arguments str_drop : simpl nomatch.

(** One [re.sub] pass for the function word [word], with fuel.  At a
    letter [c] followed by [" " ++ word ++ " "] the match is replaced by
    [c ++ " " ++ word.lower() ++ " "] and scanning resumes after the match. *)
Fixpoint sub_word_go (fuel : nat) (word s : string) : string :=
  match fuel with
  | 0 => s
  | S f =>
      match s with
      | EmptyString => EmptyString
      | String c r =>
          if is_alpha c && String.prefix (String " "%char (word +:+ " ")) r
          then String c (String " "%char (str_lower word +:+
                 String " "%char (sub_word_go f word (str_drop (S (S (String.length word))) r))))
          else String c (sub_word_go f word r)
      end
  end.

Definition sub_word (word s : string) : string :=
  sub_word_go (String.length s) word s.

(** [title_case(s)]: the passes in the order of [title_words]. *)
Definition title_case (s : string) : string :=
  fold_left (fun acc w => sub_word w acc) title_words s.

(** ** The invariant: only lower-casing after a letter and a space

    [lowered_from st s t] holds when [t] has the length of [s] and each of
    its characters is the one of [s], or that character lower-cased where
    the two characters of [s] before it are a letter and a space.  The
    state [st] holds the two characters of [s] before the current one. *)

Definition lowerable (st : option ascii * option ascii) : bool :=
  match st with
  | (Some a, Some sp) => is_alpha a && Ascii.eqb sp " "%char
  | _ => false
  end.

Fixpoint lowered_from (st : option ascii * option ascii) (s t : string) : bool :=
  match s, t with
  | EmptyString, EmptyString => true
  | String c r, String d r' =>
      (Ascii.eqb d c || (lowerable st && Ascii.eqb d (lower_char c)))
      && lowered_from (st.2, Some c) r r'
  | _, _ => false
  end.

Fixpoint adv (st : option ascii * option ascii) (a : string) : option ascii * option ascii :=
  match a with
  | EmptyString => st
  | String c r => adv (st.2, Some c) r
  end.

(** A capitalised word whose other letters are already lower case: what
    [word.lower()] changes is its first letter only. *)
Definition cap_word (w : string) : Prop :=
  match w with
  | EmptyString => False
  | String _ r => str_lower r = r
  end.

(** ** Lemmas on the scan *)

Lemma str_drop_length n s : String.length (str_drop n s) <= String.length s.
Proof. revert s; induction n; intros [|c s]; simpl; auto with arith. Qed.

Lemma prefix_split p s :
  String.prefix p s = true -> s = p +:+ str_drop (String.length p) s.
Proof.
  revert s; induction p as [|a p IH]; intros [|b s]; simpl; try done.
  destruct (ascii_dec a b); [subst | done]. intros H. rewrite str_app_cons. f_equal. by apply IH.
Qed.

(** Termination of one pass: the scan consumes at least one
    character per step, so any fuel at least the length of the input gives
    the same result; [sub_word] runs with exactly that much. *)
Lemma sub_word_go_fuel n m w s :
  String.length s <= n -> String.length s <= m -> sub_word_go n w s = sub_word_go m w s.
Proof.
  revert m s; induction n as [|n IH]; intros [|m] [|c r]; simpl; intros Hn Hm;
    try done; try lia.
  pose proof (str_drop_length (S (S (String.length w))) r).
  destruct (_ && _); f_equal; [do 3 f_equal|]; apply IH; lia.
Qed.

(** The defining equation of one pass, without fuel. *)
Lemma sub_word_cons w c r :
  sub_word w (String c r) =
  if is_alpha c && String.prefix (String " "%char (w +:+ " ")) r
  then String c (String " "%char (str_lower w +:+
         String " "%char (sub_word w (str_drop (S (S (String.length w))) r))))
  else String c (sub_word w r).
Proof.
  unfold sub_word at 1; simpl.
  pose proof (str_drop_length (S (S (String.length w))) r).
  destruct (_ && _); unfold sub_word; [do 4 f_equal | f_equal]; apply sub_word_go_fuel; lia.
Qed.

Lemma lowered_from_same st a r r' :
  lowered_from st (a +:+ r) (a +:+ r') = lowered_from (adv st a) r r'.
Proof.
  revert st; induction a as [|c a IH]; intros st; simpl; [done|].
  by rewrite Ascii.eqb_refl, IH.
Qed.

Lemma lowered_from_refl st s : lowered_from st s s = true.
Proof. revert st; induction s; intros st; simpl; [done|]. by rewrite Ascii.eqb_refl, IHs. Qed.

Section OnePass.
Variable w : string.
Hypothesis Hw : cap_word w.

Lemma lower_cap_word : exists C wr, w = String C wr /\ str_lower w = String (lower_char C) wr.
  Proof. destruct w as [|C wr]; [done|]. exists C, wr. simpl in *. by rewrite Hw. Qed.

Lemma sub_word_go_lowered fuel st s : lowered_from st s (sub_word_go fuel w s) = true.
  Proof.
    revert st s; induction fuel as [|f IH]; intros st [|c r];
      try apply lowered_from_refl; simpl.
    destruct (is_alpha c) eqn:Ha; simpl; [|by rewrite Ascii.eqb_refl, IH].
    destruct (String.prefix _ r) eqn:Hp; simpl; [|by rewrite Ascii.eqb_refl, IH].
    apply prefix_split in Hp. rewrite Hp at 1. simpl.
    destruct lower_cap_word as (C & wr & -> & ->). autorewrite with pyrw. simpl.
    rewrite str_app_length, Nat.add_1_r, !Ascii.eqb_refl, Ha, orb_true_r. simpl.
    rewrite lowered_from_same. simpl. apply IH.
  Qed.
End OnePass.

(** ** Composing passes *)

Lemma lower_char_space c : lower_char c = " "%char -> c = " "%char.
Proof. destruct c as [[] [] [] [] [] [] [] []]; by intros [=]. Qed.

Lemma is_alpha_lower_char c : is_alpha (lower_char c) = is_alpha c.
Proof. by destruct c as [[] [] [] [] [] [] [] []]. Qed.

(** The characters seen by a later pass are those of the earlier one, or
    their lower-cased forms. *)
Definition ch_rel (x y : option ascii) : Prop := y = x \/ y = option_map lower_char x.

Definition st_rel (st st' : option ascii * option ascii) : Prop :=
  ch_rel st.1 st'.1 /\ ch_rel st.2 st'.2.

Lemma st_rel_refl st : st_rel st st.
Proof. split; by left. Qed.

Lemma lowerable_rel st st' : st_rel st st' -> lowerable st' = true -> lowerable st = true.
Proof.
  destruct st as [[a|] [sp|]], st' as [[a'|] [sp'|]];
    intros [[H1|H1] [H2|H2]]; simplify_eq/=; try done;
    rewrite ?is_alpha_lower_char; intros [? ?%Ascii.eqb_eq]%andb_true_iff;
    repeat match goal with H : lower_char _ = _ |- _ => apply lower_char_space in H end;
    subst; by apply andb_true_iff.
Qed.

Ltac bool_split :=
  repeat match goal with
  | H : _ && _ = true |- _ => apply andb_true_iff in H as [? ?]
  | H : _ || _ = true |- _ => apply orb_true_iff in H as [?|?]
  | H : (_ =? _)%char = true |- _ => apply Ascii.eqb_eq in H; subst
  end.

Lemma lowered_from_trans s : forall t u st st',
  st_rel st st' -> lowered_from st s t = true -> lowered_from st' t u = true ->
  lowered_from st s u = true.
Proof.
  induction s as [|c r IH]; intros [|d t] [|e u] st st' Hst; simpl; try done.
  intros H1 H2. bool_split; apply andb_true_iff; split;
    try (eapply IH; [|eassumption|eassumption]; split; [apply Hst|];
         first [by left | by right]);
    rewrite ?Ascii.eqb_refl, ?lower_char_idem, ?orb_true_l; try done;
    apply orb_true_iff; right; apply andb_true_iff;
    rewrite ?Ascii.eqb_refl, ?lower_char_idem; split; try done;
    by eapply lowerable_rel.
Qed.

Lemma title_words_cap : Forall cap_word title_words.
Proof. repeat constructor. Qed.

Lemma fold_sub_word_lowered ws st s acc :
  Forall cap_word ws -> lowered_from st s acc = true ->
  lowered_from st s (fold_left (fun acc w => sub_word w acc) ws acc) = true.
Proof.
  intros Hws. revert acc. induction Hws as [|w ws Hw _ IH]; intros acc H; simpl; [done|].
  apply IH. eapply lowered_from_trans; [apply st_rel_refl | exact H |].
  by apply sub_word_go_lowered.
Qed.

Lemma lowered_from_length st s t :
  lowered_from st s t = true -> String.length t = String.length s.
Proof.
  revert st t; induction s as [|c s IH]; intros st [|d t]; simpl; try done.
  intros H. bool_split; f_equal; eauto.
Qed.

Lemma lowered_from_lower st s t :
  lowered_from st s t = true -> str_lower t = str_lower s.
Proof.
  revert st t; induction s as [|c s IH]; intros st [|d t]; simpl; try done.
  intros H. bool_split; f_equal; eauto using lower_char_idem.
Qed.

Lemma lowered_from_no_space_prefix a : forall st r t,
  st.2 <> Some " "%char -> str_has " "%char a = false ->
  lowered_from st (a +:+ r) t = true -> exists r', t = a +:+ r'.
Proof.
  induction a as [|c a IH]; intros [p2 p1] r [|d t] Hp Ha; simpl; try done; eauto.
  apply orb_false_iff in Ha as [Hc Ha].
  intros H. apply andb_true_iff in H as [Hch Hrest].
  apply orb_true_iff in Hch as [Hd%Ascii.eqb_eq | Hl]; [subst d|].
  - destruct (IH (p1, Some c) r t) as [r' ->]; simpl; try done.
    { intros [= Hc2]. subst c. by rewrite Ascii.eqb_refl in Hc. }
    by exists r'.
  - destruct p2, p1 as [sp|]; simpl in *; try done. bool_split. done.
Qed.

(** ** Theorems *)

(** C32: [title_case] changes no character other than by lower-casing it,
    and it lower-cases only a character whose two predecessors in the
    input are a letter and a space: the invariant of the thirteen
    [re.sub] passes. *)
Theorem title_case_only_lowers s : lowered_from (None, None) s (title_case s) = true.
Proof.
  apply fold_sub_word_lowered; [apply title_words_cap | apply lowered_from_refl].
Qed.

(** [title_case] preserves the length of the title and its text up
    to case. *)
Theorem title_case_case_insensitive s :
  String.length (title_case s) = String.length s /\ str_lower (title_case s) = str_lower s.
Proof.
  pose proof (title_case_only_lowers s).
  split; eauto using lowered_from_length, lowered_from_lower.
Qed.

(** A leading word without spaces (such as a capitalised function
    word at the very start of the title) is left untouched. *)
Theorem title_case_leading_word a r :
  str_has " "%char a = false -> exists r', title_case (a +:+ r) = a +:+ r'.
Proof.
  intros Ha. apply (lowered_from_no_space_prefix a (None, None) r); [done | exact Ha |].
  apply title_case_only_lowers.
Qed.

Lemma title_case_leading_word_witness :
  str_has " "%char "And" = false /\ exists r', title_case ("And" +:+ " Then There Were None") = "And" +:+ r'.
Proof. split; [reflexivity | exact (title_case_leading_word "And" _ eq_refl)]. Defined.

(** The example of the specification: over-capitalised function words
    between words are lower-cased. *)
Example title_case_spec_example :
  title_case "Graphs And The Theory Of Networks" = "Graphs and the Theory of Networks".
Proof. vm_compute. reflexivity. Qed.

(** Matches do not overlap: of two consecutive equal function words
    only the first is lower-cased, although the second is also preceded
    by a word. *)
Example title_case_repeated_word :
  title_case "Graphs And And Trees" = "Graphs and And Trees"
  /\ title_case (title_case "Graphs And And Trees") = "Graphs and and Trees".
Proof. split; vm_compute; reflexivity. Qed.

Lemma sub_word_go_fuel_witness :
  String.length "x And y" <= 100 /\ String.length "x And y" <= 7
  /\ sub_word_go 100 "And" "x And y" = sub_word_go 7 "And" "x And y".
Proof.
  assert (H1 : String.length "x And y" <= 100) by (simpl; lia).
  assert (H2 : String.length "x And y" <= 7) by (simpl; lia).
  split_and!; [exact H1 | exact H2 | exact (sub_word_go_fuel 100 7 "And" "x And y" H1 H2)].
Defined.
