(* ===== verification/Document.v ===== *)
(** * The [Document] class: data, [get_abstract] and [text]

    The Python object is the record [Document]; a section dictionary
    [{'heading': ..., 'text': [...]}] is the record [section], with
    [heading = None] for a missing heading (a JSON [null] heading, which
    [Document.json] would print back as [null], is outside the model: see
    [DocJson]).  The back-reference
    [self.corpus] is a handle [corpus : option corpus_ref] to a corpus
    object; what [text] needs of that corpus ([ref_id in self.corpus],
    [self.corpus[ref_id]]) is the interface [DocStore], which [Corpus.v]
    implements on its object store.  [self.roles] is always [{}] and never
    read, so it is not a field. *)

From S2P Require Import Prelude TitleCase.

(** ** Data *)

Record section : Type := mk_section {
  heading : option string;
  sect_text : list string
}.

(** Handle of a [Corpus] object. *)
Definition corpus_ref := nat.

Record Document : Type := mk_document {
  id : option string;            (** [None]: [self.id] was never assigned *)
  authors : list string;
  title : string;
  book : string;
  year : string;
  url : string;
  references : gset string;      (** a Python [set] *)
  sections : list section;
  corpus : option corpus_ref     (** [None] until [Corpus.add] *)
}.

Definition set_corpus (c : option corpus_ref) (d : Document) : Document :=
  mk_document (id d) (authors d) (title d) (book d) (year d) (url d)
    (references d) (sections d) c.

Definition set_references (r : gset string) (d : Document) : Document :=
  mk_document (id d) (authors d) (title d) (book d) (year d) (url d)
    r (sections d) (corpus d).

(** What a document asks of the corpus it belongs to: the document stored
    under a key, if any ([key in corpus] and [corpus[key]]). *)
Class DocStore (S : Type) := store_get : S -> string -> option Document.

(** ** [get_abstract] (lines 194-207) *)

Definition is_abstract (s : section) : bool :=
  match heading s with
  | Some h => String.eqb h "Abstract"
  | None => false
  end.

Definition get_abstract (d : Document) : Res (list string) :=
  match sections d with
  | [] => Raise IndexError
  | s0 :: rest =>
      if is_abstract s0 then Ok (take 10 (sect_text s0)) else
      if (match rest with s1 :: _ => is_abstract s1 | [] => false end)
      then Ok (take 10 (sect_text (hd s0 rest))) else
      if 2 <? length (sect_text s0) then Ok (take 10 (sect_text s0)) else
      if (match rest with s1 :: _ => 2 <? length (sect_text s1) | [] => false end)
      then Ok (take 10 (sect_text (hd s0 rest))) else
      Ok (take 10 (sect_text s0))
  end.

(** ** [text] (lines 231-260) *)

(** [for author in authors: if author == 'Wikipedia': continue;
    out += author + '.\n'] *)
Definition author_line (out a : string) : string :=
  if String.eqb a "Wikipedia" then out else out +:+ a +:+ "." +:+ NL.

(** One section of the full rendering (lines 247-249). *)
Definition sect_block (out : string) (s : section) : string :=
  let out := match heading s with
             | Some h => if truthy h then out +:+ NL +:+ NL +:+ h +:+ NL +:+ NL else out
             | None => out
             end in
  out +:+ py_join NL (sect_text s) +:+ NL.

Section WithStore.
Context {S : Type} `{DocStore S}.

  (** One referenced id (lines 252-259).  [ref_id in None] raises
      [TypeError]. *)
Definition ref_block (store : option S) (out ref_id : string) : Res string :=
    match store with
    | None => Raise TypeError
    | Some s =>
        match store_get s ref_id with
        | None => Ok out
        | Some r => Ok (fold_left author_line (authors r) (out +:+ NL) +:+ title r +:+ "." +:+ NL)
        end
    end.

  (** [Document.text(abstract)] for the document [d] whose [self.corpus]
      is [store]. *)
Definition text (store : option S) (d : Document) (abstract : bool) : Res string :=
    let out := title d +:+ "." +:+ NL in
    let out := out +:+ title d +:+ "." +:+ NL in
    let out := fold_left author_line (authors d) out in
    let out := out +:+ book d +:+ NL +:+ year d +:+ NL +:+ NL in
    out <- (if abstract
            then (a <- get_abstract d ;; Ok (out +:+ py_join NL a))
            else Ok (fold_left sect_block (sections d) out)) ;;
    rfold (ref_block store) out (sorted_set (references d)).
End WithStore.

(** ** Properties of [get_abstract] *)

Lemma get_abstract_ok d : sections d <> [] -> exists a, get_abstract d = Ok a.
Proof.
  unfold get_abstract. destruct (sections d); [done|]. intros _.
  repeat case_match; eauto.
Qed.

(** C23: [get_abstract] raises exactly when the document has no section,
    and then it raises [IndexError] ([self.sections[0]]). *)
Theorem get_abstract_error d e :
  (get_abstract d = Raise e -> e = IndexError /\ sections d = [])
  /\ (sections d = [] -> get_abstract d = Raise IndexError).
Proof.
  split; [|unfold get_abstract; by intros ->].
  destruct (sections d) eqn:Hs.
  - unfold get_abstract. rewrite Hs. by intros [= <-].
  - destruct (get_abstract_ok d) as [a Ha]; [by rewrite Hs|]. congruence.
Qed.

(** C22: the abstract is at most ten sentences, and it is the beginning of
    the text of section 0 or of section 1. *)
Theorem get_abstract_bound d a :
  get_abstract d = Ok a ->
  length a <= 10 /\ exists i s, i < 2 /\ sections d !! i = Some s /\ a = take 10 (sect_text s).
Proof.
  unfold get_abstract. intros Ha. cut (exists i s, i < 2 /\ sections d !! i = Some s /\ a = take 10 (sect_text s)).
  { intros (i & s & Hi & Hs & ->). split; [rewrite length_take; lia | eauto]. }
  destruct (sections d) as [|s0 [|s1 rest]]; [done| |];
    repeat case_match; simplify_eq/=;
    first [exists 0, s0; split_and!; (done || lia) | exists 1, s1; split_and!; (done || lia)].
Qed.

(** C21: a section 0 headed "Abstract" is the abstract, whatever section 1 holds. *)
Theorem get_abstract_heading_first d s0 rest :
  sections d = s0 :: rest -> is_abstract s0 = true ->
  get_abstract d = Ok (take 10 (sect_text s0)).
Proof. intros Hs H0. unfold get_abstract. by rewrite Hs, H0. Qed.

Lemma get_abstract_heading_first_witness :
  let d := mk_document (Some "d1") [] "T" "" "" "" ∅
             [mk_section (Some "Abstract") ["a"; "b"]; mk_section None ["x"; "y"; "z"]] None in
  sections d = mk_section (Some "Abstract") ["a"; "b"] :: [mk_section None ["x"; "y"; "z"]]
  /\ is_abstract (mk_section (Some "Abstract") ["a"; "b"]) = true
  /\ get_abstract d = Ok ["a"; "b"].
Proof.
  simpl. split; [reflexivity|]. split; [reflexivity|].
  apply (get_abstract_heading_first _ (mk_section (Some "Abstract") ["a"; "b"])
           [mk_section None ["x"; "y"; "z"]]); reflexivity.
Defined.

(** The rules are tried in order: a section 1 headed "Abstract" wins
    over a long untitled section 0. *)
Theorem get_abstract_heading_second d s0 s1 rest :
  sections d = s0 :: s1 :: rest -> is_abstract s0 = false -> is_abstract s1 = true ->
  get_abstract d = Ok (take 10 (sect_text s1)).
Proof. intros Hs H0 H1. unfold get_abstract. by rewrite Hs, H0, H1. Qed.

Lemma get_abstract_heading_second_witness :
  let s0 := mk_section None ["x"; "y"; "z"; "w"] in
  let s1 := mk_section (Some "Abstract") ["a"] in
  let d := mk_document (Some "d1") [] "T" "" "" "" ∅ [s0; s1] None in
  sections d = s0 :: s1 :: [] /\ is_abstract s0 = false /\ is_abstract s1 = true
  /\ get_abstract d = Ok ["a"].
Proof.
  simpl. split; [reflexivity|]. split; [reflexivity|]. split; [reflexivity|].
  apply (get_abstract_heading_second _ (mk_section None ["x"; "y"; "z"; "w"])
           (mk_section (Some "Abstract") ["a"]) []); reflexivity.
Defined.

(** ** Properties of [text]

    [text] and [bigrams] have the same shape: a body that may raise, then
    a fold over the sorted references with a step that raises [TypeError]
    without a corpus and never raises with one.  [render_errors] and
    [render_no_corpus] are stated for that shape. *)

Section Render.
Context {S : Type}.
Variable step : option S -> string -> string -> Res string.
Hypothesis step_some : forall s out x, exists b, step (Some s) out x = Ok b.
Hypothesis step_none : forall out x, step None out x = Raise TypeError.

Lemma rfold_step_some s out l : exists out', rfold (step (Some s)) out l = Ok out'.
  Proof.
    revert out; induction l as [|x l IH]; intros out; simpl; [eauto|].
    destruct (step_some s out x) as [b ->]. apply IH.
  Qed.

Lemma render_errors (store : option S) (body : Res string) refs e :
    (out <- body ;; rfold (step store) out (sorted_set refs)) = Raise e ->
    body = Raise e \/ (e = TypeError /\ store = None /\ refs <> ∅).
  Proof.
    destruct body as [out|e']; simpl; [|by intros [= ->]; left].
    destruct store as [s|].
    - destruct (rfold_step_some s out (sorted_set refs)) as [b ->]. done.
    - destruct (sorted_set refs) as [|x l] eqn:Hl; simpl; [done|].
      rewrite step_none. intros [= <-]. right. split_and!; [done|done|].
      intros ->. by rewrite (proj2 (sorted_set_nil ∅) eq_refl) in Hl.
  Qed.

Lemma render_no_corpus (body : Res string) out refs :
    body = Ok out -> refs <> ∅ ->
    (out <- body ;; rfold (step None) out (sorted_set refs)) = Raise TypeError.
  Proof.
    intros -> Hr. simpl. destruct (sorted_set refs) eqn:Hl; [by apply sorted_set_nil in Hl|].
    simpl. by rewrite step_none.
  Qed.
End Render.

Section TextProps.
Context {S : Type} `{DocStore S}.

Lemma ref_block_some (s : S) out x : exists b, ref_block (Some s) out x = Ok b.
  Proof. unfold ref_block. destruct (store_get s x); eauto. Qed.

Lemma ref_block_none out x : ref_block (S:=S) None out x = Raise TypeError.
  Proof. done. Qed.

  (** Dropping an id the corpus does not hold changes nothing. *)
Lemma rfold_ref_block_filter (s : S) out l :
    rfold (ref_block (Some s)) out l
    = rfold (ref_block (Some s)) out (filter (fun r => is_Some (store_get s r)) l).
  Proof.
    revert out; induction l as [|x l IH]; intros out; simpl; [done|].
    rewrite filter_cons. destruct (store_get s x) eqn:Hx; simpl; try rewrite Hx; apply IH.
  Qed.

  (** The body raises only for an abstract of a document without sections. *)
Lemma abstract_body_cases {B} (d : Document) (k : list string -> B) (abstract : bool) (other : Res B) e :
    (if abstract then (a <- get_abstract d ;; Ok (k a)) else other) = Raise e ->
    (abstract = true /\ e = IndexError /\ sections d = []) \/ (abstract = false /\ other = Raise e).
  Proof.
    destruct abstract; [|by right].
    destruct (get_abstract d) as [a|e'] eqn:Ha; simpl; [done|].
    intros [= <-]. left. apply (get_abstract_error d e') in Ha as [-> ?]. done.
  Qed.

Lemma abstract_body_ok {B} (d : Document) (k : list string -> B) (abstract : bool) (other : B) :
    (abstract = false \/ sections d <> []) ->
    exists b, (if abstract then (a <- get_abstract d ;; Ok (k a)) else Ok other) = Ok b.
  Proof.
    destruct abstract; [|eauto]. intros [? | Hs]; [done|].
    destruct (get_abstract_ok d Hs) as [a ->]. simpl. eauto.
  Qed.

  (** C14: [text] raises only in two ways: [IndexError] for an abstract of
      a document without sections, and [TypeError] for a document that
      cites something but was never added to a corpus. *)
Theorem text_errors (store : option S) d abstract e :
    text store d abstract = Raise e ->
    (e = IndexError /\ abstract = true /\ sections d = [])
    \/ (e = TypeError /\ store = None /\ references d <> ∅).
  Proof.
    unfold text. intros Hr.
    apply (render_errors ref_block ref_block_some ref_block_none) in Hr as [Hb | Hr]; [|by right].
    apply abstract_body_cases in Hb as [(-> & -> & ?) | [_ ?]]; [by left | done].
  Qed.

  (** C15: a document not added to any corpus ([self.corpus is None]) that
      cites anything cannot be rendered: [ref_id in self.corpus] raises
      [TypeError], where the specification says unresolved references are
      skipped. *)
Theorem text_without_corpus d abstract :
    references d <> ∅ -> (abstract = false \/ sections d <> []) ->
    text (S:=S) None d abstract = Raise TypeError.
  Proof.
    intros Hr Hb. unfold text. cbv zeta.
    match goal with
    | |- rbind (if abstract then (a <- get_abstract d ;; Ok (@?k a)) else Ok ?o) _ = _ =>
        destruct (abstract_body_ok d k abstract o Hb) as [out Hout]
    end.
    by apply (render_no_corpus ref_block ref_block_none _ out).
  Qed.

Lemma text_with_corpus (s : S) d abstract :
    (abstract = false \/ sections d <> []) -> exists out, text (Some s) d abstract = Ok out.
  Proof.
    intros Hb. destruct (text (Some s) d abstract) as [out|e] eqn:Ht; [eauto|].
    apply text_errors in Ht as [(_ & Ha & Hs) | (_ & ? & _)]; [|done].
    destruct Hb; congruence.
  Qed.

  (** C16: with a corpus, ids the corpus does not hold are skipped: the
      rendering is the one of the document citing only the ids the corpus
      resolves. *)
Theorem text_skips_unresolved (s : S) d abstract :
    text (Some s) d abstract
    = text (Some s) (set_references (filter (fun r => is_Some (store_get s r)) (references d)) d)
        abstract.
  Proof.
    unfold text. simpl. rewrite sorted_set_filter.
    change (get_abstract (set_references ?r d)) with (get_abstract d).
    destruct abstract; [destruct (get_abstract d)|]; simpl; try done;
      apply rfold_ref_block_filter.
  Qed.
End TextProps.

(** ** Witnesses *)

(** An empty store, for documents rendered without any corpus. *)
#[export] Instance empty_store : DocStore unit := fun _ _ => None.

Definition orphan_doc : Document :=
  mk_document (Some "p1") ["Ada"; "Wikipedia"] "Graphs" "Proc" "1999" ""
    {[ "p2" ]} [mk_section (Some "Abstract") ["One."; "Two."]] None.

Lemma get_abstract_bound_witness :
  get_abstract orphan_doc = Ok ["One."; "Two."]
  /\ length ["One."; "Two."] <= 10
  /\ exists i s, i < 2 /\ sections orphan_doc !! i = Some s /\ ["One."; "Two."] = take 10 (sect_text s).
Proof.
  assert (H : get_abstract orphan_doc = Ok ["One."; "Two."]) by reflexivity.
  split; [exact H | exact (get_abstract_bound _ _ H)].
Defined.

Lemma text_without_corpus_witness :
  references orphan_doc <> ∅ /\ text (S:=unit) None orphan_doc false = Raise TypeError.
Proof.
  assert (Hr : references orphan_doc <> ∅) by (unfold orphan_doc; simpl; set_solver).
  split; [exact Hr|]. apply text_without_corpus; [exact Hr | by left].
Defined.

Lemma text_errors_witness :
  text (S:=unit) None orphan_doc true = Raise TypeError
  /\ ((TypeError = IndexError /\ true = true /\ sections orphan_doc = [])
      \/ (TypeError = TypeError /\ @None unit = None /\ references orphan_doc <> ∅)).
Proof.
  assert (H : text (S:=unit) None orphan_doc true = Raise TypeError) by reflexivity.
  split; [exact H | exact (text_errors None orphan_doc true TypeError H)].
Defined.

Lemma get_abstract_error_witness :
  get_abstract (mk_document (Some "e") [] "T" "" "" "" ∅ [] None) = Raise IndexError
  /\ IndexError = IndexError /\ sections (mk_document (Some "e") [] "T" "" "" "" ∅ [] None) = [].
Proof.
  assert (H : get_abstract (mk_document (Some "e") [] "T" "" "" "" ∅ [] None) = Raise IndexError)
    by reflexivity.
  split; [exact H | exact (proj1 (get_abstract_error _ IndexError) H)].
Defined.
