(* ===== verification/DocInit.v ===== *)
(** * [Document.__init__]: building a document from a file or a TSV line

    Models lines 120-167 of corpus.py.  The constructor first settles the
    form (inferred from the file name when none is given), then reads the
    parsed JSON record [j] (only for the [json] form; otherwise
    [{'info': {}}]), takes the fields from it, and finally overrides the
    sections (and, for TSV, the id and year) for the [text] and [tsv] forms.

    The collaborators the constructor calls are variables of the section:
    the sentence tokenizer [tokenize], the file reader [read_file], and
    [load_json], which stands for [json.load] followed by the reading of
    the [info] fields (the JSON layer is a component of its own).  The
    record [jdoc] holds what the code reads of [j]. *)

From S2P Require Import Prelude TitleCase Document.

(** ** The parsed JSON record, as the constructor reads it *)

Record jdoc : Type := mk_jdoc {
  j_id : option string;          (** [j['info']['id']] if present *)
  j_authors : list string;       (** [j['info'].get('authors', [])] *)
  j_title : string;
  j_book : string;
  j_year : string;
  j_url : string;
  j_references : list string;    (** [j.get('references', [])] *)
  j_sections : list section      (** [j.get('sections', [])] *)
}.

(** [j = {'info': {}}] (line 129). *)
Definition empty_jdoc : jdoc := mk_jdoc None [] "" "" "" "" [] [].

(** ** File names *)

(** Lines 121-127: the form is inferred by substring tests on the whole
    path, in this order. *)
Definition infer_form (fname : string) : option string :=
  if str_contains "json" fname then Some "json"
  else if str_contains "xml" fname then Some "sd"
  else if str_contains "txt" fname then Some "text"
  else None.

(** [os.path.basename]: what follows the last ['/']. *)
Definition basename (p : string) : string := default "" (last (str_split "/" p)).

Definition drop_last (n : nat) (s : string) : string :=
  String.substring 0 (String.length s - n) s.

Definition strip_ext_at_end (b : string) : option string :=
  if str_ends_with ".json" b then Some (drop_last 5 b)
  else if str_ends_with ".xml" b then Some (drop_last 4 b)
  else if str_ends_with ".txt" b then Some (drop_last 4 b)
  else None.

(** [re.sub('\.(json|xml|txt)$', '', b)] (line 142): [$] matches at the
    end and also just before a final newline. *)
Definition strip_ext (b : string) : string :=
  match strip_ext_at_end b with
  | Some b' => b'
  | None =>
      if str_ends_with NL b
      then match strip_ext_at_end (drop_last 1 b) with
           | Some b' => b' +:+ NL
           | None => b
           end
      else b
  end.

(** ** The constructor *)

Section Init.
Variable tokenize : string -> list string.
Variable read_file : string -> Res string.
Variable load_json : string -> Res jdoc.

  (** Lines 138-152: the fields taken from [j]; [self.id] is left unset
      ([None]) when [j] has no id and there is no file name. *)
Definition doc_fields (fname : option string) (j : jdoc) : Document :=
    mk_document
      (match j_id j with
       | Some i => Some i
       | None => match fname with
                 | Some f => if truthy f then Some (strip_ext (basename f)) else None
                 | None => None
                 end
       end)
      (map py_strip (j_authors j))
      (title_case (j_title j)) (title_case (j_book j)) (j_year j) (j_url j)
      (list_to_set (j_references j)) (j_sections j) None.

Definition set_sections (ss : list section) (d : Document) : Document :=
    mk_document (id d) (authors d) (title d) (book d) (year d) (url d)
      (references d) ss (corpus d).

  (** Line 157: the words of the file, without those starting with a digit. *)
Definition text_content (raw : string) : string :=
    py_join " " (filter (fun w => starts_digit w = false) (str_words raw)).

  (** Lines 162-167: one TSV line; unpacking into three names raises
      [ValueError] unless there are exactly two tabs. *)
Definition tsv_fields (d : Document) (line : string) : Res Document :=
    match str_split TAB line with
    | [i; y; t] =>
        Ok (mk_document (Some i) (authors d) (title d) (book d) y (url d)
              (references d) [mk_section None (tokenize t)] (corpus d))
    | _ => Raise ValueError
    end.

Definition file_given (fname : option string) : bool :=
    match fname with Some f => truthy f | None => false end.

  (** Lines 121-127: [if fname and not form:] the form is inferred from
      the name. *)
Definition resolve_form (fname form : option string) : option string :=
    if file_given fname && negb (match form with Some f => truthy f | None => false end)
    then (match fname with Some f => infer_form f | None => form end)
    else form.

  (** [Document(fname, form, text)]. *)
Definition document_init (fname : option string) (form : option string) (text : string)
    : Res Document :=
    let form := resolve_form fname form in
    j <- (match fname with
          | Some f => if truthy f && bool_decide (form = Some "json") then load_json f
                      else Ok empty_jdoc
          | None => Ok empty_jdoc
          end) ;;
    let d := doc_fields fname j in
    match fname with
    | Some f =>
        if truthy f && bool_decide (form = Some "text")
        then (raw <- read_file f ;;
              Ok (set_sections [mk_section None (tokenize (text_content raw))] d))
        else if truthy text && bool_decide (form = Some "tsv") then tsv_fields d text
        else Ok d
    | None =>
        if truthy text && bool_decide (form = Some "tsv") then tsv_fields d text
        else Ok d
    end.
End Init.

(** ** Properties *)

Section InitProps.
Variable tokenize : string -> list string.
Variable read_file : string -> Res string.
Variable load_json : string -> Res jdoc.

  (** C26: round trip of a TSV line: the document built from
      [id<TAB>year<TAB>body] has that id and year, and one untitled section
      holding the sentences of the body. *)
Theorem tsv_roundtrip i y t :
    str_has TAB i = false -> str_has TAB y = false -> str_has TAB t = false ->
    exists d, document_init tokenize read_file load_json None (Some "tsv")
                (i +:+ String TAB (y +:+ String TAB t)) = Ok d
      /\ id d = Some i /\ year d = y /\ sections d = [mk_section None (tokenize t)].
  Proof.
    intros Hi Hy Ht. unfold document_init. simpl.
    destruct (truthy (i +:+ String TAB (y +:+ String TAB t))) eqn:Htr.
    - unfold tsv_fields. rewrite !str_split_app, !str_split_nosep by done. simpl.
      eexists. split; [reflexivity|]. done.
    - exfalso. unfold truthy in Htr. apply negb_false_iff, String.eqb_eq in Htr.
      destruct i; discriminate.
  Qed.

  (** C27: a non-empty TSV line without exactly two tabs makes the
      constructor raise [ValueError]. *)
Theorem tsv_malformed line :
    truthy line = true -> length (str_split TAB line) <> 3 ->
    document_init tokenize read_file load_json None (Some "tsv") line = Raise ValueError.
  Proof.
    intros Ht Hl. unfold document_init. simpl. rewrite Ht. simpl. unfold tsv_fields.
    destruct (str_split TAB line) as [|? [|? [|? [|]]]]; simpl in Hl; done.
  Qed.
End InitProps.

Lemma tsv_roundtrip_witness :
  str_has TAB "d1" = false /\ str_has TAB "2001" = false /\ str_has TAB "Body." = false
  /\ exists d, document_init (fun s => [s]) (fun _ => Raise KeyError) (fun _ => Ok empty_jdoc)
                None (Some "tsv") ("d1" +:+ String TAB ("2001" +:+ String TAB "Body.")) = Ok d
     /\ id d = Some "d1" /\ year d = "2001" /\ sections d = [mk_section None ["Body."]].
Proof.
  split_and!; try reflexivity.
  exact (tsv_roundtrip (fun s => [s]) (fun _ => Raise KeyError) (fun _ => Ok empty_jdoc)
           "d1" "2001" "Body." eq_refl eq_refl eq_refl).
Defined.

Lemma tsv_malformed_witness :
  truthy ("d1" +:+ String TAB "2001") = true
  /\ length (str_split TAB ("d1" +:+ String TAB "2001")) <> 3
  /\ document_init (fun s => [s]) (fun _ => Raise KeyError) (fun _ => Ok empty_jdoc)
       None (Some "tsv") ("d1" +:+ String TAB "2001") = Raise ValueError.
Proof.
  assert (H1 : truthy ("d1" +:+ String TAB "2001") = true) by reflexivity.
  assert (H2 : length (str_split TAB ("d1" +:+ String TAB "2001")) <> 3) by (vm_compute; lia).
  split_and!; [exact H1 | exact H2 | exact (tsv_malformed _ _ _ _ H1 H2)].
Defined.

Lemma truthy_app_slash a b : truthy (a +:+ "/" +:+ b) = true.
Proof.
  apply negb_true_iff, String.eqb_neq. intros H. apply (f_equal String.length) in H.
  rewrite !str_app_length in H. simpl in H. lia.
Qed.

(** C34: the form is inferred by substring tests on the whole path: a
    file under a directory whose name contains "json" is read as JSON
    whatever its own name (and a failed [json.load] ends the process);
    one under a directory whose name contains "xml", with no "json" in
    the path, gets the form [sd], which no branch reads: the document has
    its base name as id and nothing else. *)
Theorem infer_form_uses_whole_path dir f :
  (str_contains "json" dir = true -> infer_form (dir +:+ "/" +:+ f) = Some "json") /\
  (str_contains "json" (dir +:+ "/" +:+ f) = false -> str_contains "xml" dir = true ->
   infer_form (dir +:+ "/" +:+ f) = Some "sd" /\
   forall tok rf lj, document_init tok rf lj (Some (dir +:+ "/" +:+ f)) None ""
     = Ok (mk_document (Some (strip_ext (basename (dir +:+ "/" +:+ f)))) [] "" "" "" "" ∅ [] None)).
Proof.
  split.
  - intros Hj. unfold infer_form. by rewrite str_contains_app_l.
  - intros Hj Hx. assert (Hs : infer_form (dir +:+ "/" +:+ f) = Some "sd").
    { unfold infer_form. by rewrite Hj, str_contains_app_l. }
    split; [done|]. intros tok rf lj.
    unfold document_init, resolve_form, file_given. rewrite truthy_app_slash, Hs. simpl.
    unfold doc_fields. simpl. by rewrite truthy_app_slash.
Qed.

Lemma infer_form_uses_whole_path_witness :
  infer_form ("/data/json_papers" +:+ "/" +:+ "20150101.txt") = Some "json"
  /\ infer_form ("/data/xml2txt" +:+ "/" +:+ "20150101.txt") = Some "sd".
Proof.
  split; [apply (proj1 (infer_form_uses_whole_path "/data/json_papers" "20150101.txt")); reflexivity|].
  apply (proj2 (infer_form_uses_whole_path "/data/xml2txt" "20150101.txt")); reflexivity.
Defined.
