(* ===== verification/DocJson.v ===== *)
(** * [Document.json] and the JSON branch of [Document.__init__]

    [doc_json] is [Document.json] (lines 210-229): the dictionary of lines
    213-227 as a [json] value, printed by [dumps].  [json_load] is the
    [try: json.load(...)] of lines 130-136, whose failure ends the process,
    and [jdoc_of_json] the reading of the fields at lines 138-150, raising
    what Python raises where a field has a type the code cannot use.

    The attributes of a [Document] are typed in the model (strings, a set
    of strings, section records).  Python stores some fields without
    looking at them ([self.year], [self.url], [self.sections], the members
    of [self.references]); a record that gives them another type (a number
    as the year, a null heading) builds a Python object the model has no
    value for, and the reading says so with [Ok None].  [document_open]
    is the whole constructor with this reading in place of the loader
    parameter of [document_init]. *)

From S2P Require Import Prelude PyDict Json TitleCase Document DocInit.

(** ** [Document.json] (lines 210-229) *)

(** A section dictionary, [{'heading': h, 'text': [...]}]. *)
Definition section_json (s : section) : json :=
  JObj ((match heading s with Some h => [("heading", JStr h)] | None => [] end)
        ++ [("text", JArr (map JStr (sect_text s)))]).

(** Lines 213-227; reading an unset [self.id] raises [AttributeError], and
    [self.sections[0]] of a document without sections [IndexError]. *)
Definition doc_dict (d : Document) (abstract : bool) : Res json :=
  i <- (match id d with Some i => Ok i | None => Raise AttributeError end) ;;
  secs <- (if abstract
           then match sections d with s :: _ => Ok [s] | [] => Raise IndexError end
           else Ok (sections d)) ;;
  Ok (JObj [("info", JObj [("id", JStr i); ("authors", JArr (map JStr (authors d)));
                           ("title", JStr (title d)); ("year", JStr (year d));
                           ("book", JStr (book d)); ("url", JStr (url d))]);
            ("references", JArr (map JStr (sorted_set (references d))));
            ("sections", JArr (map section_json secs))]).

(** Line 229. *)
Definition doc_json (d : Document) (abstract : bool) : Res string :=
  v <- doc_dict d abstract ;; Ok (dumps v).

(** ** Reading a document record (lines 130-150) *)

(** Lines 130-136: [json.load(io.open(fname))]; any exception, from the
    file or from the decoder, prints a message and calls [sys.exit(1)]. *)
Definition json_load (read_file : string -> Res string) (f : string) : Res json :=
  match read_file f with
  | Ok s => match loads s with Ok j => Ok j | Raise _ => Raise (SystemExit 1) end
  | Raise _ => Raise (SystemExit 1)
  end.

(** [for x in v]: the items of a list, the characters of a string, the keys
    of a dict; iterating anything else raises [TypeError]. *)
Definition iter_json (v : json) : Res (list json) :=
  match v with
  | JArr l => Ok l
  | JStr s => Ok (map (fun c => JStr (str1 c)) (String.list_ascii_of_string s))
  | JObj o => Ok (map (fun kv => JStr kv.1) o)
  | _ => Raise TypeError
  end.

(** The strings of [[x.strip() for x in ...]] before stripping; [strip] of
    anything but a string raises [AttributeError]. *)
Definition strs_for_strip (l : list json) : Res (list string) :=
  rfold (fun acc x => match x with JStr s => Ok (acc ++ [s]) | _ => Raise AttributeError end) [] l.

(** [title_case(info.get(k, ''))]: [re.sub] of a non-string raises
    [TypeError]. *)
Definition read_title (v : option json) : Res string :=
  match v with
  | None => Ok ""
  | Some (JStr s) => Ok s
  | Some _ => Raise TypeError
  end.

Definition str_of (v : json) : option string :=
  match v with JStr s => Some s | _ => None end.

(** [info.get(k, '')] stored as it is: typed when a string. *)
Definition read_stored (v : option json) : option string :=
  match v with None => Some "" | Some v => str_of v end.

Definition hashable (v : json) : bool :=
  match v with JArr _ | JObj _ => false | _ => true end.

(** Line 149, [set(j.get('references', []))]: an unhashable item raises
    [TypeError]; the set is typed when its items are strings. *)
Definition read_refs (v : option json) : Res (option (list string)) :=
  match v with
  | None => Ok (Some [])
  | Some v =>
      items <- iter_json v ;;
      if forallb hashable items then Ok (mapM str_of items) else Raise TypeError
  end.

Definition strs_of (v : json) : option (list string) :=
  match v with JArr l => mapM str_of l | _ => None end.

(** A section dictionary of the model: [text] a list of strings, an
    optional string [heading], no other key. *)
Definition read_section (v : json) : option section :=
  match v with
  | JObj o =>
      if forallb (fun k => String.eqb k "heading" || String.eqb k "text") (dict_keys o) then
        t ← dict_get o "text" ≫= strs_of;
        match dict_get o "heading" with
        | None => Some (mk_section None t)
        | Some h => hs ← str_of h; Some (mk_section (Some hs) t)
        end
      else None
  | _ => None
  end.

(** Line 150, [j.get('sections', [])], stored as it is. *)
Definition read_sections (v : option json) : option (list section) :=
  match v with
  | None => Some []
  | Some (JArr l) => mapM read_section l
  | Some _ => None
  end.

(** Line 138, ['id' in j['info']] with [j['info']] a dict: the id, if any. *)
Definition read_id (v : option json) : option (option string) :=
  match v with
  | None => Some None
  | Some (JStr i) => Some (Some i)
  | Some _ => None
  end.

Definition is_id_key (v : json) : bool :=
  match v with JStr s => String.eqb s "id" | _ => false end.

(** Lines 138-150 on the decoded record [j], in the order Python evaluates
    them: [j['info']] ([KeyError] if missing; [TypeError] if [j] is not a
    dict), then ['id' in info] and [info.get], which a list or a string
    answer with [TypeError] or [AttributeError], then the fields. *)
Definition jdoc_of_json (j : json) : Res (option jdoc) :=
  match j with
  | JObj o =>
      match dict_get o "info" with
      | None => Raise KeyError
      | Some (JObj io) =>
          raw <- (match dict_get io "authors" with None => Ok [] | Some a => iter_json a end) ;;
          auths <- strs_for_strip raw ;;
          ti <- read_title (dict_get io "title") ;;
          bk <- read_title (dict_get io "book") ;;
          refs <- read_refs (dict_get o "references") ;;
          Ok (i ← read_id (dict_get io "id");
              y ← read_stored (dict_get io "year");
              u ← read_stored (dict_get io "url");
              r ← refs;
              ss ← read_sections (dict_get o "sections");
              Some (mk_jdoc i auths ti bk y u r ss))
      | Some (JArr l) => if existsb is_id_key l then Raise TypeError else Raise AttributeError
      | Some (JStr s) => if str_contains "id" s then Raise TypeError else Raise AttributeError
      | Some _ => Raise TypeError
      end
  | _ => Raise TypeError
  end.

(** ** [Document(fname, form, text)] with its JSON reading *)

(** [json.load] of the file (lines 130-136) and lines 138-150 on the
    record: [Ok None] when a field has a type the model's [Document] has
    no value for. *)
Definition load_record (rf : string -> Res string) (f : string) : Res (option jdoc) :=
  j <- json_load rf f ;; jdoc_of_json j.

(** The constructor of lines 120-167 with [json.load] read from the file
    system [rf] rather than supplied as [load_json]. *)
Definition document_open (tok : string -> list string) (rf : string -> Res string)
    (fname form : option string) (text : string) : Res (option Document) :=
  match fname with
  | Some f =>
      if truthy f && bool_decide (resolve_form fname form = Some "json") then
        r <- load_record rf f ;;
        match r with
        | Some jd => d <- document_init tok rf (fun _ => Ok jd) fname form text ;; Ok (Some d)
        | None => Ok None
        end
      else d <- document_init tok rf (fun _ => Ok empty_jdoc) fname form text ;; Ok (Some d)
  | None => d <- document_init tok rf (fun _ => Ok empty_jdoc) fname form text ;; Ok (Some d)
  end.

(** ** Reading back what [Document.json] writes *)

(** The dictionary [json.loads] gives back for [doc.json()]: keys in order,
    the references as a sorted list, the sections as they are. *)
Definition doc_dict_sorted (i : string) (d : Document) (secs : list section) : json :=
  JObj [("info", JObj [("authors", JArr (map JStr (authors d))); ("book", JStr (book d));
                       ("id", JStr i); ("title", JStr (title d)); ("url", JStr (url d));
                       ("year", JStr (year d))]);
        ("references", JArr (map JStr (sorted_set (references d))));
        ("sections", JArr (map section_json secs))].

(** The record [Document.__init__] reads from it. *)
Definition jdoc_of_doc (i : string) (d : Document) (secs : list section) : jdoc :=
  mk_jdoc (Some i) (authors d) (title d) (book d) (year d) (url d) (sorted_set (references d)) secs.

Definition doc_sections (d : Document) (abstract : bool) : list section :=
  if abstract then take 1 (sections d) else sections d.

Lemma map_json_sort_strs l : map json_sort (map JStr l) = map JStr l.
Proof. induction l; simpl; f_equal; auto. Qed.

Lemma forallb_wf_strs l : forallb json_wf (map JStr l) = true.
Proof. induction l; simpl; auto. Qed.

Lemma section_json_wf s : json_wf (section_json s) = true.
Proof.
  destruct s as [[h|] t]; unfold section_json; simpl; by rewrite ?forallb_wf_strs.
Qed.

Lemma json_sort_section s : json_sort (section_json s) = section_json s.
Proof.
  destruct s as [[h|] t]; unfold section_json; simpl; rewrite map_json_sort_strs; reflexivity.
Qed.

Lemma doc_dict_ok d a i :
  id d = Some i -> (a = true -> sections d <> []) ->
  doc_dict d a = Ok (JObj [("info", JObj [("id", JStr i); ("authors", JArr (map JStr (authors d)));
                           ("title", JStr (title d)); ("year", JStr (year d));
                           ("book", JStr (book d)); ("url", JStr (url d))]);
            ("references", JArr (map JStr (sorted_set (references d))));
            ("sections", JArr (map section_json (doc_sections d a)))]).
Proof.
  intros Hi Hs. unfold doc_dict, doc_sections. rewrite Hi. simpl.
  destruct a; [|done]. destruct (sections d) as [|s0 ss]; [by destruct Hs|]. done.
Qed.

Lemma doc_dict_wf d a v : doc_dict d a = Ok v -> json_wf v = true.
Proof.
  unfold doc_dict. destruct (id d) as [i|]; [|done]. simpl.
  destruct (if a then _ else _) as [secs|e] eqn:Es; [|done]. intros [= <-]. simpl.
  rewrite !forallb_wf_strs. simpl.
  assert (Hsec : forallb json_wf (map section_json secs) = true).
  { apply forallb_forall. intros x (s & <- & _)%in_map_iff. apply section_json_wf. }
  by rewrite Hsec.
Qed.

Lemma json_sort_doc_dict i d secs :
  json_sort (JObj [("info", JObj [("id", JStr i); ("authors", JArr (map JStr (authors d)));
                           ("title", JStr (title d)); ("year", JStr (year d));
                           ("book", JStr (book d)); ("url", JStr (url d))]);
            ("references", JArr (map JStr (sorted_set (references d))));
            ("sections", JArr (map section_json secs))])
  = doc_dict_sorted i d secs.
Proof.
  assert (Hs : map json_sort (map section_json secs) = map section_json secs).
  { induction secs as [|x secs IH]; [done|]. cbn [map]. by rewrite json_sort_section, IH. }
  simpl. rewrite !map_json_sort_strs, Hs. reflexivity.
Qed.

Lemma strs_for_strip_map l : strs_for_strip (map JStr l) = Ok l.
Proof.
  unfold strs_for_strip. cut (forall acc, rfold (fun acc x => match x with
    | JStr s => Ok (acc ++ [s]) | _ => Raise AttributeError end) acc (map JStr l) = Ok (acc ++ l)).
  { intros H. apply H. }
  induction l as [|x l IH]; intros acc; simpl; [by rewrite app_nil_r|].
  rewrite IH. by rewrite <- app_assoc.
Qed.

Lemma mapM_str_of l : mapM str_of (map JStr l) = Some l.
Proof. induction l as [|x l IH]; simpl; [done|]. by rewrite IH. Qed.

Lemma forallb_hashable_strs l : forallb hashable (map JStr l) = true.
Proof. induction l; simpl; auto. Qed.

Lemma read_section_json s : read_section (section_json s) = Some s.
Proof. destruct s as [[h|] t]; simpl; by rewrite mapM_str_of. Qed.

Lemma mapM_read_section ss : mapM read_section (map section_json ss) = Some ss.
Proof. induction ss as [|s ss IH]; [done|]. cbn [map mapM]. by rewrite read_section_json, IH. Qed.

(** Lines 138-150 read from the dictionary [Document.json] writes exactly
    the fields it wrote. *)
Lemma jdoc_of_doc_dict i d secs :
  jdoc_of_json (doc_dict_sorted i d secs) = Ok (Some (jdoc_of_doc i d secs)).
Proof.
  simpl. rewrite strs_for_strip_map. simpl. rewrite forallb_hashable_strs, mapM_str_of.
  simpl. by rewrite mapM_read_section.
Qed.

(** ** [document_open] and [document_init] *)

(** [Document(fname, ...)] asks the loader for [fname] only. *)
Lemma document_init_loader tok rf lj lj' f form text :
  lj f = lj' f -> document_init tok rf lj (Some f) form text = document_init tok rf lj' (Some f) form text.
Proof. intros H. unfold document_init. cbv zeta. by rewrite H. Qed.

Lemma document_init_noload tok rf lj lj' fname form text :
  match fname with
  | Some f => truthy f && bool_decide (resolve_form fname form = Some "json")
  | None => false
  end = false ->
  document_init tok rf lj fname form text = document_init tok rf lj' fname form text.
Proof. intros H. unfold document_init. cbv zeta. destruct fname; [by rewrite H | done]. Qed.

(** The loader [lj] gives for [f] what [json.load] and lines 138-150 give,
    where the record fits the model's [Document]. *)
Definition loader_for (rf : string -> Res string) (lj : string -> Res jdoc) (f : string) : Prop :=
  match load_record rf f with
  | Ok (Some jd) => lj f = Ok jd
  | Ok None => True
  | Raise ex => lj f = Raise ex
  end.

(** [document_init] with a loader that reads the file as the code does is
    [document_open]: the same document or the same exception. *)
Lemma document_open_init tok rf lj fname form text :
  (forall f, fname = Some f -> loader_for rf lj f) ->
  match document_open tok rf fname form text with
  | Ok (Some d) => document_init tok rf lj fname form text = Ok d
  | Ok None => True
  | Raise ex => document_init tok rf lj fname form text = Raise ex
  end.
Proof.
  intros Hl. unfold document_open.
  destruct fname as [f|];
    [destruct (truthy f && bool_decide (resolve_form (Some f) form = Some "json")) eqn:Hc|].
  - specialize (Hl f eq_refl). unfold loader_for in Hl.
    destruct (load_record rf f) as [[jd|]|ex]; cbn [rbind]; [|done|].
    + rewrite (document_init_loader tok rf lj (fun _ => Ok jd) f form text Hl).
      by destruct (document_init _ _ _ _ _ _).
    + unfold document_init. cbv zeta. by rewrite Hc, Hl.
  - rewrite (document_init_noload tok rf lj (fun _ => Ok empty_jdoc) (Some f) form text Hc).
    by destruct (document_init _ _ _ _ _ _).
  - rewrite (document_init_noload tok rf lj (fun _ => Ok empty_jdoc) None form text eq_refl).
    by destruct (document_init _ _ _ _ _ _).
Qed.

(** The JSON form as the specification states it: a record with no id
    takes the file's base name without its extension; a file that is not
    JSON ends the process with status 1. *)
Example document_open_json :
  document_open (fun s => [s]) (fun _ => Ok ("{" +:+ str1 DQ +:+ "info" +:+ str1 DQ +:+ ": {}}"))
    (Some "acl/P15-1001.json") None ""
  = Ok (Some (mk_document (Some "P15-1001") [] "" "" "" "" ∅ [] None))
  /\ document_open (fun s => [s]) (fun _ => Ok "Plain text.") (Some "acl/P15-1001.json") None ""
     = Raise (SystemExit 1).
Proof. split; vm_compute; reflexivity. Qed.

(** ** Properties *)

(** C35: what [Document.json] builds is well typed for the reader: a
    well-formed JSON value (no duplicate key, no float), from which lines
    138-150 read back the record of the document itself: its own id, its
    authors, title, book, year and url, its sorted references, and the
    sections written (the first one for an abstract, all otherwise). *)
Theorem doc_dict_typed d a v :
  doc_dict d a = Ok v ->
  json_wf v = true /\ exists i, id d = Some i
    /\ jdoc_of_json v = Ok (Some (jdoc_of_doc i d (doc_sections d a))).
Proof.
  intros Hv. split; [by apply (doc_dict_wf d a)|].
  destruct (id d) as [i|] eqn:Hi; [|by unfold doc_dict in Hv; rewrite Hi in Hv].
  assert (Ha : a = true -> sections d <> []).
  { intros -> E. unfold doc_dict in Hv. rewrite Hi, E in Hv. discriminate. }
  rewrite (doc_dict_ok d a i Hi Ha) in Hv. injection Hv as <-. exists i. split; [done|].
  simpl. rewrite strs_for_strip_map. simpl. rewrite forallb_hashable_strs, mapM_str_of.
  simpl. by rewrite mapM_read_section.
Qed.

(** The text [Document.json] returns, followed by a newline, decodes to
    the dictionary it printed. *)
Lemma doc_json_loads d a i s :
  id d = Some i -> doc_json d a = Ok s ->
  loads (s +:+ NL) = Ok (doc_dict_sorted i d (doc_sections d a)).
Proof.
  intros Hi Hs. unfold doc_json in Hs. apply rbind_ok in Hs as (v & Hv & [= <-]).
  assert (Ha : a = true -> sections d <> []).
  { intros -> E. unfold doc_dict in Hv. rewrite Hi, E in Hv. discriminate. }
  pose proof (doc_dict_wf d a v Hv) as Hwf.
  rewrite (doc_dict_ok d a i Hi Ha) in Hv. injection Hv as <-.
  rewrite loads_dumps by done. by rewrite json_sort_doc_dict.
Qed.

(** C5: round trip of the JSON form.  The text [Document.json] returns,
    followed by the newline [export] writes, decodes ([json.loads]) to the
    dictionary it printed: the same id, authors, title, year, book and
    url, the references as a sorted list, and the sections (all of them,
    or the first one for an abstract). *)
Theorem doc_json_roundtrip d a i s :
  id d = Some i -> doc_json d a = Ok s ->
  loads (s +:+ NL) = Ok (doc_dict_sorted i d (doc_sections d a)).
Proof. apply doc_json_loads. Qed.

(** C28: the errors of [Document.json]: [AttributeError] exactly when
    [self.id] was never set, [IndexError] for the abstract of a document
    with an id and no section, and no other. *)
Theorem doc_json_errors d :
  (forall a, doc_json d a = Raise AttributeError <-> id d = None) /\
  (doc_json d true = Raise IndexError <-> is_Some (id d) /\ sections d = []) /\
  (forall a e, doc_json d a = Raise e -> e = AttributeError \/ e = IndexError).
Proof.
  unfold doc_json, doc_dict. destruct (id d) as [i|]; simpl.
  - destruct (sections d) as [|s0 ss]; split_and!; intros; try (destruct a); simpl in *;
      try naive_solver.
  - split_and!; intros; naive_solver.
Qed.

(** Export then import.  The file [export] writes for a document with
    an id, read back by [Document(fname)] with the JSON form, gives
    [json.load] a record whose fields are the document's, and the
    constructor rebuilds the document up to what it applies to them: the
    authors are stripped and the title and book go through [title_case]
    again; the back-reference is [None] until the document is added to a
    corpus. *)
Theorem json_reimport tok rf d i s f :
  id d = Some i -> doc_json d false = Ok s -> truthy f = true ->
  exists j jd, json_load (fun _ => Ok (s +:+ NL)) f = Ok j /\ jdoc_of_json j = Ok (Some jd) /\
    document_init tok rf (fun _ => Ok jd) (Some f) (Some "json") "" =
      Ok (mk_document (Some i) (map py_strip (authors d)) (title_case (title d))
            (title_case (book d)) (year d) (url d) (references d) (sections d) None).
Proof.
  intros Hi Hs Hf. pose proof (doc_json_loads d false i s Hi Hs) as Hl.
  exists (doc_dict_sorted i d (sections d)), (jdoc_of_doc i d (sections d)). split_and!.
  - unfold json_load. by rewrite Hl.
  - apply jdoc_of_doc_dict.
  - unfold document_init, resolve_form, file_given. rewrite Hf. simpl.
    unfold doc_fields. simpl. by rewrite list_to_set_sorted_set.
Qed.

(** A record as [json.load] gives it for a file of the corpus. *)
Definition graph_record : jdoc :=
  mk_jdoc (Some "P15-1001") ["Ann Lee "] "Graphs And And Trees" "" "2015" "" ["P14-2002"]
    [mk_section (Some "Abstract") ["We study graphs."]].

Definition graph_doc : Document :=
  mk_document (Some "P15-1001") ["Ann Lee"] "Graphs and And Trees" "" "2015" ""
    {["P14-2002"]} [mk_section (Some "Abstract") ["We study graphs."]] None.

Lemma graph_doc_init :
  document_init (fun s => [s]) (fun _ => Raise KeyError) (fun _ => Ok graph_record)
    (Some "P15-1001.json") None "" = Ok graph_doc.
Proof. vm_compute. reflexivity. Qed.

Lemma doc_json_roundtrip_witness :
  loads (res_get "" (doc_json graph_doc false) +:+ NL)
  = Ok (doc_dict_sorted "P15-1001" graph_doc (doc_sections graph_doc false)).
Proof.
  apply (doc_json_roundtrip graph_doc false "P15-1001"); [reflexivity | vm_compute; reflexivity].
Defined.

Lemma json_reimport_witness :
  exists j jd, json_load (fun _ => Ok (res_get "" (doc_json graph_doc false) +:+ NL)) "P15-1001.json" = Ok j
    /\ jdoc_of_json j = Ok (Some jd) /\
    document_init (fun s => [s]) (fun _ => Raise KeyError) (fun _ => Ok jd) (Some "P15-1001.json")
      (Some "json") ""
    = Ok (mk_document (Some "P15-1001") (map py_strip (authors graph_doc)) (title_case (title graph_doc))
            (title_case (book graph_doc)) (year graph_doc) (url graph_doc) (references graph_doc)
            (sections graph_doc) None).
Proof.
  apply (json_reimport (fun s => [s]) (fun _ => Raise KeyError) graph_doc "P15-1001");
    [reflexivity | vm_compute; reflexivity | reflexivity].
Defined.

(** Exporting to JSON and importing again changes a title.  The
    constructor makes "Graphs and And Trees" of "Graphs And And Trees"
    ([title_case] does not lower the second "And": the letter before it was
    consumed by the first match); the exported record, read back, goes
    through [title_case] again and becomes "Graphs and and Trees". *)
Example json_reimport_changes_title :
  title graph_doc = title_case "Graphs And And Trees" /\
  exists s j jd, doc_json graph_doc false = Ok s /\
    json_load (fun _ => Ok (s +:+ NL)) "P15-1001.json" = Ok j /\ jdoc_of_json j = Ok (Some jd) /\
    document_init (fun s => [s]) (fun _ => Raise KeyError) (fun _ => Ok jd)
      (Some "P15-1001.json") None ""
    = Ok (mk_document (Some "P15-1001") ["Ann Lee"] "Graphs and and Trees" "" "2015" ""
            {["P14-2002"]} [mk_section (Some "Abstract") ["We study graphs."]] None).
Proof.
  split; [vm_compute; reflexivity|].
  pose (s := res_get "" (doc_json graph_doc false)).
  pose (j := res_get JNull (json_load (fun _ => Ok (s +:+ NL)) "P15-1001.json")).
  exists s, j, (default empty_jdoc (res_get None (jdoc_of_json j))).
  split_and!; vm_compute; reflexivity.
Qed.

Lemma doc_dict_typed_witness :
  json_wf (res_get JNull (doc_dict graph_doc true)) = true /\
  exists i, id graph_doc = Some i /\ jdoc_of_json (res_get JNull (doc_dict graph_doc true))
    = Ok (Some (jdoc_of_doc i graph_doc (doc_sections graph_doc true))).
Proof. apply (doc_dict_typed graph_doc true). vm_compute. reflexivity. Defined.
