(* ===== verification/Bigrams.v ===== *)
(** * [Document.bigrams]: word-pair features

    Models lines 264-317 of corpus.py.  [re_split] is
    [re.split(r'[^a-zA-Z0-9_#-]+', s)]: the pieces between maximal runs of
    characters outside [a-zA-Z0-9_#-], with an empty first (last) piece
    when [s] starts (ends) with such a run.  The stop-word lexicon is an
    external collaborator: it is the membership test [stop], a variable of
    the section. *)

From S2P Require Import Prelude TitleCase Document.

(** ** Tokenising *)

(** A character of the class [a-zA-Z0-9_#-]. *)
Definition is_word_char (c : ascii) : bool :=
  is_alnum c || Ascii.eqb c "_" || Ascii.eqb c "#" || Ascii.eqb c "-".

Definition starts_with_sep (s : string) : bool :=
  match s with
  | EmptyString => false
  | String c _ => negb (is_word_char c)
  end.

(** The first piece and the remaining pieces. *)
Fixpoint re_split_aux (s : string) : string * list string :=
  match s with
  | EmptyString => (EmptyString, [])
  | String c r =>
      let '(p, ps) := re_split_aux r in
      if is_word_char c then (String c p, ps)
      else if starts_with_sep r then (p, ps)
      else (EmptyString, p :: ps)
  end.

Definition re_split (s : string) : list string :=
  let '(p, ps) := re_split_aux s in p :: ps.

Section Bigrams.
  (** [x in stop] for the stop-word lexicon. *)
Variable stop : string -> bool.

  (** The filter of lines 275-276. *)
Definition keep_token (x : string) : bool :=
    (0 <? String.length x) && negb (stop x) && negb (stop (str_lower x))
    && str_existsb is_alnum x
    && negb (starts_digit x).

  (** [words] (lines 272-277): the pieces of the split that pass the filter. *)
Definition sent_words (s : string) : list string :=
    filter (fun x => keep_token x = true) (re_split s).

  (** [good_word] (lines 265-268). *)
Definition good_word (w : string) : bool :=
    if str_has "_" w && negb (str_has "#" w) then false
    else str_existsb is_alpha w.

Definition is_hashtag (w : string) : bool :=
    match str_head w, str_last w with
    | Some a, Some b => Ascii.eqb a "#" && Ascii.eqb b "#"
    | _, _ => false
    end.

  (** The body of the [for w1, w2 in bigrams(words)] loop (lines 279-282). *)
Definition pair_lines (ret : string) (p : string * string) : string :=
    let '(w1, w2) := p in
    let ret := if good_word w1 && good_word w2
               then ret +:+ str_lower w1 +:+ "_" +:+ str_lower w2 +:+ NL else ret in
    if is_hashtag w1 && good_word w1 then ret +:+ w1 +:+ NL else ret.

  (** [nltk.bigrams(words)]: the pairs of consecutive words. *)
Definition adjacent_pairs (l : list string) : list (string * string) :=
    combine l (tail l).

  (** [bigrams_from_sent] (lines 270-286). *)
Definition bigrams_from_sent (s : string) : string :=
    let words := sent_words s in
    let ret := fold_left pair_lines (adjacent_pairs words) "" in
    match last words with
    | Some w => if is_hashtag w && good_word w then ret +:+ w +:+ NL else ret
    | None => ret
    end.

Definition author_feats (out a : string) : string :=
    if String.eqb a "Wikipedia" then out else out +:+ bigrams_from_sent a.

Definition sect_feats (out : string) (s : section) : string :=
    let out := match heading s with
               | Some h => if truthy h then out +:+ bigrams_from_sent h else out
               | None => out
               end in
    fold_left (fun out sent => out +:+ bigrams_from_sent sent) (sect_text s) out.

Context {S : Type} `{DocStore S}.

  (** One referenced id (lines 308-315). *)
Definition ref_feats (store : option S) (out ref_id : string) : Res string :=
    match store with
    | None => Raise TypeError
    | Some s =>
        match store_get s ref_id with
        | None => Ok out
        | Some r => Ok (fold_left author_feats (authors r) out +:+ bigrams_from_sent (title r))
        end
    end.

  (** [Document.bigrams(abstract, stop)] (lines 264-317). *)
Definition bigrams (store : option S) (d : Document) (abstract : bool) : Res string :=
    let out := bigrams_from_sent (title d) in
    let out := out +:+ bigrams_from_sent (title d) in
    let out := fold_left author_feats (authors d) out in
    let out := out +:+ bigrams_from_sent (book d) in
    out <- (if abstract
            then (a <- get_abstract d ;;
                  Ok (fold_left (fun out sent => out +:+ bigrams_from_sent sent) a out))
            else Ok (fold_left sect_feats (sections d) out)) ;;
    rfold (ref_feats store) out (sorted_set (references d)).
End Bigrams.

(** ** A reference: the feature lines as a list *)

(** The text of newline-terminated lines. *)
Definition unlines (l : list string) : string := foldr (fun x acc => x +:+ NL +:+ acc) "" l.

Section Reference.
Variable stop : string -> bool.

Definition pair_feats (p : string * string) : list string :=
    let '(w1, w2) := p in
    (if good_word w1 && good_word w2 then [str_lower w1 +:+ "_" +:+ str_lower w2] else [])
    ++ (if is_hashtag w1 && good_word w1 then [w1] else []).

Definition sent_lines (s : string) : list string :=
    flat_map pair_feats (adjacent_pairs (sent_words stop s))
    ++ match last (sent_words stop s) with
       | Some w => if is_hashtag w && good_word w then [w] else []
       | None => []
       end.
End Reference.

(** ** The conditions of [bigrams_from_sent], written out

    The code's tests on a token, stated on its characters: [kept_token] is
    the condition of lines 275-276, [feature_word] that of [good_word]
    (lines 265-268), [hashtag] that of [w[0] == '#' and w[-1] == '#']. *)

Definition kept_token (stop : string -> bool) (x : string) : Prop :=
  x <> "" /\ stop x = false /\ stop (str_lower x) = false
  /\ (exists c, c ∈ String.list_ascii_of_string x /\ is_alnum c = true)
  /\ forall c, String.get 0 x = Some c -> is_digit c = false.

Definition feature_word (w : string) : Prop :=
  ("_"%char ∈ String.list_ascii_of_string w -> "#"%char ∈ String.list_ascii_of_string w)
  /\ exists c, c ∈ String.list_ascii_of_string w /\ is_alpha c = true.

Definition hashtag (w : string) : Prop :=
  String.get 0 w = Some "#"%char /\ String.get (String.length w - 1) w = Some "#"%char.

(** A piece of the split: characters of [a-zA-Z0-9_#-] only; a separator:
    a non-empty run of characters outside the class. *)
Definition word_piece (p : string) : Prop :=
  forall c, c ∈ String.list_ascii_of_string p -> is_word_char c = true.

Definition sep_run (r : string) : Prop :=
  r <> "" /\ forall c, c ∈ String.list_ascii_of_string r -> is_word_char c = false.

Lemma unlines_app l1 l2 : unlines (l1 ++ l2) = unlines l1 +:+ unlines l2.
Proof. induction l1 as [|x l1 IH]; simpl; [done|]. by rewrite IH, !str_app_assoc. Qed.

Lemma pair_lines_unlines ret p : pair_lines ret p = ret +:+ unlines (pair_feats p).
Proof.
  destruct p as [w1 w2]. unfold pair_lines, pair_feats.
  destruct (good_word w1 && good_word w2), (is_hashtag w1 && good_word w1);
    simpl; by autorewrite with pyrw.
Qed.

Lemma fold_pair_lines ps ret :
  fold_left pair_lines ps ret = ret +:+ unlines (flat_map pair_feats ps).
Proof.
  revert ret; induction ps as [|p ps IH]; intros ret; simpl; [by rewrite str_app_nil_r|].
  by rewrite IH, pair_lines_unlines, unlines_app, str_app_assoc.
Qed.

Lemma elem_of_adjacent_pairs w1 w2 l :
  (w1, w2) ∈ adjacent_pairs l -> w1 ∈ l /\ w2 ∈ l.
Proof.
  unfold adjacent_pairs. destruct l as [|x l]; simpl; [set_solver|].
  revert x; induction l as [|y l IH]; intros x; simpl; [set_solver|].
  intros [[= -> ->] | H]%elem_of_cons; [set_solver|].
  apply IH in H. set_solver.
Qed.

Lemma elem_of_flat_map {A B} (f : A -> list B) l x :
  x ∈ flat_map f l <-> exists y, x ∈ f y /\ y ∈ l.
Proof.
  rewrite list_elem_of_In, in_flat_map. split.
  - intros (y & Hy & Hx). exists y. split; by apply list_elem_of_In.
  - intros (y & Hx & Hy). exists y. split; by apply list_elem_of_In.
Qed.

(** Every word but the last is the left element of a pair. *)
Lemma adjacent_pairs_left (l : list string) w :
  w ∈ l -> last l = Some w \/ exists w2, (w, w2) ∈ adjacent_pairs l.
Proof.
  unfold adjacent_pairs. induction l as [|x l IH]; [set_solver|].
  intros [-> | Hw]%elem_of_cons.
  - destruct l as [|y l]; [by left | right; exists y; simpl; left].
  - destruct l as [|y l]; [set_solver|].
    destruct (IH Hw) as [Hl | [w2 Hp]]; [left; by rewrite last_cons, Hl|].
    right. exists w2. simpl. by right.
Qed.

(** ** [re.split] *)

(** The two conditions, checked character by character. *)
Lemma word_piece_of_b p : forallb is_word_char (String.list_ascii_of_string p) = true -> word_piece p.
Proof. intros H c Hc. rewrite forallb_forall in H. apply H. by apply list_elem_of_In. Qed.

Lemma sep_run_of_b r :
  negb (String.eqb r "") && forallb (fun c => negb (is_word_char c)) (String.list_ascii_of_string r) = true ->
  sep_run r.
Proof.
  intros [Hne H]%andb_true_iff. split; [by intros ->|]. intros c Hc.
  rewrite forallb_forall in H. apply negb_true_iff, H. by apply list_elem_of_In.
Qed.

Lemma removelast_cons2 {A} (x : A) l :
  removelast (x :: l) = match l with [] => [] | _ => x :: removelast l end.
Proof. by destruct l. Qed.

Lemma removelast_Forall_tail {A} (P : A -> Prop) x l :
  Forall P (removelast (x :: l)) -> Forall P (removelast l).
Proof.
  rewrite removelast_cons2. destruct l as [|y l]; [done|]. by intros [_ ?]%Forall_cons.
Qed.

(** The interior pieces do not depend on the first separator. *)
Lemma removelast_sep_irrel (a b p : string) (tl : list (string * string)) :
  Forall (fun rp => rp.2 <> "") (removelast ((a, p) :: tl)) ->
  Forall (fun rp => rp.2 <> "") (removelast ((b, p) :: tl)).
Proof. rewrite !removelast_cons2. destruct tl; [done|]. by intros [? ?]%Forall_cons; constructor. Qed.

(** A run of separators is first met at its first character. *)
Lemma starts_with_sep_run r1 p1 rest :
  sep_run r1 -> starts_with_sep (r1 +:+ p1 +:+ rest) = true.
Proof.
  intros [Hne Hr]. destruct r1 as [|a r1]; [done|]. rewrite str_app_cons. cbn.
  rewrite (Hr a); [done|]. by left.
Qed.

Lemma re_split_aux_spec s :
  exists tl, re_split_aux s = ((re_split_aux s).1, map snd tl)
    /\ s = (re_split_aux s).1 +:+ foldr (fun rp acc => rp.1 +:+ rp.2 +:+ acc) "" tl
    /\ word_piece (re_split_aux s).1 /\ Forall (fun rp => sep_run rp.1 /\ word_piece rp.2) tl
    /\ Forall (fun rp => rp.2 <> "") (removelast tl).
Proof.
  induction s as [|c r IH].
  { exists []. split_and!; [done|done| by intros ? ?%not_elem_of_nil | done | done]. }
  cbn [re_split_aux]. destruct IH as (tl & Heq & Hr & Hp0 & Htl & Hin).
  destruct (re_split_aux r) as [p0 ps]. cbn [fst] in Hr, Hp0. injection Heq as ->.
  destruct (is_word_char c) eqn:Hc; [|destruct (starts_with_sep r) eqn:Hs].
  - exists tl. cbn [fst]. split_and!; [done| by rewrite str_app_cons, <- Hr | |done|done].
    intros d [->|Hd]%elem_of_cons; [done | by apply Hp0].
  - destruct p0 as [|a p0].
    2:{ rewrite Hr, str_app_cons in Hs. cbn in Hs. rewrite (Hp0 a) in Hs; [done|]. by left. }
    destruct tl as [|[r1 p1] tl]; [rewrite Hr in Hs; by rewrite str_app_nil in Hs|].
    apply Forall_cons in Htl as [[[Hne Hr1] Hp1] Htl'].
    exists ((String c r1, p1) :: tl). cbn [fst map snd foldr]. split_and!; [done| |done| |].
    + rewrite Hr, !str_app_nil. simpl. by rewrite str_app_cons.
    + constructor; [|done]. split; [|done]. split; [done|].
      intros d [->|Hd]%elem_of_cons; [done | by apply Hr1].
    + by apply (removelast_sep_irrel r1).
  - exists ((String c "", p0) :: tl). cbn [fst map snd foldr]. split_and!; [done| | | |].
    + rewrite str_app_nil, str_app_cons, str_app_nil. by rewrite <- Hr.
    + by intros ? ?%not_elem_of_nil.
    + constructor; [|done]. split; [|done]. split; [done|].
      by intros d [->|?%not_elem_of_nil]%elem_of_cons.
    + rewrite removelast_cons2. destruct tl as [|[r1 p1] tl]; [done|]. constructor; [|done].
      simpl. intros ->. apply Forall_cons in Htl as [[Hsep _] _].
      rewrite Hr, str_app_nil in Hs. cbn [foldr fst snd] in Hs.
      by rewrite starts_with_sep_run in Hs.
Qed.

(** A non-empty piece is not a separator. *)
Lemma starts_with_sep_piece a p rest :
  word_piece (String a p) -> starts_with_sep (String a p +:+ rest) = false.
Proof. intros Hp. rewrite str_app_cons. cbn. rewrite (Hp a); [done|]. by left. Qed.

(** Every decomposition into maximal runs is the one [re_split] finds. *)
Lemma re_split_aux_unique s : forall p0 tl,
  s = p0 +:+ foldr (fun rp acc => rp.1 +:+ rp.2 +:+ acc) "" tl ->
  word_piece p0 -> Forall (fun rp => sep_run rp.1 /\ word_piece rp.2) tl ->
  Forall (fun rp => rp.2 <> "") (removelast tl) ->
  re_split_aux s = (p0, map snd tl).
Proof.
  induction s as [|c r IH]; intros p0 tl Hs Hp0 Htl Hin.
  - destruct p0 as [|a p0]; [|by rewrite str_app_cons in Hs].
    destruct tl as [|[[|a r1] p1] tl]; [done| |].
    + apply Forall_cons in Htl as [[[Hne _] _] _]. done.
    + rewrite str_app_nil in Hs. cbn [foldr fst snd] in Hs. by rewrite str_app_cons in Hs.
  - cbn [re_split_aux]. destruct p0 as [|a p0].
    + rewrite str_app_nil in Hs. destruct tl as [|[r1 p1] tl]; [done|].
      apply Forall_cons in Htl as [[[Hne Hr1] Hp1] Htl']. cbn [foldr fst snd] in Hs.
      destruct r1 as [|a r1]; [done|]. rewrite str_app_cons in Hs. injection Hs as <- Hr.
      rewrite (Hr1 c) by (by left). cbn [map snd].
      assert (Hr1' : forall d, d ∈ String.list_ascii_of_string r1 -> is_word_char d = false)
        by (intros d Hd; apply Hr1; by right).
      destruct r1 as [|b r1].
      * rewrite str_app_nil in Hr. rewrite (IH p1 tl Hr Hp1 Htl');
          [|by apply removelast_Forall_tail in Hin].
        destruct p1 as [|b p1].
        -- destruct tl as [|rp tl]; [by rewrite Hr|].
           rewrite removelast_cons2 in Hin. by apply Forall_cons in Hin as [? _].
        -- rewrite Hr, starts_with_sep_piece by done. done.
      * rewrite (IH "" ((String b r1, p1) :: tl)).
        -- rewrite Hr, starts_with_sep_run; [done|]. by split.
        -- by rewrite str_app_nil.
        -- by intros ? ?%not_elem_of_nil.
        -- constructor; [|done]. split; [|done]. by split.
        -- by apply (removelast_sep_irrel (String c (String b r1))).
    + rewrite str_app_cons in Hs. injection Hs as <- Hr.
      rewrite (Hp0 c) by (by left). rewrite (IH p0 tl Hr); [done| |done|done].
      intros d Hd. apply Hp0. by right.
Qed.

(** ** The tests on tokens *)

Lemma str_existsb_iff p s :
  str_existsb p s = true <-> exists c, c ∈ String.list_ascii_of_string s /\ p c = true.
Proof.
  induction s as [|c s IH]; simpl.
  - split; [done|]. intros (c & Hc & _). by apply not_elem_of_nil in Hc.
  - rewrite orb_true_iff, IH. split.
    + intros [H|(d & Hd & H)]; [exists c | exists d]; split; set_solver.
    + intros (d & [->|Hd]%elem_of_cons & H); [by left | right; by exists d].
Qed.

Lemma str_has_iff c s : str_has c s = true <-> c ∈ String.list_ascii_of_string s.
Proof.
  unfold str_has. rewrite str_existsb_iff. split.
  - intros (d & Hd & H%Ascii.eqb_eq). by subst.
  - intros H. exists c. split; [done | apply Ascii.eqb_refl].
Qed.

Lemma str_head_get s : str_head s = String.get 0 s.
Proof. by destruct s. Qed.

Lemma str_last_get s : str_last s = String.get (String.length s - 1) s.
Proof.
  induction s as [|c [|d r] IH]; [done|done|]. cbn [str_last] in *. rewrite IH.
  cbn [String.length]. by rewrite !Nat.sub_succ, !Nat.sub_0_r.
Qed.

Lemma keep_token_iff stop x : keep_token stop x = true <-> kept_token stop x.
Proof.
  unfold keep_token, kept_token, starts_digit. rewrite str_head_get.
  destruct x as [|a x].
  - split; [done|]. by intros [? _].
  - rewrite !andb_true_iff, !negb_true_iff, str_existsb_iff. cbn [String.get String.length].
    split.
    + intros ((((_ & H1) & H2) & H3) & H4). split_and!; [done|done|done|done|]. by intros c [= <-].
    + intros (_ & H1 & H2 & H3 & H4). split_and!; [apply Nat.ltb_lt; lia|done|done|done|by apply H4].
Qed.

Lemma good_word_iff w : good_word w = true <-> feature_word w.
Proof.
  unfold good_word, feature_word. rewrite <- !str_has_iff.
  destruct (str_has "_" w), (str_has "#" w); simpl;
    first [ split; [done | intros [Hx _]; by specialize (Hx eq_refl)]
          | rewrite str_existsb_iff; split; [intros Hx; split; [by intros ? | exact Hx] | by intros [_ Hx]] ].
Qed.

Lemma is_hashtag_iff w : is_hashtag w = true <-> hashtag w.
Proof.
  unfold is_hashtag, hashtag. rewrite str_head_get, str_last_get.
  destruct (String.get 0 w) as [a|], (String.get _ w) as [b|];
    try (split; [done | by intros [? ?]]).
  rewrite andb_true_iff, !Ascii.eqb_eq. split; [by intros [-> ->] | by intros [[= ->] [= ->]]].
Qed.

(** [nltk.bigrams]: the pairs are the words that stand next to each other. *)
Lemma adjacent_pairs_iff (l : list string) w1 w2 :
  (w1, w2) ∈ adjacent_pairs l <-> exists pre post, l = pre ++ w1 :: w2 :: post.
Proof.
  unfold adjacent_pairs. induction l as [|x l IH].
  - split; [by intros ?%not_elem_of_nil | intros ([|? ?] & ? & ?); discriminate].
  - destruct l as [|y l].
    + split; [by intros ?%not_elem_of_nil | intros ([|? [|? ?]] & ? & ?); discriminate].
    + cbn [tail combine] in *. rewrite elem_of_cons, IH. split.
      * intros [[= -> ->] | (pre & post & ->)]; [by exists [], l | by exists (x :: pre), post].
      * intros ([|z pre] & post & H); simpl in H; injection H as -> H; [subst; by left|].
        right. by exists pre, post.
Qed.

Section Features.
Variable stop : string -> bool.

  (** The code's accumulation into a string is the list of feature
      lines of the reference, each followed by a newline. *)
Lemma bigrams_from_sent_lines s :
    bigrams_from_sent stop s = unlines (sent_lines stop s).
  Proof.
    unfold bigrams_from_sent, sent_lines. fold (sent_words stop s).
    rewrite fold_pair_lines, unlines_app. simpl.
    destruct (last (sent_words stop s)) as [w|]; [|by rewrite str_app_nil_r].
    destruct (is_hashtag w && good_word w); simpl; by autorewrite with pyrw.
  Qed.

  (** Soundness of the features: a line is either the lower-cased pair
      of two adjacent kept tokens that are both good words, or a kept
      [#...#] token that is a good word.  A kept token is not a stop word
      (as given or lower-cased), has an alphanumeric character and does
      not start with a digit. *)
Lemma sent_lines_sound s x :
    x ∈ sent_lines stop s ->
    (exists w1 w2, (w1, w2) ∈ adjacent_pairs (sent_words stop s)
       /\ keep_token stop w1 = true /\ keep_token stop w2 = true
       /\ good_word w1 = true /\ good_word w2 = true
       /\ x = str_lower w1 +:+ "_" +:+ str_lower w2)
    \/ (exists w, w ∈ sent_words stop s /\ keep_token stop w = true
       /\ is_hashtag w = true /\ good_word w = true /\ x = w).
  Proof.
    assert (Hkeep : forall w, w ∈ sent_words stop s -> keep_token stop w = true).
    { intros w Hw. by apply list_elem_of_filter in Hw as [? _]. }
    unfold sent_lines. intros [Hx | Hx]%elem_of_app.
    - apply elem_of_flat_map in Hx as [[w1 w2] [Hx Hp]].
      pose proof (elem_of_adjacent_pairs _ _ _ Hp) as [H1 H2].
      unfold pair_feats in Hx. apply elem_of_app in Hx as [Hx|Hx].
      + destruct (good_word w1 && good_word w2) eqn:G; [|by apply not_elem_of_nil in Hx].
        apply list_elem_of_singleton in Hx as ->. apply andb_true_iff in G as [G1 G2].
        left. exists w1, w2. split_and!; auto.
      + destruct (is_hashtag w1 && good_word w1) eqn:G; [|by apply not_elem_of_nil in Hx].
        apply list_elem_of_singleton in Hx as ->. apply andb_true_iff in G as [G1 G2].
        right. exists w1. split_and!; auto.
    - destruct (last (sent_words stop s)) as [w|] eqn:Hl; [|by apply not_elem_of_nil in Hx].
      destruct (is_hashtag w && good_word w) eqn:G; [|by apply not_elem_of_nil in Hx].
      apply list_elem_of_singleton in Hx as ->. apply andb_true_iff in G as [G1 G2].
      pose proof (last_Some_elem_of _ _ Hl). right. exists w. split_and!; auto.
  Qed.

  (** Completeness: every pair of adjacent good tokens gives its line,
      and every good [#...#] token is passed through, the last one included. *)
Lemma sent_lines_complete s :
    (forall w1 w2, (w1, w2) ∈ adjacent_pairs (sent_words stop s) ->
       good_word w1 = true -> good_word w2 = true ->
       str_lower w1 +:+ "_" +:+ str_lower w2 ∈ sent_lines stop s)
    /\ (forall w, w ∈ sent_words stop s -> is_hashtag w = true -> good_word w = true ->
       w ∈ sent_lines stop s).
  Proof.
    unfold sent_lines. split.
    - intros w1 w2 Hp G1 G2. apply elem_of_app. left.
      apply elem_of_flat_map. exists (w1, w2). split; [|done].
      unfold pair_feats. rewrite G1, G2. set_solver.
    - intros w Hw Hh G. apply elem_of_app.
      destruct (adjacent_pairs_left _ _ Hw) as [Hl | [w2 Hp]].
      + right. rewrite Hl, Hh, G. set_solver.
      + left. apply elem_of_flat_map. exists (w, w2). split; [|done].
        unfold pair_feats. rewrite Hh, G. destruct (_ && _); set_solver.
  Qed.
  (** C24: what [bigrams_from_sent] returns, stated on the words of the
      sentence.  The filter of lines 275-276 keeps exactly the pieces of
      the split that are non-empty, not a stop word as given or
      lower-cased, have a character of [a-zA-Z0-9] and do not start with
      a digit; and the result is a sequence of newline-terminated lines
      [L] such that: every line is either [w1.lower() + '_' +
      w2.lower()] for two kept words standing next to each other that
      are both feature words, or a kept feature word of the form
      [#...#]; every such pair gives its line; and every kept [#...#]
      feature word, the last one included, is a line.  A feature word
      has a letter, and has no ['_'] unless it has a ['#']. *)
Theorem bigrams_from_sent_spec s :
    (forall x, keep_token stop x = true <-> kept_token stop x)
    /\ exists L, bigrams_from_sent stop s = unlines L
      /\ (forall x, x ∈ L ->
            (exists pre w1 w2 post, sent_words stop s = pre ++ w1 :: w2 :: post
               /\ feature_word w1 /\ feature_word w2 /\ x = str_lower w1 +:+ "_" +:+ str_lower w2)
            \/ (x ∈ sent_words stop s /\ hashtag x /\ feature_word x))
      /\ (forall pre w1 w2 post, sent_words stop s = pre ++ w1 :: w2 :: post ->
            feature_word w1 -> feature_word w2 -> str_lower w1 +:+ "_" +:+ str_lower w2 ∈ L)
      /\ (forall w, w ∈ sent_words stop s -> hashtag w -> feature_word w -> w ∈ L).
  Proof.
    split; [apply keep_token_iff|]. exists (sent_lines stop s). split_and!.
    - apply bigrams_from_sent_lines.
    - intros x Hx.
      destruct (sent_lines_sound s x Hx) as [(w1 & w2 & Hp & _ & _ & G1 & G2 & ->) | (w & Hw & _ & Hh & G & ->)].
      + left. apply adjacent_pairs_iff in Hp as (pre & post & Hl).
        exists pre, w1, w2, post. by rewrite <- !good_word_iff.
      + right. by rewrite <- is_hashtag_iff, <- good_word_iff.
    - intros pre w1 w2 post Hl G1 G2. apply (proj1 (sent_lines_complete s)); [| by apply good_word_iff ..].
      apply adjacent_pairs_iff. eauto.
    - intros w Hw Hh G. apply (proj2 (sent_lines_complete s)); [done | by apply is_hashtag_iff | by apply good_word_iff].
  Qed.
End Features.

(** C25: [re.split(r'[^a-zA-Z0-9_#-]+', s)] on every string.  A
    decomposition of [s] is a first piece followed by (separator, piece)
    pairs, where the pieces hold characters of the class only, each
    separator is a non-empty run of characters outside it, and every
    piece between two separators is non-empty (the runs are maximal, as
    [+] is greedy); only the first and the last piece can be empty, when
    [s] starts or ends with a separator.  [s] has such a decomposition,
    and for every one of them the split returns exactly its pieces. *)
Theorem re_split_spec s :
  (exists p0 tl, s = p0 +:+ foldr (fun rp acc => rp.1 +:+ rp.2 +:+ acc) "" tl
     /\ word_piece p0 /\ Forall (fun rp => sep_run rp.1 /\ word_piece rp.2) tl
     /\ Forall (fun rp => rp.2 <> "") (removelast tl))
  /\ forall p0 tl, s = p0 +:+ foldr (fun rp acc => rp.1 +:+ rp.2 +:+ acc) "" tl ->
     word_piece p0 -> Forall (fun rp => sep_run rp.1 /\ word_piece rp.2) tl ->
     Forall (fun rp => rp.2 <> "") (removelast tl) ->
     re_split s = p0 :: map snd tl.
Proof.
  split.
  - destruct (re_split_aux_spec s) as (tl & _ & H). by exists (re_split_aux s).1, tl.
  - intros p0 tl Hs Hp0 Htl Hin. unfold re_split. by rewrite (re_split_aux_unique s p0 tl).
Qed.

(** ** Errors of [bigrams] *)

Section BigramsErrors.
Variable stop : string -> bool.
Context {S : Type} `{DocStore S}.

Lemma ref_feats_some (s : S) out x : exists b, ref_feats stop (Some s) out x = Ok b.
  Proof. unfold ref_feats. destruct (store_get s x); eauto. Qed.

Lemma ref_feats_none out x : ref_feats (S:=S) stop None out x = Raise TypeError.
  Proof. done. Qed.

  (** [bigrams] raises in the same two ways as [text]. *)
Lemma bigrams_errors (store : option S) d abstract e :
    bigrams stop store d abstract = Raise e ->
    (e = IndexError /\ abstract = true /\ sections d = [])
    \/ (e = TypeError /\ store = None /\ references d <> ∅).
  Proof.
    unfold bigrams. intros Hr.
    apply (render_errors (ref_feats stop) ref_feats_some ref_feats_none) in Hr as [Hb | Hr];
      [|by right].
    apply abstract_body_cases in Hb as [(-> & -> & ?) | [_ ?]]; [by left | done].
  Qed.

Lemma bigrams_with_corpus (s : S) d abstract :
    (abstract = false \/ sections d <> []) -> exists out, bigrams stop (Some s) d abstract = Ok out.
  Proof.
    intros Hb. destruct (bigrams stop (Some s) d abstract) as [out|e] eqn:Ht; [eauto|].
    apply bigrams_errors in Ht as [(_ & Ha & Hs) | (_ & ? & _)]; [|done].
    destruct Hb; congruence.
  Qed.
End BigramsErrors.

(** ** Examples and departures from the specification *)

Definition no_stop : string -> bool := fun _ => false.

(** The example of the specification: with an empty stop list, a
    title "Deep Learning" gives the line [deep_learning] twice, once for
    each of the two passes over the title. *)
Example bigrams_title_twice :
  bigrams (S:=unit) no_stop None
    (mk_document (Some "d") [] "Deep Learning" "" "" "" ∅ [mk_section None []] None) false
  = Ok ("deep_learning" +:+ NL +:+ "deep_learning" +:+ NL).
Proof. vm_compute. reflexivity. Qed.

(** Where the code departs from the specification's description of
    the pairing rule: a one-letter token is paired (the specification says
    no line comes from a single-character token), and a pair is dropped
    when its right token is not a good word ([-5] has no letter,
    [foo_bar] has an underscore and no [#]), where the specification only
    tests the left token. *)
Example bigrams_pairing_divergence :
  bigrams_from_sent no_stop "Deep Learning X" = "deep_learning" +:+ NL +:+ "learning_x" +:+ NL
  /\ bigrams_from_sent no_stop "Deep -5" = ""
  /\ bigrams_from_sent no_stop "Deep foo_bar" = "".
Proof. split_and!; vm_compute; reflexivity. Qed.


(** ** Witnesses *)

Lemma bigrams_from_sent_spec_witness :
  exists L, bigrams_from_sent no_stop "Deep Learning" = unlines L /\ "deep_learning" ∈ L.
Proof.
  destruct (bigrams_from_sent_spec no_stop "Deep Learning") as [_ (L & HL & _ & Hc & _)].
  exists L. split; [exact HL|].
  change "deep_learning" with (str_lower "Deep" +:+ "_" +:+ str_lower "Learning").
  apply (Hc [] "Deep" "Learning" []); [reflexivity | apply good_word_iff; reflexivity ..].
Defined.

Lemma re_split_spec_witness :
  re_split ",Deep  learning--x," = [""; "Deep"; "learning--x"; ""].
Proof.
  apply (proj2 (re_split_spec ",Deep  learning--x,") "" [(",", "Deep"); ("  ", "learning--x"); (",", "")]).
  - reflexivity.
  - by intros ? ?%not_elem_of_nil.
  - apply Forall_forall. intros rp Hrp.
    repeat (apply elem_of_cons in Hrp as [->|Hrp];
      [split; [apply sep_run_of_b | apply word_piece_of_b]; reflexivity|]).
    by apply not_elem_of_nil in Hrp.
  - repeat constructor; discriminate.
Defined.
