(* ===== verification/Corpus.v ===== *)
(** * The [Corpus] class and its object store

    Documents and corpora are mutable Python objects that refer to each
    other: a corpus maps ids to documents ([self.docs]) and [add] stamps
    the document's back-reference [doc.corpus = self].  The model keeps the
    objects in a store [World]: [corpora] maps a corpus handle to its
    [docs] dict (an insertion-ordered association list, see [PyDict]), and
    [heap] maps a document handle to the document object.  A document
    reached from two places is one object of the heap, so a later [add]
    is seen through every alias.

    A method that raises leaves the mutations it made before raising: the
    methods return the new store together with a [Res]. *)

From S2P Require Import Prelude PyDict TitleCase Document DocInit Bigrams.

(** ** The object store *)

(** Handle of a [Document] object. *)
Definition obj := nat.

Record World : Type := mk_world {
  corpora : gmap corpus_ref (list (string * obj));
  heap : gmap obj Document
}.

Definition empty_world : World := mk_world ∅ ∅.

(** [self.docs] of the corpus [c]. *)
Definition docs_of (w : World) (c : corpus_ref) : list (string * obj) :=
  default [] (corpora w !! c).

Definition set_docs (w : World) (c : corpus_ref) (docs : list (string * obj)) : World :=
  mk_world (<[c := docs]> (corpora w)) (heap w).

Definition set_obj (w : World) (o : obj) (d : Document) : World :=
  mk_world (corpora w) (<[o := d]> (heap w)).

(** A corpus seen by its documents: [key in corpus] and [corpus[key]]
    (lines 73-74 and 79-80). *)
#[export] Instance world_store : DocStore (World * corpus_ref) :=
  fun '(w, c) k => dict_get (docs_of w c) k ≫= fun o => heap w !! o.

(** A new object: [Corpus()] with no path (line 23), and a document built
    by [Document(...)]. *)
Definition corpus_new (w : World) : World * corpus_ref :=
  let c := fresh (dom (corpora w)) in (set_docs w c [], c).

Definition alloc (w : World) (d : Document) : World * obj :=
  let o := fresh (dom (heap w)) in (set_obj w o d, o).

(** ** Methods (lines 56-80) *)

(** [clear] (lines 56-57). *)
Definition clear (w : World) (c : corpus_ref) : World := set_docs w c [].

(** [add] (lines 59-62): the assertion holds of every object of the heap;
    the back-reference is written before [doc.id] is read, so a document
    without an id is stamped and then [AttributeError] is raised. *)
Definition add (w : World) (c : corpus_ref) (o : obj) : World * Res unit :=
  match heap w !! o with
  | None => (w, Raise AssertionError)
  | Some d =>
      let w := set_obj w o (set_corpus (Some c) d) in
      match id d with
      | None => (w, Raise AttributeError)
      | Some k => (set_docs w c (dict_set (docs_of w c) k o), Ok tt)
      end
  end.

(** [__iter__] (lines 69-71): the documents in insertion order. *)
Definition iter (w : World) (c : corpus_ref) : list obj := dict_values (docs_of w c).

(** [for doc in other: self.add(doc)], stopping at the first exception. *)
Fixpoint add_all (w : World) (c : corpus_ref) (os : list obj) : World * Res unit :=
  match os with
  | [] => (w, Ok tt)
  | o :: r =>
      let '(w', res) := add w c o in
      match res with
      | Ok _ => add_all w' c r
      | Raise e => (w', Raise e)
      end
  end.

(** [__ior__] (lines 64-67): [self |= other] adds the documents of [other]. *)
Definition ior (w : World) (c other : corpus_ref) : World * Res unit :=
  add_all w c (iter w other).

(** [__getitem__] (lines 73-74). *)
Definition getitem (w : World) (c : corpus_ref) (k : string) : Res obj :=
  match dict_get (docs_of w c) k with
  | Some o => Ok o
  | None => Raise KeyError
  end.

(** [__setitem__] (lines 76-77): no back-reference is written. *)
Definition setitem (w : World) (c : corpus_ref) (k : string) (o : obj) : World :=
  set_docs w c (dict_set (docs_of w c) k o).

(** [__contains__] (lines 79-80). *)
Definition contains (w : World) (c : corpus_ref) (k : string) : bool :=
  bool_decide (is_Some (dict_get (docs_of w c) k)).

(** [d.text(abstract)] and [d.bigrams(abstract, stop)] for the document
    object [o], whose [self.corpus] is read from the heap. *)
Definition doc_text (w : World) (o : obj) (abstract : bool) : Res string :=
  match heap w !! o with
  | None => Raise AttributeError
  | Some d => text (option_map (pair w) (corpus d)) d abstract
  end.

Definition doc_bigrams (stop : string -> bool) (w : World) (o : obj) (abstract : bool)
  : Res string :=
  match heap w !! o with
  | None => Raise AttributeError
  | Some d => bigrams stop (option_map (pair w) (corpus d)) d abstract
  end.

(** ** Reading a TSV file (lines 27-36)

    [docs = f.read().split("\n")]; every line but the header is turned into
    a [Document] (outside the [try]: an exception there ends [__init__]),
    then added inside [try: ... except: continue]. *)

Section Ingest.
Variable tokenize : string -> list string.

Fixpoint ingest_lines (w : World) (c : corpus_ref) (lines : list string) : World * Res unit :=
    match lines with
    | [] => (w, Ok tt)
    | d :: r =>
        match document_init tokenize (fun _ => Raise KeyError) (fun _ => Ok empty_jdoc)
                None (Some "tsv") d with
        | Raise e => (w, Raise e)
        | Ok doc =>
            let '(w1, o) := alloc w doc in
            let '(w2, _) := add w1 c o in
            ingest_lines w2 c r
        end
    end.

  (** [Corpus(path)] for a TSV file with the given content. *)
Definition corpus_from_tsv (w : World) (content : string) : World * corpus_ref * Res unit :=
    let '(w, c) := corpus_new w in
    let '(w, res) := ingest_lines w c (tail (str_split "010"%char content)) in
    (w, c, res).
End Ingest.

(** ** The back-reference invariant

    Every document a corpus holds under the key [k] is an object of the
    heap whose id is [k] and whose back-reference is that corpus, and the
    keys of each [docs] dict are distinct. *)

Definition corpus_inv (w : World) : Prop :=
  forall c docs, corpora w !! c = Some docs ->
    dict_wf docs /\
    forall k o, dict_get docs k = Some o ->
      exists d, heap w !! o = Some d /\ corpus d = Some c /\ id d = Some k.

(** The document [o] is held by a corpus other than [c]. *)
Definition held_elsewhere (w : World) (c : corpus_ref) (o : obj) : Prop :=
  exists c' docs k, c' <> c /\ corpora w !! c' = Some docs /\ dict_get docs k = Some o.

Lemma corpora_set_docs w c docs : corpora (set_docs w c docs) = <[c := docs]> (corpora w).
Proof. reflexivity. Qed.
Lemma heap_set_docs w c docs : heap (set_docs w c docs) = heap w.
Proof. reflexivity. Qed.
Lemma corpora_set_obj w o d : corpora (set_obj w o d) = corpora w.
Proof. reflexivity. Qed.
Lemma heap_set_obj w o d : heap (set_obj w o d) = <[o := d]> (heap w).
Proof. reflexivity. Qed.
Lemma docs_of_set_obj w o d c : docs_of (set_obj w o d) c = docs_of w c.
Proof. reflexivity. Qed.
Lemma corpus_set_corpus c d : corpus (set_corpus c d) = c.
Proof. reflexivity. Qed.
Lemma id_set_corpus c d : id (set_corpus c d) = id d.
Proof. reflexivity. Qed.

Lemma corpora_alloc w d : corpora (alloc w d).1 = corpora w.
Proof. reflexivity. Qed.
Lemma heap_alloc w d : heap (alloc w d).1 = <[(alloc w d).2 := d]> (heap w).
Proof. reflexivity. Qed.

Create Rewrite HintDb worldrw.
#[export] Hint Rewrite corpora_set_docs heap_set_docs corpora_set_obj heap_set_obj
  docs_of_set_obj corpus_set_corpus id_set_corpus corpora_alloc heap_alloc : worldrw.

Lemma docs_of_wf w c : corpus_inv w -> dict_wf (docs_of w c).
Proof.
  intros Hw. unfold docs_of. destruct (corpora w !! c) as [docs|] eqn:Hc; simpl.
  - by apply (Hw c docs).
  - apply NoDup_nil_2.
Qed.

Lemma docs_of_get w c k o :
  corpus_inv w -> dict_get (docs_of w c) k = Some o ->
  exists d, heap w !! o = Some d /\ corpus d = Some c /\ id d = Some k.
Proof.
  intros Hw. unfold docs_of. destruct (corpora w !! c) as [docs|] eqn:Hc; simpl; [|done].
  by apply (Hw c docs).
Qed.

Lemma inv_heap_unchanged w w' :
  corpora w' = corpora w ->
  (forall o d, heap w !! o = Some d -> (exists c k, corpus d = Some c /\ id d = Some k) ->
     heap w' !! o = Some d) ->
  corpus_inv w -> corpus_inv w'.
Proof.
  intros Hc Hh Hw c docs Hd. rewrite Hc in Hd.
  destruct (Hw c docs Hd) as [Hwf Hget]. split; [done|].
  intros k o Ho. destruct (Hget k o Ho) as (d & Hd' & Hcd & Hid).
  exists d. split_and!; [|done|done]. apply Hh; eauto.
Qed.

Lemma add_inv w c o :
  corpus_inv w -> ~ held_elsewhere w c o -> corpus_inv (add w c o).1.
Proof.
  intros Hw Hel. unfold add.
  destruct (heap w !! o) as [d|] eqn:Ho; simpl; [|done].
  destruct (id d) as [k|] eqn:Hid; simpl.
  - intros c2 docs2. autorewrite with worldrw. rewrite lookup_insert.
    case_decide as Hc; [subst c2; intros [= <-] | intros Hd2].
    + split; [by apply dict_set_wf, docs_of_wf|].
      intros k2 o2. rewrite dict_get_set. case_decide as Hk.
      * intros [= <-]. subst k2. eexists. rewrite lookup_insert_eq. by split_and!.
      * intros Hg. destruct (docs_of_get w c k2 o2 Hw Hg) as (d2 & Hd2 & Hc2 & Hid2).
        exists d2. rewrite lookup_insert_ne; [done|]. intros ->. congruence.
    + destruct (Hw c2 docs2 Hd2) as [Hwf Hget]. split; [done|].
      intros k2 o2 Hg. destruct (Hget k2 o2 Hg) as (d2 & Hd2' & Hc2 & Hid2).
      exists d2. rewrite lookup_insert_ne; [done|].
      intros ->. apply Hel. by exists c2, docs2, k2.
  - apply (inv_heap_unchanged w); [done| |done]. intros o2 d2 Hd2 (c2 & k2 & _ & Hk2).
    autorewrite with worldrw. rewrite lookup_insert_ne; [done|]. intros ->. congruence.
Qed.

Lemma inv_entry_in_heap w c docs k o :
  corpus_inv w -> corpora w !! c = Some docs -> dict_get docs k = Some o -> o ∈ dom (heap w).
Proof.
  intros Hw Hc Hg. destruct (Hw c docs Hc) as [_ Hget].
  destruct (Hget k o Hg) as (d & Hd & _). by apply elem_of_dom_2 in Hd.
Qed.

Lemma alloc_fresh w d : (alloc w d).2 ∉ dom (heap w).
Proof. apply is_fresh. Qed.

Lemma alloc_inv w d : corpus_inv w -> corpus_inv (alloc w d).1.
Proof.
  intros Hw. pose proof (alloc_fresh w d) as Hf.
  apply (inv_heap_unchanged w); [done| |done].
  intros o2 d2 Hd2 _. autorewrite with worldrw.
  rewrite lookup_insert_ne; [done|]. intros Ho. rewrite Ho in Hf. apply Hf. by apply elem_of_dom_2 in Hd2.
Qed.

(** A freshly built document is held by no corpus. *)
Lemma alloc_not_held w d c : corpus_inv w -> ~ held_elsewhere (alloc w d).1 c (alloc w d).2.
Proof.
  intros Hw (c' & docs & k & _ & Hc & Hg). apply (alloc_fresh w d).
  by eapply (inv_entry_in_heap w c' docs k).
Qed.

Lemma clear_inv w c : corpus_inv w -> corpus_inv (clear w c).
Proof.
  intros Hw c2 docs2. unfold clear. autorewrite with worldrw. rewrite lookup_insert.
  case_decide; [intros [= <-]; split; [apply NoDup_nil_2 | done]|]. apply Hw.
Qed.

Lemma corpus_new_inv w : corpus_inv w -> corpus_inv (corpus_new w).1.
Proof. apply clear_inv. Qed.

(** A document just built and then added keeps the invariant, whatever
    [add] returns. *)
Lemma alloc_add_inv w c d : corpus_inv w -> corpus_inv (add (alloc w d).1 c (alloc w d).2).1.
Proof.
  intros Hw. pose proof (alloc_not_held w d c Hw) as Hn. pose proof (alloc_inv w d Hw) as Hi.
  destruct (alloc w d) as [w1 o]. simpl in *. by apply add_inv.
Qed.

Lemma ingest_lines_inv tokenize lines : forall w c,
  corpus_inv w -> corpus_inv (ingest_lines tokenize w c lines).1.
Proof.
  induction lines as [|l lines IH]; intros w c Hw; [done|]. cbn [ingest_lines].
  destruct (document_init _ _ _ _ _ _) as [doc|e]; [|done].
  pose proof (alloc_add_inv w c doc Hw) as Ha.
  destruct (alloc w doc) as [w1 o]. simpl in Ha. destruct (add w1 c o) as [w2 r]. simpl in Ha.
  by apply IH.
Qed.

Lemma corpus_from_tsv_inv tokenize w content :
  corpus_inv w -> corpus_inv (corpus_from_tsv tokenize w content).1.1.
Proof.
  intros Hw. unfold corpus_from_tsv. pose proof (corpus_new_inv w Hw) as Hn.
  destruct (corpus_new w) as [w1 c]. simpl in Hn.
  pose proof (ingest_lines_inv tokenize (tail (str_split "010"%char content)) w1 c Hn) as Hi.
  by destruct (ingest_lines _ w1 c _).
Qed.

(** ** The operations a well-behaved client uses

    New corpora and documents, [add] of a document no other corpus holds,
    [clear], and reading a TSV file.  [__ior__] and [__setitem__] are left
    out, and so is [add] of a document another corpus holds: they break
    the invariant (see [ior_setitem_break_inv]). *)

Inductive step : World -> World -> Prop :=
  | step_corpus_new w : step w (corpus_new w).1
  | step_document w d : step w (alloc w d).1
  | step_add w c o : ~ held_elsewhere w c o -> step w (add w c o).1
  | step_clear w c : step w (clear w c)
  | step_tsv tokenize w content : step w (corpus_from_tsv tokenize w content).1.1.

Definition reachable (w : World) : Prop := rtc step empty_world w.

Lemma step_inv w w' : step w w' -> corpus_inv w -> corpus_inv w'.
Proof.
  destruct 1; eauto using corpus_new_inv, alloc_inv, add_inv, clear_inv, corpus_from_tsv_inv.
Qed.

(** In every store reachable by these operations, each corpus holds
    each of its documents under the document's own id, with the
    back-reference pointing to that corpus, and no id twice. *)
Theorem reachable_inv w : reachable w -> corpus_inv w.
Proof.
  unfold reachable. assert (H0 : corpus_inv empty_world) by (intros c docs; simpl; done).
  remember empty_world as w0 eqn:E. intros Hr. clear E. induction Hr; eauto using step_inv.
Qed.

(** ** A decision procedure for the invariant *)

Definition entry_ok (w : World) (c : corpus_ref) (e : string * obj) : bool :=
  match heap w !! e.2 with
  | Some d => bool_decide (corpus d = Some c /\ id d = Some e.1)
  | None => false
  end.

Definition corpus_inv_b (w : World) : bool :=
  forallb (fun '(c, docs) => bool_decide (dict_wf docs) && forallb (entry_ok w c) docs)
    (map_to_list (corpora w)).

Lemma forallb_elem {A} (f : A -> bool) l : forallb f l = true <-> forall x, x ∈ l -> f x = true.
Proof. rewrite forallb_forall. by setoid_rewrite list_elem_of_In. Qed.

Lemma corpus_inv_b_spec w : corpus_inv_b w = true <-> corpus_inv w.
Proof.
  unfold corpus_inv_b, corpus_inv. rewrite forallb_elem. split.
  - intros H c docs Hc. apply elem_of_map_to_list in Hc. specialize (H _ Hc).
    apply andb_true_iff in H as [Hwf Hall]. apply bool_decide_eq_true in Hwf.
    split; [done|]. intros k o Hg. rewrite forallb_elem in Hall.
    specialize (Hall _ (dict_get_elem_of _ _ _ Hg)). unfold entry_ok in Hall. simpl in Hall.
    destruct (heap w !! o) as [d|]; [|done]. apply bool_decide_eq_true in Hall. eauto.
  - intros H [c docs] Hc. apply elem_of_map_to_list in Hc.
    destruct (H c docs Hc) as [Hwf Hget]. apply andb_true_iff. split.
    + by apply bool_decide_eq_true.
    + apply forallb_elem. intros [k o] Hko. unfold entry_ok. simpl.
      destruct (Hget k o (elem_of_dict_get _ _ _ Hwf Hko)) as (d & -> & Hcd & Hid).
      by apply bool_decide_eq_true.
Qed.

(** ** Operations that break the invariant *)

Lemma add_other_corpus w c c' o : c <> c' -> corpora (add w c o).1 !! c' = corpora w !! c'.
Proof.
  intros Hne. unfold add. destruct (heap w !! o) as [d|]; [|done].
  destruct (id d); simpl; autorewrite with worldrw; [|done]. by rewrite lookup_insert_ne.
Qed.

(** [add] writes the back-reference before it reads the id. *)
Lemma add_stamps w c o d :
  heap w !! o = Some d -> heap (add w c o).1 !! o = Some (set_corpus (Some c) d).
Proof.
  intros Ho. unfold add. rewrite Ho.
  destruct (id d); simpl; autorewrite with worldrw; by rewrite lookup_insert_eq.
Qed.

(** A document stamped with [c] stays stamped with [c] by [c.add]. *)
Lemma add_keeps_stamp w c o o' :
  (exists d, heap w !! o = Some d /\ corpus d = Some c) ->
  exists d, heap (add w c o').1 !! o = Some d /\ corpus d = Some c.
Proof.
  intros (d & Hd & Hc). destruct (decide (o' = o)) as [->|Hne].
  - eexists. split; [by apply add_stamps|done].
  - exists d. split; [|done]. unfold add. destruct (heap w !! o') as [d'|]; [|done].
    destruct (id d'); simpl; autorewrite with worldrw; by rewrite lookup_insert_ne.
Qed.

(** What every [c.add] keeps, [for doc in other: self.add(doc)] keeps,
    from the world after its first [add] on. *)
Lemma add_all_keeps (P : World -> Prop) c :
  (forall w o, P w -> P (add w c o).1) ->
  forall os w, P w -> P (add_all w c os).1.
Proof.
  intros Hp. induction os as [|o os IH]; intros w Hw; [done|]. simpl.
  pose proof (Hp w o Hw) as H1. destruct (add w c o) as [w1 [[]|e]]; [by apply IH|done].
Qed.

Lemma add_all_cons_keeps (P : World -> Prop) w c o os :
  (forall w o, P w -> P (add w c o).1) -> P (add w c o).1 -> P (add_all w c (o :: os)).1.
Proof.
  intros Hp H1. simpl. destruct (add w c o) as [w1 [[]|e]]; [by apply (add_all_keeps P)|done].
Qed.

(** A corpus that holds a document stamped with another corpus breaks
    the invariant. *)
Lemma stamped_elsewhere_breaks w c c' docs k o :
  c <> c' -> corpora w !! c' = Some docs -> dict_get docs k = Some o ->
  (exists d, heap w !! o = Some d /\ corpus d = Some c) -> ~ corpus_inv w.
Proof.
  intros Hne Hc Hg (d & Hd & Hcd) Hw. destruct (Hw c' docs Hc) as [_ Hget].
  destruct (Hget k o Hg) as (d' & Hd' & Hc' & _). congruence.
Qed.

Lemma docs_of_some w c k o :
  dict_get (docs_of w c) k = Some o ->
  exists k0 o0 rest, corpora w !! c = Some ((k0, o0) :: rest) /\ docs_of w c = (k0, o0) :: rest.
Proof.
  unfold docs_of. destruct (corpora w !! c) as [[|[k0 o0] rest]|]; simpl; try done.
  intros _. by exists k0, o0, rest.
Qed.

(** Corpus 1 is empty; corpus 2 holds document 0 (id "a") under "a". *)
Definition two_corpora : World :=
  mk_world (<[1 := []]> (<[2 := [("a", 0)]]> ∅))
    (<[0 := mk_document (Some "a") [] "A" "" "" "" ∅ [] (Some 2)]> ∅).


(** C2: the invariant is not kept by the rest of the class.  In every
    store that satisfies it, for corpora [c <> c'] where [c'] holds a
    document: [c.add(doc)] of a document [c'] holds, and [c |= c'], stamp
    that document with [c] while [c'] still holds it; and [c[key] = doc]
    with a key other than the document's id stores it under the wrong key
    without stamping it.  Each leaves a store that breaks the invariant.
    (The specification says a document belongs to at most one corpus at
    a time.) *)
Theorem ior_setitem_break_inv :
  (forall w c c' k o, corpus_inv w -> c <> c' -> dict_get (docs_of w c') k = Some o ->
     ~ corpus_inv (add w c o).1)
  /\ (forall w c c' k o, corpus_inv w -> c <> c' -> dict_get (docs_of w c') k = Some o ->
     ~ corpus_inv (ior w c c').1)
  /\ (forall w c k o d, heap w !! o = Some d -> id d <> Some k -> ~ corpus_inv (setitem w c k o)).
Proof.
  split_and!.
  - intros w c c' k o Hw Hne Hg. destruct (docs_of_get w c' k o Hw Hg) as (d & Hd & _).
    destruct (docs_of_some w c' k o Hg) as (k0 & o0 & rest & Hc' & Hdocs). rewrite Hdocs in Hg.
    apply (stamped_elsewhere_breaks _ c c' ((k0, o0) :: rest) k o Hne).
    + by rewrite add_other_corpus.
    + done.
    + eexists. split; [by apply add_stamps|done].
  - intros w c c' k o Hw Hne Hg.
    destruct (docs_of_some w c' k o Hg) as (k0 & o0 & rest & Hc' & Hdocs).
    assert (Hg0 : dict_get (docs_of w c') k0 = Some o0) by (rewrite Hdocs; simpl; by rewrite decide_True).
    destruct (docs_of_get w c' k0 o0 Hw Hg0) as (d0 & Hd0 & _).
    set (P w1 := corpora w1 !! c' = Some ((k0, o0) :: rest)
                 /\ exists d, heap w1 !! o0 = Some d /\ corpus d = Some c).
    assert (HP : P (ior w c c').1).
    { unfold ior, iter. rewrite Hdocs. change (dict_values ((k0, o0) :: rest)) with (o0 :: dict_values rest).
      apply add_all_cons_keeps.
      - intros w1 o1 [H1 H2]. split; [by rewrite add_other_corpus|by apply add_keeps_stamp].
      - split; [by rewrite add_other_corpus|]. eexists. split; [by apply add_stamps|done]. }
    destruct HP as [H1 H2]. apply (stamped_elsewhere_breaks _ c c' _ k0 o0 Hne H1); [|done].
    simpl. by rewrite decide_True.
  - intros w c k o d Hd Hid Hw. unfold setitem in Hw.
    destruct (Hw c (dict_set (docs_of w c) k o)) as [_ Hget]; [by autorewrite with worldrw; rewrite lookup_insert_eq|].
    destruct (Hget k o) as (d' & Hd' & _ & Hid'); [by rewrite dict_get_set, decide_True|].
    simpl in Hd'. congruence.
Qed.

(** ** [add] *)

Lemma add_ok_world w c o d k :
  heap w !! o = Some d -> id d = Some k ->
  add w c o = (set_docs (set_obj w o (set_corpus (Some c) d)) c (dict_set (docs_of w c) k o), Ok tt).
Proof. intros Ho Hk. unfold add. by rewrite Ho, Hk. Qed.

(** C3: adding two documents with the same id: the second replaces the
    first, which is no longer among the corpus's documents. *)
Theorem add_same_id_overwrites w c o1 o2 d1 d2 k :
  corpus_inv w -> heap w !! o1 = Some d1 -> heap w !! o2 = Some d2 ->
  id d1 = Some k -> id d2 = Some k -> o1 <> o2 ->
  getitem (add (add w c o1).1 c o2).1 c k = Ok o2
  /\ o1 ∉ iter (add (add w c o1).1 c o2).1 c.
Proof.
  intros Hw H1 H2 Hk1 Hk2 Hne.
  rewrite (add_ok_world w c o1 d1 k H1 Hk1). simpl.
  rewrite (add_ok_world _ c o2 d2 k); [|by autorewrite with worldrw; rewrite lookup_insert_ne|done].
  unfold getitem, iter, docs_of. simpl. rewrite !lookup_insert_eq. simpl.
  fold (docs_of w c). rewrite dict_get_set, decide_True by done. split; [done|].
  intros [Heq | (k' & Hk' & Hg)]%dict_values_set; [congruence | |].
  - rewrite dict_get_set, decide_False in Hg by done.
    destruct (docs_of_get w c k' o1 Hw Hg) as (d & Hd & _ & Hid). congruence.
  - by apply dict_set_wf, docs_of_wf.
Qed.

Definition one_corpus_two_docs : World :=
  mk_world (<[0 := []]> ∅)
    (<[0 := mk_document (Some "a") [] "First" "" "" "" ∅ [] None]>
      (<[1 := mk_document (Some "a") [] "Second" "" "" "" ∅ [] None]> ∅)).

Lemma add_same_id_overwrites_witness :
  getitem (add (add one_corpus_two_docs 0 0).1 0 1).1 0 "a" = Ok 1
  /\ 0 ∉ iter (add (add one_corpus_two_docs 0 0).1 0 1).1 0.
Proof.
  apply (add_same_id_overwrites one_corpus_two_docs 0 0 1
           (mk_document (Some "a") [] "First" "" "" "" ∅ [] None)
           (mk_document (Some "a") [] "Second" "" "" "" ∅ [] None) "a");
    try reflexivity; try lia.
  apply corpus_inv_b_spec. by vm_compute.
Defined.

(** ** Reading a TSV file *)

(** A line that makes [Document(text=line, form='tsv')] raise. *)
Definition malformed (line : string) : bool :=
  truthy line && negb (length (str_split TAB line) =? 3).

Lemma tsv_init_cases tokenize line :
  match document_init tokenize (fun _ => Raise KeyError) (fun _ => Ok empty_jdoc)
          None (Some "tsv") line with
  | Ok _ => malformed line = false
  | Raise e => e = ValueError /\ malformed line = true
  end.
Proof.
  unfold document_init, malformed. simpl. destruct (truthy line); simpl; [|done].
  unfold tsv_fields. destruct (str_split TAB line) as [|? [|? [|? [|]]]]; simpl; done.
Qed.

(** C12: reading a TSV file succeeds exactly when no line after the
    header is malformed; one malformed line makes [Corpus(path)] raise
    [ValueError] (the constructor runs outside the [try]), where the
    specification says such a line is reported and skipped. *)
Theorem ingest_lines_result tokenize w c lines :
  (ingest_lines tokenize w c lines).2 = if existsb malformed lines then Raise ValueError else Ok tt.
Proof.
  revert w; induction lines as [|l lines IH]; intros w; [done|]. cbn [ingest_lines existsb].
  pose proof (tsv_init_cases tokenize l) as Hc.
  destruct (document_init _ _ _ _ _ l) as [doc|e].
  - rewrite Hc, orb_false_l. destruct (alloc w doc) as [w1 o]. destruct (add w1 c o) as [w2 r].
    apply IH.
  - destruct Hc as [-> ->]. done.
Qed.

(** ** Rendering the documents of a corpus *)

(** A document a corpus holds renders without error: its back-reference
    is set, so references resolve or are skipped. *)
Lemma held_doc_render w c k o stop :
  corpus_inv w -> dict_get (docs_of w c) k = Some o ->
  (exists s, doc_text w o false = Ok s) /\ (exists s, doc_bigrams stop w o false = Ok s).
Proof.
  intros Hw Hg. destruct (docs_of_get w c k o Hw Hg) as (d & Hd & Hc & _).
  unfold doc_text, doc_bigrams. rewrite Hd, Hc. simpl.
  split; [apply text_with_corpus | apply bigrams_with_corpus]; by left.
Qed.

(** C4: refinement: on the abstract view of a corpus as a finite map
    from ids to documents, [add] of a document with id [k] is the map
    insertion of [k]. *)
Theorem add_refines w c o d k :
  heap w !! o = Some d -> id d = Some k ->
  dict_to_map (docs_of (add w c o).1 c) = <[k := o]> (dict_to_map (docs_of w c)).
Proof.
  intros Ho Hk. rewrite (add_ok_world w c o d k Ho Hk). unfold docs_of at 1. simpl.
  rewrite lookup_insert_eq. simpl. apply dict_to_map_set.
Qed.

(** ** Witnesses *)

Definition doc_a : Document := mk_document (Some "a") [] "T" "" "" "" ∅ [] None.

Definition world_one_add : World :=
  let '(w1, c) := corpus_new empty_world in
  let '(w2, o) := alloc w1 doc_a in
  (add w2 c o).1.

Lemma reachable_inv_witness : reachable world_one_add /\ corpus_inv world_one_add.
Proof.
  assert (H : reachable world_one_add).
  { unfold reachable, world_one_add.
    eapply rtc_l; [apply step_corpus_new|]. eapply rtc_l; [apply step_document|].
    eapply rtc_l; [apply step_add | apply rtc_refl].
    apply alloc_not_held, corpus_new_inv. intros ? ?; simpl. done. }
  split; [exact H | exact (reachable_inv world_one_add H)].
Defined.

Lemma add_refines_witness :
  dict_to_map (docs_of (add one_corpus_two_docs 0 1).1 0)
  = <[ "a" := 1 ]> (dict_to_map (docs_of one_corpus_two_docs 0)).
Proof. apply (add_refines _ _ _ (mk_document (Some "a") [] "Second" "" "" "" ∅ [] None)); reflexivity. Defined.

Lemma ior_setitem_break_inv_witness :
  ~ corpus_inv (add two_corpora 1 0).1 /\ ~ corpus_inv (ior two_corpora 1 2).1
  /\ ~ corpus_inv (setitem two_corpora 1 "b" 0).
Proof.
  assert (Hw : corpus_inv two_corpora) by (apply corpus_inv_b_spec; by vm_compute).
  split_and!.
  - apply ((proj1 ior_setitem_break_inv) two_corpora 1 2 "a" 0 Hw); [lia | reflexivity].
  - apply ((proj1 (proj2 ior_setitem_break_inv)) two_corpora 1 2 "a" 0 Hw); [lia | reflexivity].
  - apply ((proj2 (proj2 ior_setitem_break_inv)) two_corpora 1 "b" 0
             (mk_document (Some "a") [] "A" "" "" "" ∅ [] (Some 2))); [reflexivity | discriminate].
Defined.
