(* ===== verification/Export.v ===== *)
(** * [Corpus.export]: writing one file per document

    Models lines 88-116 of corpus.py.  The effect on the file system is the
    list of events in the order they happen: [io.open(path, 'w')] creates
    or truncates the file ([FOpen]), then [out.write(...)] writes it
    ([FWrite]).  The serialisation runs between the two, so a serialiser
    that raises leaves an empty file behind and stops the export.

    The JSON form writes [Document.json] ([doc_json] of [DocJson]); [stop]
    is the lexicon built by [StopLexicon()], a variable of the section.  The
    class [Document] of corpus.py has no method [bioc], so [d.bioc(...)]
    raises [AttributeError].

    The file system is a map from path strings to contents, and every
    [io.open(path, 'w')] succeeds.  On POSIX two path strings can name one
    file and an open fails under a missing directory; the theorems on
    distinct files assume ids without ['/'], for which neither happens. *)

From S2P Require Import Prelude PyDict Json TitleCase Document DocInit DocJson Bigrams Corpus.

Inductive fs_event : Type :=
  | FOpen (path : string)
  | FWrite (path : string) (content : string).

(** [os.path.join(a, b)] (posixpath): an absolute [b] discards [a]. *)
Definition path_join (a b : string) : string :=
  if String.prefix "/" b then b
  else if String.eqb a "" || str_ends_with "/" a then a +:+ b
  else a +:+ "/" +:+ b.

Definition export_forms : list string := ["json"; "bioc"; "text"; "bigrams"; "tsv"].

Definition form_ext (form : string) : string :=
  if String.eqb form "json" then ".json"
  else if String.eqb form "bioc" then ".xml"
  else if String.eqb form "tsv" then ".tsv"
  else ".txt".

Section Exporting.
Variable stop : string -> bool.

  (** The serialisation chosen by [form] (lines 97-116); [Document] has no
      attribute [bioc]. *)
Definition serialise (w : World) (o : obj) (d : Document) (abstract : bool) (form : string)
    : Res string :=
    if String.eqb form "json" then doc_json d abstract
    else if String.eqb form "bioc" then Raise AttributeError
    else if String.eqb form "bigrams" then doc_bigrams stop w o abstract
    else doc_text w o abstract.

  (** One document: the path is computed (reading [d.id]), the file is
      opened, then the content is computed and written with a newline. *)
Definition export_one (w : World) (dest : string) (abstract : bool) (form : string)
    (ev : list fs_event) (o : obj) : list fs_event * Res unit :=
    match heap w !! o with
    | None => (ev, Raise AttributeError)
    | Some d =>
        match id d with
        | None => (ev, Raise AttributeError)
        | Some k =>
            let path := path_join dest (k +:+ form_ext form) in
            let ev := ev ++ [FOpen path] in
            match serialise w o d abstract form with
            | Raise e => (ev, Raise e)
            | Ok s => (ev ++ [FWrite path (s +:+ NL)], Ok tt)
            end
        end
    end.

Fixpoint export_all (w : World) (dest : string) (abstract : bool) (form : string)
    (ev : list fs_event) (os : list obj) : list fs_event * Res unit :=
    match os with
    | [] => (ev, Ok tt)
    | o :: r =>
        let '(ev', res) := export_one w dest abstract form ev o in
        match res with
        | Ok _ => export_all w dest abstract form ev' r
        | Raise e => (ev', Raise e)
        end
    end.

  (** [export(dest, abstract, form)] on the corpus [c] (lines 88-116). *)
Definition export (w : World) (c : corpus_ref) (dest : string) (abstract : bool) (form : string)
    : list fs_event * Res unit :=
    if negb (existsb (String.eqb form) export_forms) then ([], Raise (SystemExit 1))
    else export_all w dest abstract form [] (iter w c).
End Exporting.

(** ** The file system the events leave

    Not code of corpus.py: what the operating system does with the events.
    [io.open(p, 'w')] creates [p] or truncates it, [write] appends; reading
    a file never created raises [FileNotFoundError], an [OSError]. *)

Definition fs_apply (m : gmap string string) (ev : fs_event) : gmap string string :=
  match ev with
  | FOpen p => <[p := ""]> m
  | FWrite p s => <[p := default "" (m !! p) +:+ s]> m
  end.

Definition fs_after (evs : list fs_event) : gmap string string := foldl fs_apply ∅ evs.

Definition fs_read (evs : list fs_event) (p : string) : Res string :=
  match fs_after evs !! p with Some s => Ok s | None => Raise OSError end.

(** ** Properties *)

(** The paths opened, in order. *)
Definition opened (ev : list fs_event) : list string :=
  omap (fun e => match e with FOpen p => Some p | FWrite _ _ => None end) ev.

Lemma opened_app ev1 ev2 : opened (ev1 ++ ev2) = opened ev1 ++ opened ev2.
Proof. apply omap_app. Qed.

Section ExportProps.
Variable stop : string -> bool.

  (** C17: an unknown form ends the process ([sys.exit(1)]) before any
      file is opened. *)
Theorem export_bad_form w c dest abstract form :
    existsb (String.eqb form) export_forms = false ->
    export stop w c dest abstract form = ([], Raise (SystemExit 1)).
  Proof. intros H. unfold export. by rewrite H. Qed.

(** The events of an export in which every document serialises: for each
    document in order, its file is opened, then written. *)
Definition ser_of (w : World) (abstract : bool) (form : string) (o : obj) : string :=
    match heap w !! o with
    | Some d => res_get "" (serialise stop w o d abstract form)
    | None => ""
    end.

Definition doc_events (dest : string) (form : string) (ser : obj -> string) (ko : string * obj)
    : list fs_event :=
    [FOpen (path_join dest (ko.1 +:+ form_ext form));
     FWrite (path_join dest (ko.1 +:+ form_ext form)) (ser ko.2 +:+ NL)].

Lemma export_all_events w dest abstract form ev (docs : list (string * obj)) :
    (forall k o, (k, o) ∈ docs -> exists d s, heap w !! o = Some d /\ id d = Some k
        /\ serialise stop w o d abstract form = Ok s) ->
    export_all stop w dest abstract form ev (map snd docs)
    = (ev ++ flat_map (doc_events dest form (ser_of w abstract form)) docs, Ok tt).
  Proof.
    revert ev; induction docs as [|[k o] docs IH]; intros ev Hall; simpl.
    - by rewrite app_nil_r.
    - destruct (Hall k o) as (d & s & Hd & Hk & Hs); [set_solver|].
      unfold export_one. rewrite Hd, Hk, Hs. rewrite IH by (intros; apply Hall; set_solver).
      unfold doc_events, ser_of. simpl. rewrite Hd, Hs. simpl. by rewrite <- !app_assoc.
  Qed.

Lemma export_all_ok w dest abstract form ev (docs : list (string * obj)) :
    (forall k o, (k, o) ∈ docs -> exists d s, heap w !! o = Some d /\ id d = Some k
        /\ serialise stop w o d abstract form = Ok s) ->
    exists ev', export_all stop w dest abstract form ev (map snd docs)
                = (ev ++ ev', Ok tt)
      /\ opened ev' = map (fun k => path_join dest (k +:+ form_ext form)) (map fst docs).
  Proof.
    intros Hall. rewrite export_all_events by done. eexists. split; [done|].
    clear Hall. induction docs as [|[k o] docs IH]; [done|]. cbn [flat_map map].
    rewrite opened_app, IH. done.
  Qed.

  (** A document of a corpus that satisfies the invariant serialises to
      JSON. *)
Lemma json_ser_ok w c k o :
    corpus_inv w -> dict_get (docs_of w c) k = Some o ->
    exists d s, heap w !! o = Some d /\ id d = Some k /\ doc_json d false = Ok s
      /\ ser_of w false "json" o = s.
  Proof.
    intros Hw Hg. destruct (docs_of_get w c k o Hw Hg) as (d & Hd & _ & Hk).
    exists d. unfold doc_json. rewrite (doc_dict_ok d false k Hk) by done.
    eexists. split_and!; [done|done|done|]. unfold ser_of, serialise. rewrite Hd. simpl.
    unfold doc_json. by rewrite (doc_dict_ok d false k Hk) by done.
  Qed.

  (** The events of a JSON export of such a corpus. *)
Lemma export_json_events w c dest :
    corpus_inv w ->
    export stop w c dest false "json"
    = (flat_map (doc_events dest "json" (ser_of w false "json")) (docs_of w c), Ok tt).
  Proof.
    intros Hw. unfold export. simpl. unfold iter, dict_values. rewrite export_all_events; [done|].
    intros k o Hko.
    assert (Hg : dict_get (docs_of w c) k = Some o)
      by (apply elem_of_dict_get; [by apply docs_of_wf | done]).
    destruct (json_ser_ok w c k o Hw Hg) as (d & s & Hd & Hk & Hs & _).
    exists d, s. split_and!; [done|done|]. unfold serialise. simpl. exact Hs.
  Qed.

  (** C18: exporting a corpus that satisfies the invariant in a text form
      ([text], [tsv] or [bigrams], without abstracts) succeeds, and opens
      one file per document, [<dest>/<id>.<ext>], in the corpus's order. *)
Theorem export_files w c dest form :
    corpus_inv w -> form ∈ ["text"; "tsv"; "bigrams"] ->
    (export stop w c dest false form).2 = Ok tt
    /\ opened (export stop w c dest false form).1
       = map (fun k => path_join dest (k +:+ form_ext form)) (dict_keys (docs_of w c)).
  Proof.
    intros Hw Hf.
    assert (Hin : existsb (String.eqb form) export_forms = true).
    { repeat (apply elem_of_cons in Hf as [-> | Hf]; [done|]). by apply not_elem_of_nil in Hf. }
    unfold export. rewrite Hin. simpl. unfold iter, dict_values.
    destruct (export_all_ok w dest false form [] (docs_of w c)) as (ev' & -> & Hop).
    - intros k o Hko.
      assert (Hg : dict_get (docs_of w c) k = Some o) by (apply elem_of_dict_get; [by apply docs_of_wf|done]).
      destruct (docs_of_get w c k o Hw Hg) as (d & Hd & _ & Hk).
      destruct (held_doc_render w c k o stop Hw Hg) as [[st Hst] [sb Hsb]].
      unfold serialise.
      repeat (apply elem_of_cons in Hf as [-> | Hf]; [eexists _, _; split_and!; [exact Hd|exact Hk|]; simpl; eassumption|]).
      by apply not_elem_of_nil in Hf.
    - done.
  Qed.
  (** C13: a JSON export of a corpus that satisfies the invariant succeeds,
      and each file it writes is [<dest>/<id>.json] for a document [d] of
      the corpus, holding text that [json.loads] decodes to the dictionary
      of [d]: its id, authors, title, year, book and url, its references
      sorted, its sections. *)
Theorem export_json_readback w c dest :
    corpus_inv w ->
    (export stop w c dest false "json").2 = Ok tt /\
    forall p content, FWrite p content ∈ (export stop w c dest false "json").1 ->
      exists k o d, dict_get (docs_of w c) k = Some o /\ heap w !! o = Some d /\
        p = path_join dest (k +:+ ".json") /\ loads content = Ok (doc_dict_sorted k d (sections d)).
  Proof.
    intros Hw. rewrite export_json_events by done. split; [done|].
    intros p content Hin. simpl in Hin.
    apply elem_of_flat_map in Hin as ([k o] & Hin & Hko).
    assert (Hg : dict_get (docs_of w c) k = Some o)
      by (apply elem_of_dict_get; [by apply docs_of_wf | done]).
    destruct (json_ser_ok w c k o Hw Hg) as (d & s & Hd & Hk & Hs & Hser).
    unfold doc_events in Hin. simpl in Hin.
    apply elem_of_cons in Hin as [Hin|Hin]; [discriminate|].
    apply elem_of_cons in Hin as [[= -> ->]|Hin]; [|by apply not_elem_of_nil in Hin].
    exists k, o, d. split_and!; [done | done | done |]. rewrite Hser.
    exact (doc_json_loads d false k s Hk Hs).
  Qed.
End ExportProps.

Lemma prefix_char_indep p a x y :
  String.prefix (String p "") (String a x) = String.prefix (String p "") (String a y).
Proof. simpl. destruct (ascii_dec p a); [by destruct x, y | done]. Qed.

Lemma prefix_slash_app k ext :
  String.prefix "/" k = false -> String.prefix "/" ext = false -> String.prefix "/" (k +:+ ext) = false.
Proof.
  destruct k as [|a k]; [done|]. intros H _. rewrite str_app_cons.
  by rewrite (prefix_char_indep _ a _ k).
Qed.

(** A one-character needle occurs in [s ++ t] when it occurs in [s] or in [t]. *)
Lemma str_contains_char_app c s t :
  str_contains (String c "") (s +:+ t) = str_contains (String c "") s || str_contains (String c "") t.
Proof.
  induction s as [|d s IH]; [by rewrite str_app_nil|].
  rewrite str_app_cons, !str_contains_cons, IH, (prefix_char_indep _ d _ s). by rewrite orb_assoc.
Qed.

Lemma no_slash_prefix k : str_contains "/" k = false -> String.prefix "/" k = false.
Proof. destruct k as [|a k]; [done|]. rewrite str_contains_cons. by intros [? _]%orb_false_iff. Qed.

Lemma path_join_inj dest a b :
  String.prefix "/" a = false -> String.prefix "/" b = false ->
  path_join dest a = path_join dest b -> a = b.
Proof.
  unfold path_join. intros -> ->.
  destruct (String.eqb dest "" || str_ends_with "/" dest); [apply str_app_inv_l|].
  intros H%str_app_inv_l. by apply str_app_inv_l in H.
Qed.

Lemma opened_doc_events dest form ser (docs : list (string * obj)) :
  opened (flat_map (doc_events dest form ser) docs)
  = map (fun k => path_join dest (k +:+ form_ext form)) (map fst docs).
Proof. induction docs as [|[k o] docs IH]; [done|]. cbn [flat_map map]. by rewrite opened_app, IH. Qed.

(** Distinct ids that are not absolute paths give distinct files. *)
Lemma paths_nodup dest ext ks :
  NoDup ks -> (forall k, k ∈ ks -> String.prefix "/" k = false) -> String.prefix "/" ext = false ->
  NoDup (map (fun k => path_join dest (k +:+ ext)) ks).
Proof.
  intros Hnd Hk He. change (NoDup ((fun k => path_join dest (k +:+ ext)) <$> ks)).
  apply NoDup_fmap_2_strong; [|done]. intros k1 k2 H1 H2 Heq. apply str_app_inv_r with ext.
  apply (path_join_inj dest); [apply prefix_slash_app; [by apply Hk | done].. | done].
Qed.

Lemma find_nodup_key {A B} `{EqDecision B} (f : A -> B) (l : list A) x :
  NoDup (map f l) -> x ∈ l -> find (fun y => bool_decide (f y = f x)) l = Some x.
Proof.
  induction l as [|y l IH]; [by intros _ ?%not_elem_of_nil|]. simpl.
  intros [Hy Hnd]%NoDup_cons [->|Hx]%elem_of_cons; [by rewrite bool_decide_true|].
  rewrite bool_decide_false; [by apply IH|]. intros Heq. apply Hy.
  rewrite Heq. apply list_elem_of_fmap. by exists x.
Qed.

(** What the events of an export leave in the file system: each file holds
    what was last written to it after it was opened. *)
Lemma fs_events_lookup dest form ser docs : forall m p,
  NoDup (map (fun ko : string * obj => path_join dest (ko.1 +:+ form_ext form)) docs) ->
  foldl fs_apply m (flat_map (doc_events dest form ser) docs) !! p =
  match find (fun ko : string * obj => bool_decide (path_join dest (ko.1 +:+ form_ext form) = p)) docs with
  | Some ko => Some (ser ko.2 +:+ NL)
  | None => m !! p
  end.
Proof.
  induction docs as [|[k o] docs IH]; intros m p Hnd; [done|].
  cbn [flat_map map] in *. apply NoDup_cons in Hnd as [Hn Hnd].
  rewrite foldl_app, IH by done. simpl.
  destruct (decide (path_join dest (k +:+ form_ext form) = p)) as [<-|Hne].
  - rewrite bool_decide_true by done.
    destruct (find _ docs) as [[k' o']|] eqn:Hf.
    + exfalso. apply find_some in Hf as [Hin%list_elem_of_In Heq%bool_decide_eq_true].
      apply Hn. apply list_elem_of_fmap. by exists (k', o').
    + rewrite !lookup_insert_eq. reflexivity.
  - rewrite bool_decide_false by done. destruct (find _ docs); [done|].
    by rewrite !lookup_insert_ne.
Qed.

(** C19: each document of a text export gets its own file.  When no
    id contains ['/'], the files opened are [<dest>/<name>] for names
    that are pairwise distinct and contain no ['/']: entries of the one
    directory [dest] under distinct names, hence distinct files (an id
    such as ["./x"] could name the file of the id ["x"], and an id with
    a directory part names a file outside [dest] or one whose directory
    may not exist). *)
Theorem export_files_distinct stop w c dest form :
  corpus_inv w -> form ∈ ["text"; "tsv"; "bigrams"] ->
  (forall k, k ∈ dict_keys (docs_of w c) -> str_contains "/" k = false) ->
  exists names, opened (export stop w c dest false form).1 = map (path_join dest) names
    /\ NoDup names /\ Forall (fun n => str_contains "/" n = false) names
    /\ NoDup (opened (export stop w c dest false form).1).
Proof.
  intros Hw Hf Hk. rewrite (proj2 (export_files stop w c dest form Hw Hf)).
  assert (He : str_contains "/" (form_ext form) = false) by (unfold form_ext; repeat case_match; done).
  exists (map (fun k => k +:+ form_ext form) (dict_keys (docs_of w c))). split_and!.
  - by rewrite map_map.
  - apply NoDup_fmap_2_strong; [|by apply docs_of_wf]. intros k1 k2 _ _. apply str_app_inv_r.
  - apply Forall_forall. intros n (k & -> & Hin)%list_elem_of_fmap.
    rewrite str_contains_char_app, He, orb_false_r. by apply Hk.
  - apply paths_nodup; [by apply docs_of_wf | intros k Hin; by apply no_slash_prefix, Hk |].
    by apply no_slash_prefix.
Qed.

(** C20: an id that is an absolute path escapes the destination:
    [os.path.join] drops [dest], so the export opens [<id>.<ext>] itself,
    where the specification says each file is written at
    [<dest>/<id>.<ext>]. *)
Theorem export_absolute_id stop w c dest form k :
  corpus_inv w -> form ∈ ["text"; "tsv"; "bigrams"] -> k ∈ dict_keys (docs_of w c) ->
  String.prefix "/" k = true ->
  (k +:+ form_ext form) ∈ opened (export stop w c dest false form).1.
Proof.
  intros Hw Hf Hk Hp. rewrite (proj2 (export_files stop w c dest form Hw Hf)).
  apply (list_elem_of_fmap (fun k => path_join dest (k +:+ form_ext form))). exists k. split; [|done].
  unfold path_join. by rewrite (prefix_app_r "/" k (form_ext form) Hp).
Qed.

(** C33: [Document] has no method [bioc], so a BioC export opens (and
    so creates, empty) the file of the first document and then raises
    [AttributeError]; no document is exported. *)
Theorem export_bioc_fails stop w c dest abstract o r d k :
  iter w c = o :: r -> heap w !! o = Some d -> id d = Some k ->
  export stop w c dest abstract "bioc"
  = ([FOpen (path_join dest (k +:+ ".xml"))], Raise AttributeError).
Proof. intros Hi Hd Hk. unfold export. simpl. rewrite Hi. simpl. unfold export_one. by rewrite Hd, Hk. Qed.

(** ** Witnesses *)

Definition small_corpus : World :=
  mk_world (<[0 := [("a", 0)]]> ∅)
    (<[0 := mk_document (Some "a") ["Ada"] "Graphs" "" "2001" "" {[ "zz" ]}
              [mk_section None ["One."]] (Some 0)]> ∅).

Lemma small_corpus_inv : corpus_inv small_corpus.
Proof. apply corpus_inv_b_spec. by vm_compute. Qed.

Lemma export_bad_form_witness :
  existsb (String.eqb "bogus") export_forms = false
  /\ export (fun _ => false) small_corpus 0 "/out" false "bogus"
     = ([], Raise (SystemExit 1)).
Proof. split; [reflexivity | apply export_bad_form; reflexivity]. Defined.

Lemma export_files_witness :
  corpus_inv small_corpus /\ "text" ∈ ["text"; "tsv"; "bigrams"]
  /\ (export (fun _ => false) small_corpus 0 "/out" false "text").2 = Ok tt
  /\ opened (export (fun _ => false) small_corpus 0 "/out" false "text").1
     = map (fun k => path_join "/out" (k +:+ form_ext "text")) (dict_keys (docs_of small_corpus 0)).
Proof.
  assert (Hf : "text" ∈ ["text"; "tsv"; "bigrams"]) by (apply elem_of_cons; by left).
  split_and!; [exact small_corpus_inv | exact Hf |
    exact (proj1 (export_files _ small_corpus 0 "/out" "text" small_corpus_inv Hf)) |
    exact (proj2 (export_files _ small_corpus 0 "/out" "text" small_corpus_inv Hf))].
Defined.

Lemma export_files_distinct_witness :
  exists names, opened (export (fun _ => false) small_corpus 0 "/out" false "text").1
                = map (path_join "/out") names
    /\ NoDup names /\ Forall (fun n => str_contains "/" n = false) names
    /\ NoDup (opened (export (fun _ => false) small_corpus 0 "/out" false "text").1).
Proof.
  apply export_files_distinct; [exact small_corpus_inv | apply elem_of_cons; by left |].
  intros k Hk. vm_compute in Hk. apply elem_of_cons in Hk as [-> | Hk]; [done|].
  by apply not_elem_of_nil in Hk.
Defined.

Lemma export_bioc_fails_witness :
  export (fun _ => false) small_corpus 0 "/out" false "bioc"
  = ([FOpen "/out/a.xml"], Raise AttributeError).
Proof. exact (export_bioc_fails _ small_corpus 0 "/out" false 0 []
                (mk_document (Some "a") ["Ada"] "Graphs" "" "2001" "" {[ "zz" ]}
                   [mk_section None ["One."]] (Some 0)) "a" eq_refl eq_refl eq_refl). Defined.

Lemma export_json_readback_witness :
  corpus_inv small_corpus
  /\ (export (fun _ => false) small_corpus 0 "/out" false "json").2 = Ok tt
  /\ (forall p content, FWrite p content ∈ (export (fun _ => false) small_corpus 0 "/out" false "json").1 ->
      exists k o d, dict_get (docs_of small_corpus 0) k = Some o /\ heap small_corpus !! o = Some d /\
        p = path_join "/out" (k +:+ ".json") /\ loads content = Ok (doc_dict_sorted k d (sections d))).
Proof.
  split_and!; [exact small_corpus_inv |
    exact (proj1 (export_json_readback (fun _ => false) small_corpus 0 "/out" small_corpus_inv)) |
    exact (proj2 (export_json_readback (fun _ => false) small_corpus 0 "/out" small_corpus_inv))].
Defined.

Definition abs_corpus : World :=
  mk_world (<[0 := [("/etc/cron.d/job", 0)]]> ∅)
    (<[0 := mk_document (Some "/etc/cron.d/job") [] "T" "" "" "" ∅ [] (Some 0)]> ∅).

Lemma export_absolute_id_witness :
  ("/etc/cron.d/job" +:+ form_ext "text")
    ∈ opened (export (fun _ => false) abs_corpus 0 "/out" false "text").1.
Proof.
  apply export_absolute_id; [apply corpus_inv_b_spec; by vm_compute | apply elem_of_cons; by left
    | apply elem_of_dict_keys; by exists 0 | reflexivity].
Defined.
