(* ===== verification/CorpusInit.v ===== *)
(** * [Corpus.__init__]: a TSV file, a BioC file or a directory

    Models lines 22-54 of corpus.py.  What the constructor asks of the
    operating system is the record [env]: [os.path.isfile], reading a file,
    the JSON record of a document file ([json.load] and the reading of its
    fields, see [DocJson]), the entries of [Path(path).iterdir()] as
    [str(f)], [mp.cpu_count()], and the sentence tokenizer.

    The directory branch maps [Document] over the file names with
    [pool.imap] in worker processes; the parent adds the results in order.
    A worker that raises an [Exception] sends it back and [imap] raises it
    in the parent at that position.  A worker that calls [sys.exit] (what
    [Document.__init__] does when [json.load] fails) raises [SystemExit],
    which the pool's worker loop does not catch: the process ends, its task
    never completes, and the parent waits for it for ever.  The outcome of
    the constructor is therefore [Returned] with the store and a [Res], or
    [Blocked]. *)

From S2P Require Import Prelude PyDict Json TitleCase Document DocInit DocJson Bigrams Corpus.

Record env : Type := mk_env {
  isfile : string -> bool;
  read_file : string -> Res string;
  load_json : string -> Res jdoc;
  listdir : string -> Res (list string);
  cpu_count : nat;
  tokenize : string -> list string
}.

Inductive outcome : Type :=
  | Returned (w : World) (c : corpus_ref) (r : Res unit)
  | Blocked (w : World) (c : corpus_ref).

(** ** The BioC branch (lines 37-43) *)

(** [j['documents']] *)
Definition json_getitem (j : json) (k : string) : Res json :=
  match j with
  | JObj o => match dict_get o k with Some v => Ok v | None => Raise KeyError end
  | _ => Raise TypeError
  end.

(** [Document()] builds a document with no id; [Document] has no method
    [read_bioc_json], so the first record raises [AttributeError] before
    anything is added. *)
Definition bioc_ingest (e : env) (w : World) (c : corpus_ref) (path : string) : outcome :=
  match (s <- read_file e path ;; j <- loads s ;; ds <- json_getitem j "documents" ;; iter_json ds) with
  | Raise ex => Returned w c (Raise ex)
  | Ok [] => Returned w c (Ok tt)
  | Ok (_ :: _) =>
      match document_init (tokenize e) (read_file e) (load_json e) None None "" with
      | Ok doc => let '(w1, _) := alloc w doc in Returned w1 c (Raise AttributeError)
      | Raise ex => Returned w c (Raise ex)
      end
  end.

(** ** The directory branch (lines 44-54) *)

(** [re.match(".*[0-9]{8}", s)]: eight digits in a row before the first
    newline ([.] does not match a newline).  [run] counts the digits just
    read. *)
Fixpoint digit_run (run : nat) (s : string) : bool :=
  match s with
  | EmptyString => false
  | String c r =>
      if code c =? 10 then false
      else if is_digit c then (run =? 7) || digit_run (S run) r
      else digit_run 0 r
  end.

Definition eight_digits (s : string) : bool := digit_run 0 s.

(** The generator of line 50. *)
Definition dir_file_ok (e : env) (f : string) : bool :=
  isfile e f && str_ends_with ".txt" f && eight_digits f.

(** [for doc in pool.imap(Document, docnames): if doc: self.add(doc)];
    a [Document] object is always true. *)
Fixpoint pool_ingest (e : env) (w : World) (c : corpus_ref) (names : list string) : outcome :=
  match names with
  | [] => Returned w c (Ok tt)
  | f :: r =>
      match document_init (tokenize e) (read_file e) (load_json e) (Some f) None "" with
      | Raise (SystemExit _) => Blocked w c
      | Raise ex => Returned w c (Raise ex)
      | Ok doc =>
          let '(w1, o) := alloc w doc in
          let '(w2, res) := add w1 c o in
          match res with
          | Ok _ => pool_ingest e w2 c r
          | Raise ex => Returned w2 c (Raise ex)
          end
      end
  end.

(** [mp.Pool(int(.5 * mp.cpu_count()))] unless a pool is given; a pool of
    no process raises [ValueError].  Then the names of [path_list], or the
    files of the directory that pass the test of line 50. *)
Definition dir_ingest (e : env) (w : World) (c : corpus_ref) (path : string) (pool : bool)
    (path_list : list string) : outcome :=
  if negb pool && (cpu_count e / 2 =? 0) then Returned w c (Raise ValueError)
  else
    match path_list with
    | _ :: _ => pool_ingest e w c path_list
    | [] =>
        match listdir e path with
        | Raise ex => Returned w c (Raise ex)
        | Ok names => pool_ingest e w c (filter (fun f => dir_file_ok e f = true) names)
        end
    end.

(** ** [Corpus(path, pool, path_list)] *)

Definition corpus_init (e : env) (w : World) (path : option string) (pool : bool)
    (path_list : list string) : outcome :=
  let '(w, c) := corpus_new w in
  match path with
  | Some p =>
      if truthy p && isfile e p then
        if str_contains ".tsv" p then
          match read_file e p with
          | Ok content =>
              let '(w', res) := ingest_lines (tokenize e) w c (tail (str_split "010"%char content)) in
              Returned w' c res
          | Raise ex => Returned w c (Raise ex)
          end
        else bioc_ingest e w c p
      else if truthy p then dir_ingest e w c p pool path_list
      else Returned w c (Ok tt)
  | None => Returned w c (Ok tt)
  end.

(** ** The back-reference invariant *)

Definition outcome_world (r : outcome) : World :=
  match r with Returned w _ _ | Blocked w _ => w end.

Lemma pool_ingest_inv e names : forall w c,
  corpus_inv w -> corpus_inv (outcome_world (pool_ingest e w c names)).
Proof.
  induction names as [|f names IH]; intros w c Hw; [done|]. cbn [pool_ingest].
  destruct (document_init _ _ _ _ _ _) as [doc|[]]; try done.
  pose proof (alloc_add_inv w c doc Hw) as Ha.
  destruct (alloc w doc) as [w1 o]. simpl in Ha. destruct (add w1 c o) as [w2 [u|ex]].
  - by apply IH.
  - done.
Qed.

Lemma bioc_ingest_inv e w c p : corpus_inv w -> corpus_inv (outcome_world (bioc_ingest e w c p)).
Proof.
  intros Hw. unfold bioc_ingest.
  destruct (rbind _ _) as [[|x l]|ex]; try done.
  destruct (document_init _ _ _ _ _ _) as [doc|ex]; [|done].
  pose proof (alloc_inv w doc Hw). by destruct (alloc w doc).
Qed.

Lemma dir_ingest_inv e w c p pool pl :
  corpus_inv w -> corpus_inv (outcome_world (dir_ingest e w c p pool pl)).
Proof.
  intros Hw. unfold dir_ingest. repeat case_match; try done; by apply pool_ingest_inv.
Qed.

Lemma corpus_init_inv e w p pool pl :
  corpus_inv w -> corpus_inv (outcome_world (corpus_init e w p pool pl)).
Proof.
  intros Hw. unfold corpus_init. pose proof (corpus_new_inv w Hw) as Hn.
  destruct (corpus_new w) as [w1 c]. simpl in Hn.
  destruct p as [p|]; [|done].
  destruct (truthy p && isfile e p).
  - destruct (str_contains ".tsv" p); [|by apply bioc_ingest_inv].
    destruct (read_file e p); [|done].
    pose proof (ingest_lines_inv (tokenize e) (tail (str_split "010"%char a)) w1 c Hn) as Hi.
    destruct (ingest_lines _ _ _ _). done.
  - destruct (truthy p); [by apply dir_ingest_inv | done].
Qed.

(** The operations of the library, now with every way of building a
    corpus. *)
Inductive sys_step : World -> World -> Prop :=
  | sys_lib w w' : step w w' -> sys_step w w'
  | sys_init e w p pool pl : sys_step w (outcome_world (corpus_init e w p pool pl)).

(** C1: the back-reference invariant of the library's documented use.
    Every store reached from the empty one by any sequence of: [Corpus()]
    with no path, building a [Document], [c.add(doc)] of a document that
    no other corpus holds, [c.clear()], reading a TSV file, and
    [Corpus(path, pool, path_list)] in any of its branches (TSV, BioC,
    directory; returned, raised or blocked), satisfies [corpus_inv]: each
    corpus holds each of its documents under the document's own id, the
    back-reference points to that corpus, and no id is held twice.
    [__ior__], [__setitem__] and [add] of a document held by another
    corpus are not among the steps: they break the invariant (C2). *)
Theorem sys_reachable_inv w : rtc sys_step empty_world w -> corpus_inv w.
Proof.
  intros Hr. remember empty_world as w0 eqn:E.
  assert (H0 : corpus_inv w0) by (subst; intros c docs Hc; simpl in Hc; by rewrite lookup_empty in Hc).
  clear E. induction Hr as [w|w1 w2 w3 Hs _ IH]; [done|]. apply IH.
  destruct Hs as [w1 w2 Hs|e w1 p pool pl]; [by apply (step_inv w1)|].
  by apply corpus_init_inv.
Qed.

(** ** What the directory branch adds *)

(** A new document added to [c]: the corpus seen as a store now gives it
    (stamped) under its id, and every other id as before. *)
Lemma alloc_spec w d w1 o :
  alloc w d = (w1, o) -> heap w1 = <[o := d]> (heap w) /\ corpora w1 = corpora w /\ o ∉ dom (heap w).
Proof.
  intros Ha. pose proof (alloc_fresh w d) as Hf. pose proof (heap_alloc w d) as Hh.
  pose proof (corpora_alloc w d) as Hc. rewrite Ha in Hf, Hh, Hc. done.
Qed.

Lemma alloc_add_store w c d k k' :
  corpus_inv w -> id d = Some k ->
  store_get ((add (alloc w d).1 c (alloc w d).2).1, c) k' =
  if decide (k' = k) then Some (set_corpus (Some c) d) else store_get (w, c) k'.
Proof.
  intros Hw Hk. destruct (alloc w d) as [w1 o] eqn:Ea. apply alloc_spec in Ea as (Hh & Hc1 & Hf).
  simpl. rewrite (add_ok_world _ c _ d k); [|by rewrite Hh, lookup_insert_eq|done].
  unfold store_get, world_store, docs_of. simpl. rewrite lookup_insert_eq. simpl.
  rewrite dict_get_set, Hc1, Hh.
  destruct (decide (k' = k)); simpl; [by rewrite lookup_insert_eq|].
  destruct (corpora w !! c) as [docs|] eqn:Hc; simpl; [|done].
  destruct (dict_get docs k') as [o'|] eqn:Hg; simpl; [|done].
  pose proof (inv_entry_in_heap w c docs k' o' Hw Hc Hg) as Ho'.
  rewrite !lookup_insert_ne; [done| |]; intros ->; by apply Hf.
Qed.

Lemma alloc_add_res w c d k : id d = Some k -> (add (alloc w d).1 c (alloc w d).2).2 = Ok tt.
Proof.
  intros Hk. destruct (alloc w d) as [w1 o] eqn:Ea. apply alloc_spec in Ea as (Hh & _).
  simpl. by rewrite (add_ok_world _ c _ d k); [|rewrite Hh, lookup_insert_eq|].
Qed.

Lemma alloc_add_keys w c d k :
  id d = Some k -> k ∉ dict_keys (docs_of w c) ->
  dict_keys (docs_of (add (alloc w d).1 c (alloc w d).2).1 c) = dict_keys (docs_of w c) ++ [k].
Proof.
  intros Hk Hn. destruct (alloc w d) as [w1 o] eqn:Ea. apply alloc_spec in Ea as (Hh & Hc1 & _).
  simpl. rewrite (add_ok_world _ c _ d k); [|by rewrite Hh, lookup_insert_eq|done].
  unfold docs_of at 1. simpl. rewrite lookup_insert_eq. simpl.
  unfold docs_of. simpl. rewrite Hc1. fold (docs_of w c).
  rewrite dict_set_fresh by done. unfold dict_keys. by rewrite map_app.
Qed.

(** [Document(f)] builds [d] in the worker. *)
Definition builds (e : env) (f : string) (d : Document) : Prop :=
  document_init (tokenize e) (read_file e) (load_json e) (Some f) None "" = Ok d.

(** The first document of [ds] with id [k]. *)
Definition doc_with_id (ds : list Document) (k : string) : option Document :=
  find (fun d => bool_decide (id d = Some k)) ds.

(** When every file builds a document and the ids are new and distinct,
    the directory branch returns [Ok], the ids come after the old ones in
    the order of the files, and the corpus gives each new id its document,
    stamped. *)
Lemma pool_ingest_ok e fs ds : forall w c,
  corpus_inv w -> Forall2 (builds e) fs ds -> Forall (fun d => is_Some (id d)) ds ->
  NoDup (dict_keys (docs_of w c) ++ omap id ds) ->
  exists w', pool_ingest e w c fs = Returned w' c (Ok tt) /\ corpus_inv w' /\
    dict_keys (docs_of w' c) = dict_keys (docs_of w c) ++ omap id ds /\
    forall k, store_get (w', c) k =
      match doc_with_id ds k with
      | Some d => Some (set_corpus (Some c) d)
      | None => store_get (w, c) k
      end.
Proof.
  intros w c Hw Hf. revert w Hw. induction Hf as [|f d fs ds Hb Hbs IH]; intros w Hw Hids Hnd.
  { exists w. rewrite app_nil_r. by split_and!. }
  inversion Hids as [|? ? [k Hk] Hids']; subst. cbn [pool_ingest]. unfold builds in Hb. rewrite Hb.
  simpl in Hnd. rewrite Hk in Hnd. simpl in Hnd.
  assert (Hn : k ∉ dict_keys (docs_of w c)).
  { intros Hin. apply NoDup_app in Hnd as (_ & Hdis & _). apply (Hdis k); [done|]. by left. }
  pose proof (alloc_add_inv w c d Hw) as Hinv.
  pose proof (alloc_add_keys w c d k Hk Hn) as Hkeys.
  pose proof (fun k' => alloc_add_store w c d k k' Hw Hk) as Hst.
  pose proof (alloc_add_res w c d k Hk) as Hr.
  destruct (alloc w d) as [w1 o]. simpl in Hinv, Hkeys, Hst, Hr.
  destruct (add w1 c o) as [w2 r]. simpl in Hinv, Hkeys, Hst, Hr. subst r. destruct (IH _ Hinv Hids') as (w' & Hp & Hw' & Hk' & Hs').
  { rewrite Hkeys, <- app_assoc. exact Hnd. }
  exists w'. split_and!; [exact Hp | exact Hw' | by rewrite Hk', Hkeys, <- app_assoc; simpl; rewrite Hk |].
  intros k'. rewrite Hs'. unfold doc_with_id. cbn [find]. rewrite Hk.
  destruct (decide (k' = k)) as [->|Hne].
  - rewrite bool_decide_true by done.
    destruct (find _ ds) as [d'|] eqn:Hfd; [|by rewrite Hst, decide_True].
    exfalso. apply find_some in Hfd as [Hin%list_elem_of_In Hid%bool_decide_eq_true].
    apply NoDup_app in Hnd as (_ & _ & Hnd). apply NoDup_cons in Hnd as [Hnk _].
    apply Hnk. apply list_elem_of_omap. by exists d'.
  - rewrite bool_decide_false by congruence. fold (doc_with_id ds k').
    destruct (doc_with_id ds k'); [done|]. by rewrite Hst, decide_False.
Qed.

(** ** The file-name test of line 50 *)

Fixpoint digits_at (n : nat) (s : string) : bool :=
  match n, s with
  | O, _ => true
  | S n, String c r => is_digit c && digits_at n r
  | S _, EmptyString => false
  end.

(** [re.match(".*[0-9]{8}", s)] read off the pattern: eight digits here,
    or one character other than a newline (the [.] of [.*]) and a match
    further on. *)
Fixpoint eight_ref (s : string) : bool :=
  digits_at 8 s || match s with
                   | String c r => negb (code c =? 10) && eight_ref r
                   | EmptyString => false
                   end.

Lemma digits_at_mono n m s : n <= m -> digits_at m s = true -> digits_at n s = true.
Proof.
  revert n m. induction s as [|c s IH]; intros [|n] [|m] Hnm; simpl; try done; try lia.
  intros [-> H]%andb_true_iff. apply IH with m; [lia | done].
Qed.

Lemma eight_ref_digits s : digits_at 8 s = true -> eight_ref s = true.
Proof. destruct s; simpl; intros ->; done. Qed.

Lemma digits_at_cons n c r : digits_at (S n) (String c r) = is_digit c && digits_at n r.
Proof. done. Qed.

Lemma eight_ref_cons c r :
  eight_ref (String c r) = digits_at 8 (String c r) || (negb (code c =? 10) && eight_ref r).
Proof. done. Qed.

Lemma digit_run_ref run s : run <= 7 -> digit_run run s = digits_at (8 - run) s || eight_ref s.
Proof.
  revert run. induction s as [|c r IH]; intros run Hrun.
  - simpl. destruct (8 - run) eqn:E; [lia | done].
  - cbn [digit_run]. rewrite eight_ref_cons.
    replace (8 - run) with (S (7 - run)) by lia. rewrite !digits_at_cons.
    destruct (code c =? 10) eqn:Hnl.
    + apply Nat.eqb_eq in Hnl. assert (Hd : is_digit c = false).
      { unfold is_digit. rewrite Hnl. done. }
      by rewrite Hd.
    + destruct (is_digit c) eqn:Hd; rewrite ?andb_true_l, ?andb_false_l; cbn [negb].
      * destruct (run =? 7) eqn:H7.
        { apply Nat.eqb_eq in H7. subst run. done. }
        apply Nat.eqb_neq in H7. rewrite orb_false_l, ?andb_true_l, IH by lia.
        replace (8 - S run) with (7 - run) by lia.
        destruct (digits_at 7 r) eqn:E7; [|by destruct (digits_at (7 - run) r), (eight_ref r)].
        by rewrite (digits_at_mono (7 - run) 7 r ltac:(lia) E7).
      * rewrite IH by lia. replace (8 - 0) with 8 by lia.
        destruct (digits_at 8 r) eqn:E8; [|done]. by rewrite eight_ref_digits.
Qed.

(** The scan [eight_digits] that models [re.match(".*[0-9]{8}", s)]
    agrees with the pattern read directly: a run of eight digits that no
    newline precedes. *)
Theorem eight_digits_ref s : eight_digits s = eight_ref s.
Proof.
  unfold eight_digits. rewrite digit_run_ref by lia. simpl (8 - 0).
  destruct (digits_at 8 s) eqn:E; [by rewrite eight_ref_digits | done].
Qed.

(** ** Outcomes of the constructor *)

Lemma docs_of_corpus_new w : docs_of (corpus_new w).1 (corpus_new w).2 = [].
Proof. unfold docs_of, corpus_new, set_docs. simpl. by rewrite lookup_insert_eq. Qed.

(** C8: the directory branch of [Corpus(path, pool, path_list)] adds
    every document.  For a directory path and a non-empty [path_list]
    whose files all build documents with ids, pairwise distinct, and a
    pool of at least one worker: the constructor returns, the new corpus
    satisfies the invariant, its ids are those of the documents in the
    order of [path_list], and under each id it holds that document with
    its back-reference set to the new corpus. *)
Theorem corpus_init_dir_adds e w0 p pool pl ds :
  corpus_inv w0 -> truthy p = true -> isfile e p = false ->
  (pool = true \/ cpu_count e / 2 <> 0) -> pl <> [] ->
  Forall2 (builds e) pl ds -> Forall (fun d => is_Some (id d)) ds -> NoDup (omap id ds) ->
  exists w', corpus_init e w0 (Some p) pool pl = Returned w' (corpus_new w0).2 (Ok tt)
    /\ corpus_inv w'
    /\ dict_keys (docs_of w' (corpus_new w0).2) = omap id ds
    /\ forall k, store_get (w', (corpus_new w0).2) k
         = option_map (set_corpus (Some (corpus_new w0).2)) (doc_with_id ds k).
Proof.
  intros Hw0 Ht Hf Hp Hne Hb Hids Hnd.
  pose proof (corpus_new_inv w0 Hw0) as Hw1. pose proof (docs_of_corpus_new w0) as H1.
  unfold corpus_init. destruct (corpus_new w0) as [w1 c]. simpl in Hw1, H1 |- *.
  rewrite Ht, Hf. simpl. unfold dir_ingest.
  assert (Hg : negb pool && (cpu_count e / 2 =? 0) = false).
  { destruct Hp as [-> | Hc]; [done|]. apply andb_false_iff. right. by apply Nat.eqb_neq. }
  rewrite Hg. destruct pl as [|f fs]; [done|].
  destruct (pool_ingest_ok e (f :: fs) ds w1 c Hw1 Hb Hids) as (w' & Hpi & Hinv & Hk & Hs);
    [by rewrite H1|].
  exists w'. split_and!; [done | done | by rewrite Hk, H1 |].
  intros k. rewrite Hs. destruct (doc_with_id ds k); [done|].
  unfold store_get, world_store. by rewrite H1.
Qed.

(** C9: on a host with one processor, [Corpus(dir)] with no pool given
    raises [ValueError] from [mp.Pool(0)] before reading the directory,
    and leaves the new corpus empty. *)
Theorem corpus_init_one_cpu e w p pl :
  cpu_count e < 2 -> truthy p = true -> isfile e p = false ->
  corpus_init e w (Some p) false pl
    = Returned (corpus_new w).1 (corpus_new w).2 (Raise ValueError)
  /\ docs_of (corpus_new w).1 (corpus_new w).2 = [].
Proof.
  intros Hc Hp Hf. split; [|apply docs_of_corpus_new].
  unfold corpus_init. destruct (corpus_new w) as [w1 c]. rewrite Hp, Hf. simpl.
  unfold dir_ingest. by replace (cpu_count e / 2) with 0 by (symmetry; apply Nat.div_small; lia).
Qed.

(** [Document(f)] in a worker calls [sys.exit]. *)
Definition worker_exits (e : env) (f : string) : Prop :=
  exists k, document_init (tokenize e) (read_file e) (load_json e) (Some f) None "" = Raise (SystemExit k).

Lemma pool_ingest_blocked e names : forall w c w' c',
  pool_ingest e w c names = Blocked w' c' -> exists f, f ∈ names /\ worker_exits e f.
Proof.
  induction names as [|f names IH]; intros w c w' c' H; [done|]. cbn [pool_ingest] in H.
  destruct (document_init _ _ _ _ _ _) as [doc|ex] eqn:Hd.
  - destruct (alloc w doc) as [w1 o]. destruct (add w1 c o) as [w2 [u|ex]]; [|done].
    destruct (IH _ _ _ _ H) as (g & Hg & Hx). exists g. split; [by right|done].
  - destruct ex; try done. exists f. split; [left|by exists code].
Qed.

(** [pool.imap] returns to the parent unless a worker exits: when no
    file of the list makes [Document] call [sys.exit], the directory
    ingestion returns (with [Ok] or with the first exception). *)
Theorem pool_ingest_returns e names w c :
  (forall f, f ∈ names -> ~ worker_exits e f) ->
  exists w' r, pool_ingest e w c names = Returned w' c r.
Proof.
  intros Hn. destruct (pool_ingest e w c names) as [w' c' r|w' c'] eqn:H.
  - enough (c' = c) by (subst; eauto).
    clear Hn. revert w H. induction names as [|f names IH]; intros w H; cbn [pool_ingest] in H.
    + congruence.
    + destruct (document_init _ _ _ _ _ _) as [doc|[]]; try congruence.
      destruct (alloc w doc) as [w1 o]. destruct (add w1 c o) as [w2 [u|ex]]; [by eapply IH|congruence].
  - destruct (pool_ingest_blocked _ _ _ _ _ _ H) as (f & Hf & Hx). by destruct (Hn f Hf).
Qed.

Lemma pool_ingest_app e l1 : forall w c l2 w1,
  pool_ingest e w c l1 = Returned w1 c (Ok tt) -> pool_ingest e w c (l1 ++ l2) = pool_ingest e w1 c l2.
Proof.
  induction l1 as [|f l1 IH]; intros w c l2 w1 H; cbn [pool_ingest app] in *; [congruence|].
  destruct (document_init _ _ _ _ _ _) as [doc|[]]; try congruence.
  destruct (alloc w doc) as [w2 o]. destruct (add w2 c o) as [w3 [u|ex]]; [by apply IH|congruence].
Qed.

(** C10: a file whose [Document] raises an [Exception] aborts the whole
    directory ingestion: the documents of the files before it stay added,
    none after it is read, and [Corpus.__init__] raises that exception;
    the spec's "documents that fail to build are skipped" does not hold. *)
Theorem pool_ingest_error_aborts e w c good f rest w1 ex :
  pool_ingest e w c good = Returned w1 c (Ok tt) ->
  document_init (tokenize e) (read_file e) (load_json e) (Some f) None "" = Raise ex ->
  (forall k, ex <> SystemExit k) ->
  pool_ingest e w c (good ++ f :: rest) = Returned w1 c (Raise ex).
Proof.
  intros Hg Hd Hx. rewrite (pool_ingest_app _ _ _ _ _ _ Hg). cbn [pool_ingest]. rewrite Hd.
  destruct ex; try done. by destruct (Hx code).
Qed.

(** The record loader of the environment is the reading of [DocJson]:
    [json.load] of the file's text, then the fields of lines 138-150, on
    every file whose record the model's [Document] can hold. *)
Definition loader_agrees (e : env) : Prop :=
  forall f, loader_for (read_file e) (load_json e) f.

Lemma loader_exits e f :
  loader_agrees e -> (forall s, read_file e f = Ok s -> exists ex, loads s = Raise ex) ->
  load_json e f = Raise (SystemExit 1).
Proof.
  intros He Hs. specialize (He f). unfold loader_for, load_record, json_load in He.
  destruct (read_file e f) as [s|ex]; [|done].
  destruct (Hs s eq_refl) as [ex Hl]. by rewrite Hl in He.
Qed.

(** C7: a file of the directory whose name contains ["json"] is read as a
    JSON record; when its text is not JSON, [Document] calls [sys.exit(1)]
    in the worker and the parent waits for ever: the directory ingestion
    never returns. *)
Theorem pool_ingest_json_path_blocks e w c f names :
  loader_agrees e -> truthy f = true -> str_contains "json" f = true ->
  (forall s, read_file e f = Ok s -> exists ex, loads s = Raise ex) ->
  pool_ingest e w c (f :: names) = Blocked w c.
Proof.
  intros He Ht Hj Hs. cbn [pool_ingest]. unfold document_init, resolve_form, file_given, infer_form.
  rewrite Ht, Hj. simpl. by rewrite (loader_exits e f He Hs).
Qed.

(** C11: a BioC file ([Corpus(p)] for a file [p] whose name lacks [".tsv"])
    with at least one document is never read: [Document()] is built and
    [read_bioc_json] raises [AttributeError], leaving the corpus empty. *)
Theorem corpus_init_bioc_fails e w p pool pl s j ds x rest :
  truthy p = true -> isfile e p = true -> str_contains ".tsv" p = false ->
  read_file e p = Ok s -> loads s = Ok j -> json_getitem j "documents" = Ok ds ->
  iter_json ds = Ok (x :: rest) ->
  exists w', corpus_init e w (Some p) pool pl = Returned w' (corpus_new w).2 (Raise AttributeError)
    /\ docs_of w' (corpus_new w).2 = [].
Proof.
  intros Ht Hf Hc Hr Hl Hg Hi. pose proof (docs_of_corpus_new w) as H0.
  unfold corpus_init. destruct (corpus_new w) as [w1 c]. rewrite Ht, Hf, Hc. simpl.
  unfold bioc_ingest. rewrite Hr. simpl. rewrite Hl. simpl. rewrite Hg. simpl. rewrite Hi.
  eexists. split; [reflexivity|]. done.
Qed.

(** ** A host for the examples *)

(** The loader an environment has when it reads records as [DocJson] does;
    a record outside the typed fragment is refused. *)
Definition loader_of (rf : string -> Res string) (f : string) : Res jdoc :=
  match load_record rf f with
  | Ok (Some jd) => Ok jd
  | Ok None => Raise TypeError
  | Raise ex => Raise ex
  end.

Lemma loader_of_agrees e : load_json e = loader_of (read_file e) -> loader_agrees e.
Proof.
  intros He f. unfold loader_for, load_record. rewrite He. unfold loader_of, load_record.
  destruct (rbind _ _) as [[jd|]|ex]; done.
Qed.

(** One BioC file with one record; a directory with a paper, a file that
    cannot be decoded ([UnicodeDecodeError] is a [ValueError]), a text
    file whose name contains ["json"], and a file the test of line 50
    skips. *)
Definition bioc_text : string :=
  "{" +:+ str1 DQ +:+ "documents" +:+ str1 DQ +:+ ": [{}]}".

Definition demo_files (p : string) : Res string :=
  if String.eqb p "corpus.bioc" then Ok bioc_text
  else if String.eqb p "acl/bad-20160101.txt" then Raise ValueError
  else Ok "We study graphs.".

Definition demo_env (n : nat) : env :=
  mk_env (fun p => negb (String.eqb p "acl")) demo_files (loader_of demo_files)
    (fun _ => Ok ["acl/P15-10010000.txt"; "acl/notes-20160101.json.txt"; "acl/README.md"])
    n (fun s => [s]).

Lemma demo_agrees n : loader_agrees (demo_env n).
Proof. by apply loader_of_agrees. Qed.

Definition demo_c : corpus_ref := (corpus_new empty_world).2.
Definition demo_w : World := (corpus_new empty_world).1.

(** The directory of [demo_env]: the paper is added, then the worker
    reading the text file as JSON exits, and [Corpus("acl")] never
    returns. *)
Example corpus_init_demo_blocks :
  exists w, corpus_init (demo_env 4) empty_world (Some "acl") false [] = Blocked w demo_c.
Proof. eexists. vm_compute. reflexivity. Qed.

Lemma sys_reachable_inv_witness :
  rtc sys_step empty_world (outcome_world (corpus_init (demo_env 4) empty_world (Some "acl") false []))
  /\ corpus_inv (outcome_world (corpus_init (demo_env 4) empty_world (Some "acl") false [])).
Proof.
  assert (Hr : rtc sys_step empty_world
    (outcome_world (corpus_init (demo_env 4) empty_world (Some "acl") false []))).
  { apply rtc_once. apply sys_init. }
  split; [exact Hr | apply (sys_reachable_inv _ Hr)].
Defined.

Lemma corpus_init_one_cpu_witness :
  corpus_init (demo_env 1) empty_world (Some "acl") false [] = Returned demo_w demo_c (Raise ValueError)
  /\ docs_of demo_w demo_c = [].
Proof. apply (corpus_init_one_cpu (demo_env 1) empty_world "acl" []); [simpl; lia | reflexivity | reflexivity]. Defined.

Lemma pool_ingest_returns_witness :
  exists w' r, pool_ingest (demo_env 4) demo_w demo_c ["acl/P15-10010000.txt"] = Returned w' demo_c r.
Proof.
  apply pool_ingest_returns. intros f Hf%list_elem_of_singleton [k Hk]. subst f.
  vm_compute in Hk. discriminate.
Defined.

Lemma pool_ingest_error_aborts_witness :
  pool_ingest (demo_env 4) demo_w demo_c
    (["acl/P15-10010000.txt"] ++ "acl/bad-20160101.txt" :: ["acl/README.md"])
  = Returned (outcome_world (pool_ingest (demo_env 4) demo_w demo_c ["acl/P15-10010000.txt"]))
      demo_c (Raise ValueError).
Proof.
  apply pool_ingest_error_aborts; [vm_compute; reflexivity | vm_compute; reflexivity | done].
Defined.

Lemma pool_ingest_json_path_blocks_witness :
  pool_ingest (demo_env 4) demo_w demo_c ["acl/notes-20160101.json.txt"] = Blocked demo_w demo_c.
Proof.
  apply pool_ingest_json_path_blocks; [apply demo_agrees | reflexivity | reflexivity|].
  intros s Hs. vm_compute in Hs. injection Hs as <-. eexists. vm_compute. reflexivity.
Defined.

Lemma corpus_init_bioc_fails_witness :
  exists w', corpus_init (demo_env 4) empty_world (Some "corpus.bioc") false []
    = Returned w' demo_c (Raise AttributeError) /\ docs_of w' demo_c = [].
Proof.
  apply (corpus_init_bioc_fails (demo_env 4) empty_world "corpus.bioc" false [] bioc_text
           (JObj [("documents", JArr [JObj []])]) (JArr [JObj []]) (JObj []) []);
    vm_compute; reflexivity.
Defined.


(** The document [Document("acl/P15-10010000.txt")] builds on [demo_env]. *)
Definition demo_paper : Document :=
  match document_init (tokenize (demo_env 4)) (read_file (demo_env 4)) (load_json (demo_env 4))
          (Some "acl/P15-10010000.txt") None "" with
  | Ok d => d
  | Raise _ => mk_document None [] "" "" "" "" ∅ [] None
  end.

Lemma corpus_init_dir_adds_witness :
  exists w', corpus_init (demo_env 4) empty_world (Some "acl") false ["acl/P15-10010000.txt"]
             = Returned w' demo_c (Ok tt)
    /\ corpus_inv w'
    /\ dict_keys (docs_of w' demo_c) = omap id [demo_paper]
    /\ forall k, store_get (w', demo_c) k = option_map (set_corpus (Some demo_c)) (doc_with_id [demo_paper] k).
Proof.
  apply corpus_init_dir_adds.
  - intros c docs Hc. simpl in Hc. by rewrite lookup_empty in Hc.
  - reflexivity.
  - reflexivity.
  - right. simpl. lia.
  - done.
  - constructor; [vm_compute; reflexivity | constructor].
  - constructor; [vm_compute; by eexists | constructor].
  - vm_compute. constructor; [apply not_elem_of_nil | constructor].
Defined.
