(* ===== verification/TextUtil.v ===== *)
(** * Text helpers: [filter_non_printable], [strtr], [dehyphenate], [fix_text]

    Models lines 82-83, 169-192, 320-321 and 329-332 of corpus.py.
    [filter_non_printable] drops the control characters but tab and
    newline.  [strtr] is [re.sub] with the alternation of the escaped keys
    of a dict: at each position the first key in insertion order that
    matches wins (not the longest), and an empty match is allowed except
    right after an empty match at the same position (Python 3.7 and later).
    It recurses on the text by a measure, with Equations.
    [Document.dehyphenate] only defines its inner function and returns;
    the inner function reads a name [d] bound nowhere in the module, so
    it raises [NameError] at the first hyphenated word.  [Corpus.fix_text]
    is [pass]. *)

From Equations Require Import Equations.
From S2P Require Import Prelude PyDict TitleCase Document Bigrams Corpus.

(** ** [filter_non_printable] (lines 320-321) *)

Definition printable (c : ascii) : bool := (31 <? code c) || (code c =? 9) || (code c =? 10).

Fixpoint filter_non_printable (s : string) : string :=
  match s with
  | EmptyString => EmptyString
  | String c r => if printable c then String c (filter_non_printable r) else filter_non_printable r
  end.

(** ** [Corpus.fix_text] (lines 82-83) and [Document.dehyphenate]
    (lines 169-192) *)

Definition fix_text (w : World) (c : corpus_ref) : World := w.

(** [d.check(word)]: [d] is a free name of [dehyphenate_sent], and the
    module defines no global [d]. *)
Definition d_check (word : string) : Res bool := Raise NameError.

(** [w[:-1]] *)
Fixpoint str_init (s : string) : string :=
  match s with
  | EmptyString | String _ EmptyString => EmptyString
  | String c r => String c (str_init r)
  end.

(** The body of [for w1, w2 in bigrams(words)] (lines 177-189), on the
    state [(out, skip)]. *)
Definition dehyph_step (st : list string * bool) (p : string * string) : Res (list string * bool) :=
  let '(out, skip) := st in
  let '(w1, w2) := p in
  if skip then Ok (out, false)
  else match str_last w1 with
       | None => Raise IndexError
       | Some c =>
           if Ascii.eqb c "-" then
             b <- d_check (str_init w1 +:+ w2) ;;
             if b then Ok (out ++ [str_init w1 +:+ w2], true)
             else match str_head w1 with
                  | None => Raise IndexError
                  | Some c0 =>
                      if is_alpha c0 && negb (String.eqb w2 "and") then Ok (out ++ [w1 +:+ w2], true)
                      else Ok (out ++ [w1], skip)
                  end
           else Ok (out ++ [w1], skip)
       end.

(** [dehyphenate_sent] (lines 172-192). *)
Definition dehyphenate_sent (s : string) : Res string :=
  let words := str_words s in
  st <- rfold dehyph_step ([], false) (adjacent_pairs words) ;;
  let '(out, skip) := st in
  out <- (if skip then Ok out
          else match last words with Some w => Ok (out ++ [w]) | None => Raise IndexError end) ;;
  Ok (py_join " " out).

(** [Document.dehyphenate] defines [dehyphenate_sent] and returns [None]:
    the document is unchanged. *)
Definition dehyphenate (d : Document) : Document := d.

(** ** Properties of [filter_non_printable] *)

Definition kept_code (c : ascii) : Prop := 32 <= code c \/ code c = 9 \/ code c = 10.

Lemma printable_kept c : printable c = true <-> kept_code c.
Proof.
  unfold printable, kept_code.
  rewrite !orb_true_iff, Nat.ltb_lt, !Nat.eqb_eq. lia.
Qed.

Lemma str_has_cons c x r : str_has c (String x r) = true <-> c = x \/ str_has c r = true.
Proof.
  unfold str_has. cbn [str_existsb]. rewrite orb_true_iff.
  by rewrite Ascii.eqb_eq.
Qed.

(** [filter_non_printable] leaves no control character but tab and
    newline, and a string with none of them comes back unchanged. *)
Theorem filter_non_printable_spec s :
  (forall c, str_has c (filter_non_printable s) = true -> kept_code c) /\
  ((forall c, str_has c s = true -> kept_code c) -> filter_non_printable s = s).
Proof.
  induction s as [|x r [IH1 IH2]]; [done|]. cbn [filter_non_printable].
  destruct (printable x) eqn:Hx; split.
  - intros c [->|H]%str_has_cons; [by apply printable_kept | by apply IH1].
  - intros H. rewrite IH2; [done|]. intros c Hc. apply H, str_has_cons. by right.
  - exact IH1.
  - intros H. exfalso. assert (Hk : kept_code x) by (apply H, str_has_cons; by left).
    apply printable_kept in Hk. congruence.
Qed.

(** ** Properties of [dehyphenate_sent] *)

Lemma flush_nonempty cur ws :
  Forall (fun w => w <> "") ws -> Forall (fun w => w <> "") (flush cur ws).
Proof.
  intros H. destruct cur as [|c r]; [done|]. constructor; [|done].
  simpl. intros He. apply (f_equal String.length) in He.
  rewrite str_app_length in He. simpl in He. lia.
Qed.

Lemma str_words_aux_nonempty s : forall cur, Forall (fun w => w <> "") (str_words_aux cur s).
Proof.
  induction s as [|c r IH]; intros cur; simpl.
  - by apply flush_nonempty.
  - destruct (is_space c); [apply flush_nonempty|]; apply IH.
Qed.

(** [w[-1] == '-'] *)
Definition ends_hyphen (w : string) : bool := bool_decide (str_last w = Some "-"%char).

Lemma str_last_None s : str_last s = None -> s = "".
Proof. induction s as [|c [|d r] IH]; [done|done|]. intros H. by specialize (IH H). Qed.

Lemma adjacent_pairs_cons2 w1 w2 r :
  adjacent_pairs (w1 :: w2 :: r) = (w1, w2) :: adjacent_pairs (w2 :: r).
Proof. reflexivity. Qed.

Lemma rfold_dehyph ws : forall out, Forall (fun w => w <> "") ws ->
  rfold dehyph_step (out, false) (adjacent_pairs ws)
  = if existsb ends_hyphen (removelast ws) then Raise NameError else Ok (out ++ removelast ws, false).
Proof.
  induction ws as [|w1 [|w2 r] IH]; intros out Hne; [by rewrite app_nil_r.. |].
  inversion Hne as [|? ? Hw1 Hr]; subst.
  rewrite adjacent_pairs_cons2. cbn [rfold removelast existsb].
  unfold ends_hyphen at 1. unfold dehyph_step.
  destruct (str_last w1) as [c|] eqn:Hl.
  - destruct (Ascii.eqb c "-") eqn:Hc.
    + apply Ascii.eqb_eq in Hc. subst c. rewrite bool_decide_true by done. done.
    + rewrite bool_decide_false by (intros [= ->]; by rewrite Ascii.eqb_refl in Hc).
      simpl. rewrite IH by done. rewrite <- app_assoc. done.
  - by apply str_last_None in Hl.
Qed.

Lemma removelast_last_Some {A} (ws : list A) w : last ws = Some w -> removelast ws ++ [w] = ws.
Proof.
  induction ws as [|x [|y r] IH]; [done| by intros [= ->] |].
  intros H. cbn [removelast]. rewrite <- app_comm_cons. f_equal. by apply IH.
Qed.

(** C31: [dehyphenate_sent] on every input: [IndexError] on a sentence
    with no word, [NameError] as soon as a word before the last ends with
    a hyphen (the unbound [d] of line 179), and otherwise the words joined
    by single spaces; it never joins a hyphenated word. *)
Theorem dehyphenate_sent_spec s :
  dehyphenate_sent s =
    match str_words s with
    | [] => Raise IndexError
    | ws => if existsb ends_hyphen (removelast ws) then Raise NameError else Ok (py_join " " ws)
    end.
Proof.
  unfold dehyphenate_sent.
  rewrite (rfold_dehyph (str_words s) [] (str_words_aux_nonempty s "")).
  destruct (str_words s) as [|w ws] eqn:E; [done|].
  destruct (existsb ends_hyphen (removelast (w :: ws))); [done|].
  destruct (last (w :: ws)) as [x|] eqn:Hl; [|by rewrite last_None in Hl].
  pose proof (removelast_last_Some _ _ Hl) as Hr.
  set (rl := removelast (w :: ws)) in *. rewrite app_nil_l. cbn [rbind]. by rewrite Hr.
Qed.

(** ** [strtr] (lines 329-332) *)

(** The alternatives of ['(%s)' % '|'.join(map(re.escape, dic.keys()))]:
    the keys in insertion order, matched literally; no key gives the
    pattern ['()'], whose only alternative is empty. *)
Definition strtr_alts (dic : list (string * string)) : list string :=
  match dict_keys dic with [] => [""] | ks => ks end.

(** The match of the pattern at the current position: the first
    alternative that is a prefix of the rest of the text; after an empty
    match here ([adv]) an empty one is refused. *)
Definition match_at (alts : list string) (s : string) (adv : bool) : option string :=
  find (fun k => String.prefix k s && (negb adv || truthy k)) alts.

(** [dic[m.group()]] *)
Definition dict_getitem (dic : list (string * string)) (k : string) : Res string :=
  match dict_get dic k with Some v => Ok v | None => Raise KeyError end.

Lemma match_at_spec alts s adv k :
  match_at alts s adv = Some k -> k ∈ alts /\ String.prefix k s = true /\ (adv = true -> k <> "").
Proof.
  unfold match_at. intros H. pose proof (find_some _ _ H) as [Hin Hk].
  apply andb_true_iff in Hk as [Hp Ha]. split_and!; [by apply list_elem_of_In|done|].
  intros -> ->. done.
Qed.

Lemma prefix_length k s : String.prefix k s = true -> String.length k <= String.length s.
Proof.
  revert s. induction k as [|c k IH]; intros [|d s]; simpl; try done; [lia|].
  destruct (ascii_dec c d); [|done]. intros H. specialize (IH s H). lia.
Qed.

Lemma str_drop_length_eq n s : String.length (str_drop n s) = String.length s - n.
Proof. revert s. induction n as [|n IH]; intros [|c s]; simpl; try lia. apply IH. Qed.

(** [re.sub(pat, repl, text)] from the position whose rest is [s]. *)
Equations? strtr_at (alts : list string) (dic : list (string * string)) (s : string) (adv : bool)
    : Res string by wf (2 * String.length s + (if adv then 0 else 1)) lt :=
  strtr_at alts dic s adv with Equations.Prop.Logic.inspect (match_at alts s adv) := {
    | exist _ (Some EmptyString) H =>
        v <- dict_getitem dic "" ;; rest <- strtr_at alts dic s true ;; Ok (v +:+ rest)
    | exist _ (Some (String c k)) H =>
        v <- dict_getitem dic (String c k) ;;
        rest <- strtr_at alts dic (str_drop (S (String.length k)) s) false ;; Ok (v +:+ rest)
    | exist _ None _ with s := {
        | EmptyString => Ok ""
        | String c r => rest <- strtr_at alts dic r false ;; Ok (String c rest) } }.
Proof.
  - apply match_at_spec in H as (_ & _ & Ha). destruct adv; [by destruct Ha|]. lia.
  - apply match_at_spec in H as (_ & Hp & _). apply prefix_length in Hp. simpl in Hp.
    rewrite str_drop_length_eq. destruct adv; lia.
  - simpl. destruct adv; lia.
Qed.

(** [strtr(text, dic)] *)
Definition strtr (text : string) (dic : list (string * string)) : Res string :=
  strtr_at (strtr_alts dic) dic text false.

(** ** Properties of [strtr] *)

Lemma strtr_at_eq alts dic s adv :
  strtr_at alts dic s adv =
    match match_at alts s adv with
    | Some EmptyString => v <- dict_getitem dic "" ;; rest <- strtr_at alts dic s true ;; Ok (v +:+ rest)
    | Some (String c k) =>
        v <- dict_getitem dic (String c k) ;;
        rest <- strtr_at alts dic (str_drop (S (String.length k)) s) false ;; Ok (v +:+ rest)
    | None =>
        match s with
        | EmptyString => Ok ""
        | String c r => rest <- strtr_at alts dic r false ;; Ok (String c rest)
        end
    end.
Proof.
  funelim (strtr_at alts dic s adv);
    match goal with Hm : match_at _ _ _ = _ |- _ => rewrite Hm end; reflexivity.
Qed.

Example strtr_first_key_wins : strtr "ab" [("a", "1"); ("ab", "2")] = Ok "1b".
Proof. vm_compute. reflexivity. Qed.

Lemma strtr_at_ok alts dic s adv :
  (forall k, k ∈ alts -> is_Some (dict_get dic k)) -> exists r, strtr_at alts dic s adv = Ok r.
Proof.
  funelim (strtr_at alts dic s adv); intros Hk; clear Heqcall.
  1, 2: pose proof (match_at_spec _ _ _ _ H) as (Hin & _); destruct (Hk _ Hin) as [v Hv];
    unfold dict_getitem; rewrite Hv; cbn [rbind];
    match goal with IH : string -> _ |- _ => destruct (IH v Hk) as [r ->] end; by eexists.
  - by eexists.
  - match goal with IH : _ -> exists _, _ |- _ => destruct (IH Hk) as [r' ->] end. by eexists.
Qed.

(** C29: [strtr] raises [KeyError] exactly when the dict is empty (the
    pattern ['()'] then matches the empty string, and [dic['']] fails,
    whatever the text); with any key it returns a string. *)
Theorem strtr_keyerror text dic :
  (dic = [] -> strtr text dic = Raise KeyError) /\ (dic <> [] -> exists r, strtr text dic = Ok r).
Proof.
  split.
  - intros ->. unfold strtr. rewrite strtr_at_eq. unfold match_at, strtr_alts. simpl.
    by destruct text.
  - intros Hd. apply strtr_at_ok. intros k Hk. apply elem_of_dict_keys.
    unfold strtr_alts in Hk. destruct (dict_keys dic) eqn:E; [|done].
    destruct dic; [done|discriminate].
Qed.

(** No key is a prefix of another. *)
Definition prefix_free (ks : list string) : Prop :=
  forall k1 k2, k1 ∈ ks -> k2 ∈ ks -> String.prefix k1 k2 = true -> k1 = k2.

Definition str_concat (l : list string) : string := fold_right String.append "" l.

Lemma prefix_app k r : String.prefix k (k +:+ r) = true.
Proof.
  induction k as [|c k IH]; [by destruct r|]. simpl.
  destruct (ascii_dec c c); [done|congruence].
Qed.

Lemma prefix_common k1 k2 s :
  String.prefix k1 s = true -> String.prefix k2 s = true ->
  String.prefix k1 k2 = true \/ String.prefix k2 k1 = true.
Proof.
  revert k2 s. induction k1 as [|c k1 IH]; intros [|d k2] [|e s]; simpl; auto; try discriminate.
  destruct (ascii_dec c e), (ascii_dec d e); subst; try discriminate.
  destruct (ascii_dec e e); [|congruence]. apply IH.
Qed.

Lemma str_drop_app k r : str_drop (String.length k) (k +:+ r) = r.
Proof. induction k as [|c k IH]; [done|]. exact IH. Qed.

Lemma match_at_key ks k r :
  prefix_free ks -> k ∈ ks -> match_at ks (k +:+ r) false = Some k.
Proof.
  intros Hpf Hk. destruct (match_at ks (k +:+ r) false) as [k'|] eqn:E.
  - apply match_at_spec in E as (Hk' & Hp & _). f_equal.
    destruct (prefix_common k' k _ Hp (prefix_app k r)) as [H|H].
    + by apply Hpf. + symmetry. by apply Hpf.
  - exfalso. unfold match_at in E. eapply find_none in E; [|by apply list_elem_of_In].
    by rewrite prefix_app in E.
Qed.

Lemma match_at_end ks : Forall (fun k => k <> "") ks -> match_at ks "" false = None.
Proof.
  induction 1 as [|k ks Hk _ IH]; [done|]. unfold match_at in *. simpl.
  destruct k; [done|]. exact IH.
Qed.

(** C30: [strtr] decodes a text made of keys: when the keys are non-empty
    and no key is a prefix of another, the text [k1 k2 ... kn] of keys
    becomes [dic[k1] dic[k2] ... dic[kn]]. *)
Theorem strtr_concat dic ws :
  dic <> [] -> Forall (fun k => k <> "") (dict_keys dic) -> prefix_free (dict_keys dic) ->
  Forall (fun k => k ∈ dict_keys dic) ws ->
  strtr (str_concat ws) dic = Ok (str_concat (map (fun k => default "" (dict_get dic k)) ws)).
Proof.
  intros Hd Hne Hpf Hws. unfold strtr.
  replace (strtr_alts dic) with (dict_keys dic)
    by (unfold strtr_alts; destruct dic; [done|reflexivity]).
  induction Hws as [|k ws Hk _ IH]; rewrite strtr_at_eq.
  - by rewrite match_at_end.
  - cbn [str_concat fold_right map]. rewrite match_at_key by done.
    assert (Hk0 : k <> "") by (rewrite Forall_forall in Hne; by apply Hne).
    destruct (proj1 (elem_of_dict_keys dic k) Hk) as [v Hv].
    destruct k as [|c k]; [done|]. unfold dict_getitem. rewrite Hv. cbn [rbind].
    change (S (String.length k)) with (String.length (String c k)).
    rewrite str_drop_app. fold (str_concat ws). rewrite IH. done.
Qed.

Definition prefix_freeb (ks : list string) : bool :=
  forallb (fun k1 => forallb (fun k2 => negb (String.prefix k1 k2) || String.eqb k1 k2) ks) ks.

Lemma prefix_freeb_spec ks : prefix_freeb ks = true -> prefix_free ks.
Proof.
  unfold prefix_freeb. intros H k1 k2 H1 H2 Hp.
  rewrite forallb_forall in H. apply list_elem_of_In in H1, H2.
  specialize (H k1 H1). rewrite forallb_forall in H. specialize (H k2 H2).
  rewrite Hp in H. simpl in H. by apply String.eqb_eq.
Qed.

(** ** Examples *)

(** The empty key matches between characters, and after an empty match
    a key may match at the same place, as Python 3.7 does. *)
Example strtr_empty_key : strtr "a" [("", "X"); ("a", "Y")] = Ok "XYX".
Proof. vm_compute. reflexivity. Qed.

Definition html_escapes : list (string * string) :=
  [("<", "&lt;"); (">", "&gt;"); ("&", "&amp;")].

Lemma strtr_concat_witness :
  strtr (str_concat ["<"; "&"; ">"]) html_escapes
  = Ok (str_concat (map (fun k => default "" (dict_get html_escapes k)) ["<"; "&"; ">"])).
Proof.
  apply strtr_concat; [discriminate | apply (bool_decide_unpack _); vm_compute; reflexivity
    | apply prefix_freeb_spec; vm_compute; reflexivity | apply (bool_decide_unpack _); vm_compute; reflexivity].
Defined.

Lemma strtr_keyerror_witness :
  strtr "abc" [] = Raise KeyError /\ exists r, strtr "abc" [("a", "b")] = Ok r.
Proof.
  split; [apply (strtr_keyerror "abc" []); reflexivity | apply (strtr_keyerror "abc" [("a", "b")]); discriminate].
Defined.

Lemma filter_non_printable_spec_witness :
  filter_non_printable ("a" +:+ NL) = "a" +:+ NL.
Proof.
  apply (filter_non_printable_spec ("a" +:+ NL)). intros c Hc.
  apply str_has_cons in Hc as [->|Hc]; [unfold kept_code; cbv; lia|].
  apply str_has_cons in Hc as [->|Hc]; [unfold kept_code; cbv; lia|done].
Defined.

Example dehyphenate_sent_example : dehyphenate_sent "a well- known  fact" = Raise NameError.
Proof. vm_compute. reflexivity. Qed.
