(* ===== verification/RoundTrip.v ===== *)
(** * Export then re-import: [export(dest, form='json')] and [Corpus(dest, pool, path_list)]

    The composition of [Corpus.export] (lines 88-116), the file system its
    events leave ([fs_read] of [Export]), and the directory branch of
    [Corpus.__init__] (lines 44-54) over the list of files written, with
    [Document(f)] reading each file through [json.load] and lines 138-150
    ([loader_agrees]).  The corpus read back has the same ids in the same
    order, and under each id the document exported, as [Document.__init__]
    rebuilds it: authors stripped, [title_case] applied once more to the
    title and the book, no back-reference until [add] stamps the new
    corpus. *)

From S2P Require Import Prelude PyDict Json TitleCase Document DocInit DocJson Corpus Export CorpusInit.

(** The document [Document(f)] builds from the JSON file of [d] under
    the id [k]. *)
Definition reimport (k : string) (d : Document) : Document :=
  mk_document (Some k) (map py_strip (authors d)) (title_case (title d)) (title_case (book d))
    (year d) (url d) (references d) (sections d) None.

Definition no_document : Document := mk_document None [] "" "" "" "" ∅ [] None.

(** The documents of the exported corpus, read back in order. *)
Definition reimported (w : World) (docs : list (string * obj)) : list Document :=
  map (fun ko => reimport ko.1 (default no_document (heap w !! ko.2))) docs.

(** ** File names *)

Lemma path_join_suffix a b : exists pre, path_join a b = pre +:+ b.
Proof.
  unfold path_join. destruct (String.prefix "/" b); [by exists ""|].
  destruct (_ || _); [by exists a|]. exists (a +:+ "/"). by rewrite str_app_assoc.
Qed.

(** A file [<dest>/<id>.json] is read as JSON. *)
Lemma json_path_form dest k :
  truthy (path_join dest (k +:+ ".json")) = true /\
  infer_form (path_join dest (k +:+ ".json")) = Some "json".
Proof.
  destruct (path_join_suffix dest (k +:+ ".json")) as [pre ->]. split.
  - apply negb_true_iff, String.eqb_neq. intros H. apply (f_equal String.length) in H.
    rewrite !str_app_length in H. simpl in H. lia.
  - unfold infer_form.
    assert (H : str_contains "json" (pre +:+ (k +:+ ".json")) = true)
      by (do 2 apply str_contains_app_r; reflexivity).
    by rewrite H.
Qed.

(** ** One file *)

(** The file of [d], read by [Document(f)], gives [reimport k d]. *)
Lemma reimport_builds e dest k d s :
  loader_agrees e -> id d = Some k -> doc_json d false = Ok s ->
  read_file e (path_join dest (k +:+ ".json")) = Ok (s +:+ NL) ->
  builds e (path_join dest (k +:+ ".json")) (reimport k d).
Proof.
  intros He Hk Hs Hr.
  assert (Hl : load_json e (path_join dest (k +:+ ".json")) = Ok (jdoc_of_doc k d (sections d))).
  { specialize (He (path_join dest (k +:+ ".json"))). unfold loader_for, load_record, json_load in He.
    rewrite Hr, (doc_json_loads d false k s Hk Hs) in He.
    cbn [rbind] in He. by rewrite jdoc_of_doc_dict in He. }
  destruct (json_path_form dest k) as [Ht Hj].
  unfold builds, document_init, resolve_form, file_given. rewrite Ht, Hj. simpl.
  rewrite Hl. simpl.
  unfold doc_fields, reimport. simpl. by rewrite list_to_set_sorted_set.
Qed.

(** ** The list of files *)

Lemma Forall2_map_same {A B C} (R : B -> C -> Prop) (f : A -> B) (g : A -> C) l :
  (forall x, x ∈ l -> R (f x) (g x)) -> Forall2 R (map f l) (map g l).
Proof.
  induction l as [|x l IH]; intros H; constructor; [apply H; by left|].
  apply IH. intros y Hy. apply H. by right.
Qed.

Lemma omap_id_reimported w docs : omap id (reimported w docs) = map fst docs.
Proof. unfold reimported. induction docs as [|[k o] docs IH]; [done|]. simpl. f_equal. exact IH. Qed.

Lemma doc_with_id_reimported w docs k :
  Forall (fun ko : string * obj => is_Some (heap w !! ko.2)) docs ->
  doc_with_id (reimported w docs) k
  = option_map (reimport k) (dict_get docs k ≫= fun o => heap w !! o).
Proof.
  induction 1 as [|[k' o] docs [d Hd] _ IH]; [done|]. unfold doc_with_id in *. simpl.
  destruct (decide (k = k')) as [->|Hne].
  - rewrite bool_decide_true by done. simpl in *. by rewrite Hd.
  - rewrite bool_decide_false by congruence. exact IH.
Qed.

Lemma docs_paths_nodup w c dest :
  corpus_inv w -> (forall k, k ∈ dict_keys (docs_of w c) -> String.prefix "/" k = false) ->
  NoDup (map (fun ko : string * obj => path_join dest (ko.1 +:+ ".json")) (docs_of w c)).
Proof.
  intros Hw Hk. rewrite <- (map_map fst (fun k => path_join dest (k +:+ ".json"))).
  apply paths_nodup; [by apply docs_of_wf | done | done].
Qed.

(** Each exported file holds the text of its document. *)
Lemma exported_file stop w c dest k o :
  corpus_inv w -> (k, o) ∈ docs_of w c ->
  (forall k, k ∈ dict_keys (docs_of w c) -> String.prefix "/" k = false) ->
  fs_read (export stop w c dest false "json").1 (path_join dest (k +:+ ".json"))
  = Ok (ser_of stop w false "json" o +:+ NL).
Proof.
  intros Hw Hko Hk. pose proof (docs_paths_nodup w c dest Hw Hk) as Hnd.
  rewrite export_json_events by done. unfold fs_read, fs_after. simpl.
  rewrite fs_events_lookup by exact Hnd.
  by rewrite (find_nodup_key (fun ko : string * obj => path_join dest (ko.1 +:+ ".json")) _ (k, o)).
Qed.

(** ** Export, then read back *)

(** C6: composition.  A corpus whose ids contain no ['/'], exported with
    [export(dest, form='json')] and read back with
    [Corpus(dest, pool, path_list)] over the files the export wrote, each
    file read by [Document(f)] through [json.load], returns with the same
    ids in the same order, and holds under each id the exported document
    as [Document.__init__] rebuilds it (authors stripped, [title_case]
    applied once more to title and book), stamped with the new corpus.
    The ids without ['/'] make the files [<dest>/<id>.json] distinct
    entries of [dest] (C19), so the file system keyed by path string is
    the directory the export leaves. *)
Theorem export_reimport stop w c dest e w0 :
  corpus_inv w -> corpus_inv w0 -> docs_of w c <> [] ->
  (forall k, k ∈ dict_keys (docs_of w c) -> str_contains "/" k = false) ->
  truthy dest = true -> isfile e dest = false ->
  read_file e = fs_read (export stop w c dest false "json").1 -> loader_agrees e ->
  exists w', corpus_init e w0 (Some dest) true (opened (export stop w c dest false "json").1)
             = Returned w' (corpus_new w0).2 (Ok tt)
    /\ dict_keys (docs_of w' (corpus_new w0).2) = dict_keys (docs_of w c)
    /\ forall k, store_get (w', (corpus_new w0).2) k
         = option_map (fun d => set_corpus (Some (corpus_new w0).2) (reimport k d)) (store_get (w, c) k).
Proof.
  intros Hw Hw0 Hne Hsl Ht Hf Hr He.
  assert (Hk : forall k, k ∈ dict_keys (docs_of w c) -> String.prefix "/" k = false)
    by (intros k Hin; by apply no_slash_prefix, Hsl).
  set (paths := map (fun ko : string * obj => path_join dest (ko.1 +:+ ".json")) (docs_of w c)).
  assert (Hpl : opened (export stop w c dest false "json").1 = paths).
  { rewrite export_json_events by done. simpl. rewrite opened_doc_events. by rewrite map_map. }
  assert (Hb : Forall2 (builds e) paths (reimported w (docs_of w c))).
  { apply Forall2_map_same. intros [k o] Hko.
    assert (Hg : dict_get (docs_of w c) k = Some o)
      by (apply elem_of_dict_get; [by apply docs_of_wf | done]).
    destruct (json_ser_ok stop w c k o Hw Hg) as (d & s & Hd & Hid & Hs & Hser).
    simpl. rewrite Hd. simpl. apply (reimport_builds e dest k d s He Hid Hs).
    rewrite Hr, (exported_file stop w c dest k o Hw Hko Hk). by rewrite Hser. }
  assert (Hheap : Forall (fun ko : string * obj => is_Some (heap w !! ko.2)) (docs_of w c)).
  { apply Forall_forall. intros [k o] Hko.
    assert (Hg : dict_get (docs_of w c) k = Some o)
      by (apply elem_of_dict_get; [by apply docs_of_wf | done]).
    destruct (docs_of_get w c k o Hw Hg) as (d & Hd & _). by exists d. }
  assert (Hids : Forall (fun d => is_Some (id d)) (reimported w (docs_of w c))).
  { apply Forall_forall. intros x Hx. apply list_elem_of_In, in_map_iff in Hx as (ko & <- & _).
    by eexists. }
  assert (Hpn : paths <> []) by (intros Hn; by apply map_eq_nil in Hn).
  pose proof (corpus_new_inv w0 Hw0) as Hw1. pose proof (docs_of_corpus_new w0) as H1.
  rewrite Hpl. clearbody paths. unfold corpus_init. destruct (corpus_new w0) as [w1 c']. simpl in Hw1, H1 |- *.
  rewrite Ht, Hf. simpl. unfold dir_ingest. simpl.
  destruct paths as [|p ps]; [done|].
  destruct (pool_ingest_ok e (p :: ps) (reimported w (docs_of w c)) w1 c' Hw1 Hb Hids)
    as (w' & Hp & _ & Hkeys & Hst).
  { rewrite H1, omap_id_reimported. apply docs_of_wf, Hw. }
  exists w'. split_and!; [exact Hp | by rewrite Hkeys, H1, omap_id_reimported |].
  intros k. rewrite Hst, doc_with_id_reimported by exact Hheap.
  unfold store_get, world_store. rewrite H1. simpl.
  by destruct (dict_get (docs_of w c) k ≫= _).
Qed.

(** ** Witness *)

Definition small_export : list fs_event := (export (fun _ => false) small_corpus 0 "/out" false "json").1.

(** A host where [/out] is the directory the export wrote, and where the
    record loader is [DocJson]'s. *)
Definition reimport_env : env :=
  mk_env (fun p => negb (String.eqb p "/out")) (fs_read small_export)
    (loader_of (fs_read small_export)) (fun _ => Ok []) 4 (fun s => [s]).

Lemma export_reimport_witness :
  exists w', corpus_init reimport_env empty_world (Some "/out") true (opened small_export)
             = Returned w' (corpus_new empty_world).2 (Ok tt)
    /\ dict_keys (docs_of w' (corpus_new empty_world).2) = dict_keys (docs_of small_corpus 0)
    /\ forall k, store_get (w', (corpus_new empty_world).2) k
         = option_map (fun d => set_corpus (Some (corpus_new empty_world).2) (reimport k d))
             (store_get (small_corpus, 0) k).
Proof.
  apply (export_reimport (fun _ => false) small_corpus 0 "/out" reimport_env empty_world).
  - exact small_corpus_inv.
  - intros c docs Hc. simpl in Hc. by rewrite lookup_empty in Hc.
  - vm_compute. discriminate.
  - intros k Hk. vm_compute in Hk. apply list_elem_of_singleton in Hk. by subst k.
  - reflexivity.
  - reflexivity.
  - reflexivity.
  - by apply loader_of_agrees.
Defined.
